(** * MIRA importers and Petri-net exporters: a shallow embedding

    The development follows the Python sources
    - [mira/sources/bilayer.py]        (bilayer boxes to templates),
    - [mira/sources/sbml/processor.py] (reaction networks to templates,
      constant-concept elimination, grounding normalisation),
    - [mira/modeling/petri.py] and [mira/modeling/askenet/petrinet.py]
      (template models to Petri nets).

    Python exceptions are values of an error monad, Python [dict]s whose
    iteration order is observable are insertion-ordered association
    lists, Python sets of strings are [gset string], and objects whose
    attributes are assigned one by one are attribute stores. *)

From Stdlib Require Import QArith.
From stdpp Require Import base option list strings gmap sorting.
From stdpp Require pretty.

Open Scope string_scope.
Open Scope list_scope.
Open Scope nat_scope.

(** ** Exceptions *)

Inductive exn : Type :=
| KeyError (key : string)
| IndexError
| AttributeError (attr : string)
| AssertionError
| ValidationError
| TypeError
| XMLSyntaxError.

Inductive result (A : Type) : Type :=
| Ok (a : A)
| Raise (e : exn).
Arguments Ok {A} a.
Arguments Raise {A} e.

#[global] Instance result_ret : MRet result := fun _ a => Ok a.
#[global] Instance result_bind : MBind result := fun _ _ f m =>
  match m with
  | Ok a => f a
  | Raise e => Raise e
  end.
#[global] Instance result_fmap : FMap result := fun _ _ f m =>
  match m with
  | Ok a => Ok (f a)
  | Raise e => Raise e
  end.

Definition is_ok {A} (m : result A) : bool :=
  match m with Ok _ => true | Raise _ => false end.

(** [for x in xs: acc = body(acc, x)] where the body may raise. *)
Fixpoint foldM {A S} (body : S → A → result S) (s : S) (xs : list A)
  : result S :=
  match xs with
  | [] => Ok s
  | x :: xs' => s' ← body s x; foldM body s' xs'
  end.

(** [[f(x) for x in xs]] where [f] may raise. *)
Fixpoint mapM_result {A B} (f : A → result B) (xs : list A)
  : result (list B) :=
  match xs with
  | [] => Ok []
  | x :: xs' => y ← f x; ys ← mapM_result f xs'; Ok (y :: ys)
  end.

(** ** Strings *)

(** [s.startswith(p)] *)
Definition startswith (s p : string) : bool := String.prefix p s.

(** [needle in hay] for Python strings. *)
Fixpoint str_contains (needle hay : string) : bool :=
  String.prefix needle hay ||
  match hay with
  | EmptyString => false
  | String _ hay' => str_contains needle hay'
  end.

(** Truthiness of a Python string. *)
Definition str_truthy (s : string) : bool :=
  match s with EmptyString => false | _ => true end.

(** [sorted(xs)] on a collection of distinct strings: Python compares
    strings code point by code point. *)
Definition sorted (X : gset string) : list string :=
  merge_sort String.le (elements X).

(** ** Symbolic expressions

    Rate laws are sympy expressions.  The embedding keeps the expression
    tree: symbols, numerals, sums, products and powers.  Numerals stand
    for Python floats and are rationals here. *)

Inductive expr : Type :=
| Symbol (name : string)
| Number (q : Q)
| Add (a b : expr)
| Mul (a b : expr)
| Pow (a b : expr).

#[global] Instance Q_eq_dec : EqDecision Q.
Proof. solve_decision. Defined.
#[global] Instance expr_eq_dec : EqDecision expr.
Proof. solve_decision. Defined.

(** [variables_from_sympy_expr]: the names of the symbols reached by
    descending through [expr.args]. *)
Fixpoint variables_from_sympy_expr (e : expr) : gset string :=
  match e with
  | Symbol x => {[ x ]}
  | Number _ => ∅
  | Add a b | Mul a b | Pow a b =>
      variables_from_sympy_expr a ∪ variables_from_sympy_expr b
  end.

(** [expr.free_symbols]: a set of [Symbol] objects, identified by name. *)
Definition free_symbols (e : expr) : gset string :=
  variables_from_sympy_expr e.

(** [x in S] where [S] is a set of [Symbol] objects and [x] is any
    expression: only a bare symbol can be a member. *)
Definition expr_in_symbols (x : expr) (S : gset string) : bool :=
  match x with
  | Symbol n => bool_decide (n ∈ S)
  | _ => false
  end.

(** [expr.subs(symbol, value)] with a numeric value. *)
Fixpoint subs (x : string) (v : Q) (e : expr) : expr :=
  match e with
  | Symbol y => if bool_decide (y = x) then Number v else Symbol y
  | Number q => Number q
  | Add a b => Add (subs x v a) (subs x v b)
  | Mul a b => Mul (subs x v a) (subs x v b)
  | Pow a b => Pow (subs x v a) (subs x v b)
  end.

(** [expr.diff(symbol)] and the quotient [expr / symbol] belong to sympy.
    The quotient is an expression in which sympy has cancelled what it
    can (the quotient of [k*S*c**2] by [c] is [k*S*c], that of [k*S*c] is
    [k*S]); all that the embedding keeps of it is that it brings in no
    symbol. *)
Record sympy_ops : Type := SympyOps {
  diff : expr → string → expr;
  truediv : expr → string → expr;
  truediv_free_symbols :
    ∀ e x, free_symbols (truediv e x) ⊆ free_symbols e ∪ {[ x ]};
}.

(** ** Insertion-ordered dictionaries with string keys and values *)

Module PyDict.

Abbreviation t := (list (string * string)).

Definition keys (d : t) : list string := d.*1.

(** [d.get(k)] *)
Fixpoint get (k : string) (d : t) : option string :=
  match d with
  | [] => None
  | (k', v) :: d' => if bool_decide (k' = k) then Some v else get k d'
  end.

(** [d.pop(k)], returning the dictionary that is left. *)
Definition pop (k : string) (d : t) : result t :=
  match get k d with
  | None => Raise (KeyError k)
  | Some _ => Ok (filter (λ kv, kv.1 ≠ k) d)
  end.

(** [d[k] = v]: an existing key keeps its position, a new key goes to
    the end. *)
Fixpoint set (k v : string) (d : t) : t :=
  match d with
  | [] => [(k, v)]
  | (k', v') :: d' =>
      if bool_decide (k' = k) then (k, v) :: d' else (k', v') :: set k v d'
  end.

(** [d1 == d2]: same keys with the same values, in any order. *)
Definition eqb (d1 d2 : t) : bool :=
  bool_decide (length d1 = length d2) &&
  forallb (λ kv, bool_decide (get kv.1 d2 = Some kv.2)) d1.

Definition wf (d : t) : Prop := NoDup (keys d).

End PyDict.

(** ** The metamodel: concepts and templates *)

(** Modelled from the spec: the class [Concept] of [mira.metamodel]
    (section 3: a name, the identifiers and context mappings and optional
    units; concepts are compared by value). *)
Record concept : Type := Concept {
  name : string;
  identifiers : PyDict.t;
  context : PyDict.t;
  units : option expr;
}.

(** [c1 == c2] *)
Definition concept_eqb (c1 c2 : concept) : bool :=
  bool_decide (name c1 = name c2) &&
  PyDict.eqb (identifiers c1) (identifiers c2) &&
  PyDict.eqb (context c1) (context c2) &&
  bool_decide (units c1 = units c2).

(** [c in cs] *)
Definition concept_in (c : concept) (cs : list concept) : bool :=
  existsb (concept_eqb c) cs.

(** Modelled from the spec: the template classes of [mira.metamodel]
    (section 3, the table of variants). *)
Inductive template_class : Type :=
| NaturalProduction | NaturalDegradation | NaturalConversion
| ControlledProduction | ControlledDegradation | ControlledConversion
| GroupedControlledProduction | GroupedControlledDegradation
| GroupedControlledConversion.

#[global] Instance template_class_eq_dec : EqDecision template_class.
Proof. solve_decision. Defined.

(** Modelled from the spec: a template object, its class together with the
    role slots the constructor call fills in.  A slot that the call leaves
    out or passes as [None] is [None]; [controllers] is the list given to
    a grouped variant and empty otherwise. *)
Record template : Type := Template {
  cls : template_class;
  subject : option concept;
  outcome : option concept;
  controller : option concept;
  controllers : list concept;
  rate_law : option expr;
}.

(** The number of controllers a template carries. *)
Definition controller_count (t : template) : nat :=
  length (option_list (controller t)) + length (controllers t).

(** The controllers of a template, whichever slot holds them. *)
Definition template_controllers (t : template) : list concept :=
  option_list (controller t) ++ controllers t.

(** Modelled from the spec: the constructors of the template classes
    validate the roles they are given (section 3, the table of variants;
    section 9: "an explicit constructor per variant validated at
    construction time"): a role that the variant has must hold a concept,
    and a call that passes [None] for it raises. *)
Definition has_subject (c : template_class) : bool :=
  match c with
  | NaturalProduction | ControlledProduction | GroupedControlledProduction =>
      false
  | _ => true
  end.

Definition has_outcome (c : template_class) : bool :=
  match c with
  | NaturalDegradation | ControlledDegradation | GroupedControlledDegradation =>
      false
  | _ => true
  end.

Definition has_controller (c : template_class) : bool :=
  match c with
  | ControlledProduction | ControlledDegradation | ControlledConversion => true
  | _ => false
  end.

Definition filled {A} (slot : option A) : bool :=
  match slot with Some _ => true | None => false end.

Definition roles_filled (t : template) : bool :=
  (negb (has_subject (cls t)) || filled (subject t)) &&
  (negb (has_outcome (cls t)) || filled (outcome t)) &&
  (negb (has_controller (cls t)) || filled (controller t)).

Definition validated (t : template) : result template :=
  if roles_filled t then Ok t else Raise ValidationError.

Record parameter : Type := mk_parameter {
  p_name : string;
  p_value : Q;
  p_description : option string;
}.

Record initial : Type := mk_initial {
  i_concept : concept;
  i_value : Q;
}.

Record template_model : Type := TemplateModel {
  templates : list template;
  parameters : gmap string parameter;
  initials : gmap string initial;
}.

(** ** Bilayer importer ([mira/sources/bilayer.py]) *)

Module Bilayer.

(** One entry of the [boxes] list: the dictionary with the keys
    ['inputs'], ['outputs'] and ['controllers']. *)
Record box : Type := Box {
  b_inputs : list concept;
  b_outputs : list concept;
  b_controllers : list concept;
}.

(** [box_to_template]; the template is built by the constructor of its
    class, which raises when the box lacks the input or the output that
    the class asks for. *)
Definition box_to_template (b : box) : result template :=
  if negb (bool_decide (length (b_inputs b) ≤ 1)) then Raise AssertionError
  else if negb (bool_decide (length (b_outputs b) ≤ 1))
  then Raise AssertionError
  else
    let input := head (b_inputs b) in
    let output := head (b_outputs b) in
    match b_controllers b with
    | [] =>
        match input, output with
        | None, _ =>
            validated (Template NaturalProduction None output None [] None)
        | Some _, None =>
            validated (Template NaturalDegradation input None None [] None)
        | Some _, Some _ =>
            validated (Template NaturalConversion input output None [] None)
        end
    | [c] =>
        validated
          (Template ControlledConversion input output (Some c) [] None)
    | cs =>
        validated
          (Template GroupedControlledConversion input output None cs None)
    end.

(** The bilayer document: the variable names of ['Qin'], the number of
    entries of ['Box'], and the three wire lists with their 1-based
    indices. *)
Record bilayer : Type := BilayerJson {
  Qin : list string;
  Box_count : nat;
  Wn : list (Z * Z);    (* (efflux, effusion) *)
  Wa : list (Z * Z);    (* (influx, infusion) *)
  Win : list (Z * Z);   (* (call, arg) *)
}.

(** [concepts[k]] for the dictionary
    [{idx + 1: Concept(name=q['variable']) for idx, q in enumerate(Qin)}] *)
Definition lookup_concept (qin : list string) (k : Z) : result concept :=
  if bool_decide (1 ≤ k)%Z then
    match qin !! Z.to_nat (k - 1) with
    | Some v => Ok (Concept v [] [] None)
    | None => Raise (KeyError "concepts")
    end
  else Raise (KeyError "concepts").

(** The position Python reads for [l[i]]: negative indices count from
    the end. *)
Definition py_index {A} (l : list A) (i : Z) : result nat :=
  let n := Z.of_nat (length l) in
  if bool_decide (0 ≤ i < n)%Z then Ok (Z.to_nat i)
  else if bool_decide (- n ≤ i < 0)%Z then Ok (Z.to_nat (n + i))
  else Raise IndexError.

Definition box_at (boxes : list box) (i : Z) : result (nat * box) :=
  n ← py_index boxes i;
  match boxes !! n with
  | Some b => Ok (n, b)
  | None => Raise IndexError
  end.

Definition add_input (c : concept) (b : box) : box :=
  Box (b_inputs b ++ [c]) (b_outputs b) (b_controllers b).
Definition add_output (c : concept) (b : box) : box :=
  Box (b_inputs b) (b_outputs b ++ [c]) (b_controllers b).
Definition add_controller (c : concept) (b : box) : box :=
  Box (b_inputs b) (b_outputs b) (b_controllers b ++ [c]).

(** [template_model_from_bilayer] *)
Definition template_model_from_bilayer (j : bilayer) : result template_model :=
  let boxes0 := replicate (Box_count j) (Box [] [] []) in
  boxes1 ← foldM (λ boxes '(efflux, effusion),
                    '(n, b) ← box_at boxes (efflux - 1);
                    c ← lookup_concept (Qin j) effusion;
                    Ok (<[n := add_input c b]> boxes))
                 boxes0 (Wn j);
  boxes2 ← foldM (λ boxes '(influx, infusion),
                    '(n, b) ← box_at boxes (influx - 1);
                    c ← lookup_concept (Qin j) infusion;
                    Ok (<[n := add_output c b]> boxes))
                 boxes1 (Wa j);
  boxes3 ← foldM (λ boxes '(call, arg),
                    c ← lookup_concept (Qin j) arg;
                    '(n, b) ← box_at boxes (call - 1);
                    if concept_in c (b_inputs b) then Ok boxes
                    else Ok (<[n := add_controller c b]> boxes))
                 boxes2 (Win j);
  ts ← mapM_result box_to_template boxes3;
  Ok (TemplateModel ts ∅ ∅).

(** The variant the selection rule names for a shape: the natural,
    controlled or grouped variant of the production, degradation or
    conversion shape. *)
Definition shape_variant (has_input has_output : bool) (n : nat)
  : template_class :=
  match n, has_input, has_output with
  | 0, false, _ => NaturalProduction
  | 0, true, false => NaturalDegradation
  | 0, true, true => NaturalConversion
  | 1, false, _ => ControlledProduction
  | 1, true, false => ControlledDegradation
  | 1, true, true => ControlledConversion
  | _, false, _ => GroupedControlledProduction
  | _, true, false => GroupedControlledDegradation
  | _, true, true => GroupedControlledConversion
  end.

Definition has_input (b : box) : bool := bool_decide (b_inputs b ≠ []).
Definition has_output (b : box) : bool := bool_decide (b_outputs b ≠ []).

End Bilayer.

(** ** Reaction-network importer ([mira/sources/sbml/processor.py]) *)

Module Sbml.

(** The parts of a libSBML document that the loop over the reactions
    reads.  Kinetic laws are taken after [sympy.parse_expr] and the
    substitution of the assignment rules, identifiers after
    [clean_formula]. *)
Record sbml_parameter : Type := SbmlParameter {
  par_id : string;
  par_value : Q;
  par_name : string;
}.

Record compartment : Type := Compartment {
  comp_id : string;
  comp_volume : Q;
  comp_name : string;
}.

Record reaction : Type := Reaction {
  r_id : string;
  modifiers : list string;
  reactants : list string;
  products : list string;
  kinetic_law : expr;
  reversible : bool;
}.

(** An entry of [all_parameters]: [{'value': …, 'description': …}]. *)
Record param_info : Type := ParamInfo {
  pi_value : Q;
  pi_description : string;
}.

Section reactions.

Variable sympy : sympy_ops.

Variable reporter_ids : gset string.
Variable concepts : gmap string concept.
Variable params : gmap string param_info.
Variable species_ids : gset string.

(** The body of the loop over [compartment_symbols.items()]. *)
Definition substitute_compartment (rate_expr : expr) (comp : string)
  : result expr :=
  match params !! comp with
  | None => Raise (KeyError comp)
  | Some info =>
      let comp_one :=
        if bool_decide (comp ∈ free_symbols rate_expr) then
          if negb (expr_in_symbols rate_expr
                     (free_symbols (diff sympy rate_expr comp))) then
            if Qeq_bool (pi_value info) 1 then true else false
          else false
        else false in
      if comp_one then Ok (truediv sympy rate_expr comp)
      else Ok (subs comp (pi_value info) rate_expr)
  end.

Definition substitute_compartments (comps : list string) (rate_expr : expr)
  : result expr :=
  foldM substitute_compartment rate_expr comps.

(** The substitution as the specification words it: the symbol is divided
    out when the rate law is linear in it and the volume is exactly 1, and
    is replaced by the volume otherwise.  A law is linear in a symbol when
    its derivative is free of the symbol. *)
Definition linear_in (rate_expr : expr) (comp : string) : bool :=
  bool_decide (comp ∉ free_symbols (diff sympy rate_expr comp)).

Definition spec_substitute_compartment (rate_expr : expr) (comp : string)
  : result expr :=
  match params !! comp with
  | None => Raise (KeyError comp)
  | Some info =>
      if bool_decide (comp ∈ free_symbols rate_expr) &&
         linear_in rate_expr comp && Qeq_bool (pi_value info) 1
      then Ok (truediv sympy rate_expr comp)
      else Ok (subs comp (pi_value info) rate_expr)
  end.

(** [_lookup_concepts_filtered] *)
Definition species_kept (species_id : string) : bool :=
  bool_decide (species_id ∉ reporter_ids) &&
  negb (str_contains "cumulative" species_id).

Definition _lookup_concepts_filtered (ids : list string)
  : result (list concept) :=
  mapM_result
    (λ species_id,
       match concepts !! species_id with
       | Some c => Ok c
       | None => Raise (KeyError species_id)
       end)
    (filter (λ species_id, species_kept species_id = true) ids).

(** [implicit_modifiers] *)
Definition implicit_modifiers (rate_law_variables : gset string)
    (reactant_species modifier_species : list string) : gset string :=
  (rate_law_variables ∩ species_ids)
    ∖ (list_to_set reactant_species ∪ list_to_set modifier_species).

(** The implicit controllers as the specification words them: what the
    subject, the declared controllers and the outcome already cover is
    taken away. *)
Definition spec_implicit_controllers (rate_law_variables : gset string)
    (subject declared outcome : list string) : gset string :=
  (rate_law_variables ∩ species_ids)
    ∖ (list_to_set subject ∪ list_to_set declared ∪ list_to_set outcome).

(** What the first conditional of the loop body leaves behind: the
    loop moves on ([continue]), or the templates appended so far. *)
Inductive flow : Type :=
| Continue
| Appended (ts : list template).

Definition conversion (rs ps ms : list concept) (rate_expr : expr) : flow :=
  match rs, ps with
  | [r0], [p0] =>
      if str_truthy (name r0) && concept_eqb r0 p0 then Continue
      else
        match ms with
        | [] =>
            Appended [Template NaturalConversion (Some r0) (Some p0)
                        None [] (Some rate_expr)]
        | [m0] =>
            Appended [Template ControlledConversion (Some r0) (Some p0)
                        (Some m0) [] (Some rate_expr)]
        | _ =>
            Appended [Template GroupedControlledConversion (Some r0)
                        (Some p0) None ms (Some rate_expr)]
        end
  | [], [] => Continue
  | _, _ => Appended []
  end.

Definition nonempty {A} (l : list A) : bool :=
  match l with [] => false | _ => true end.

Definition production_or_degradation (rs ps ms : list concept)
    (rate_expr : expr) : list template :=
  if xorb (nonempty ps) (nonempty rs) then
    let '(contr, contrs) :=
      match ms with
      | [] => (None, [])
      | [m0] => (Some m0, [])
      | _ => (None, ms)
      end in
    match ps with
    | p0 :: _ =>
        let c := match ms with
                 | [] => NaturalProduction
                 | [_] => ControlledProduction
                 | _ => GroupedControlledProduction
                 end in
        [Template c None (Some p0) contr contrs (Some rate_expr)]
    | [] =>
        let c := match ms with
                 | [] => NaturalDegradation
                 | [_] => ControlledDegradation
                 | _ => GroupedControlledDegradation
                 end in
        [Template c (head rs) None contr contrs (Some rate_expr)]
    end
  else [].

(** The list of modifier species after the implicit ones are added. *)
Definition extended_modifiers (r : reaction) (rate_expr : expr)
  : list string :=
  modifiers r ++
  sorted (implicit_modifiers (variables_from_sympy_expr rate_expr)
            (reactants r) (modifiers r)).

(** One turn of the loop over [sbml_model.reactions]: the templates the
    reaction appends. *)
Definition reaction_templates (comps : list string) (r : reaction)
  : result (list template) :=
  rate_expr ← substitute_compartments comps (kinetic_law r);
  ms ← _lookup_concepts_filtered (extended_modifiers r rate_expr);
  rs ← _lookup_concepts_filtered (reactants r);
  ps ← _lookup_concepts_filtered (products r);
  match conversion rs ps ms rate_expr with
  | Continue => Ok []
  | Appended ts => Ok (ts ++ production_or_degradation rs ps ms rate_expr)
  end.

Definition extract_templates (comps : list string) (rs : list reaction)
  : result (list template) :=
  foldM (λ acc r, ts ← reaction_templates comps r; Ok (acc ++ ts)) [] rs.

End reactions.

(** *** Constant-concept elimination *)

(** Modelled from the spec: [Template.get_concepts_by_role] of
    [mira.metamodel], the role slots of each variant (section 3) with
    the attribute stored in each. *)
Inductive role_value : Type :=
| RoleConcept (c : option concept)
| RoleConcepts (cs : list concept).

Definition concept_keys (c : template_class) : list string :=
  match c with
  | NaturalProduction => ["outcome"]
  | NaturalDegradation => ["subject"]
  | NaturalConversion => ["subject"; "outcome"]
  | ControlledProduction => ["controller"; "outcome"]
  | ControlledDegradation => ["controller"; "subject"]
  | ControlledConversion => ["controller"; "subject"; "outcome"]
  | GroupedControlledProduction => ["controllers"; "outcome"]
  | GroupedControlledDegradation => ["controllers"; "subject"]
  | GroupedControlledConversion => ["controllers"; "subject"; "outcome"]
  end.

Definition get_role (t : template) (role : string) : role_value :=
  if bool_decide (role = "subject") then RoleConcept (subject t)
  else if bool_decide (role = "outcome") then RoleConcept (outcome t)
  else if bool_decide (role = "controller") then RoleConcept (controller t)
  else RoleConcepts (controllers t).

Definition get_concepts_by_role (t : template)
  : list (string * role_value) :=
  (λ role, (role, get_role t role)) <$> concept_keys (cls t).

(** The names of the concepts of one role; reading [.name] off a slot
    that holds [None] raises. *)
Definition role_names (v : role_value) : result (gset string) :=
  match v with
  | RoleConcepts cs => Ok (list_to_set (name <$> cs))
  | RoleConcept (Some c) => Ok {[ name c ]}
  | RoleConcept None => Raise (AttributeError "name")
  end.

(** The two accumulators of [find_constant_concepts]. *)
Definition scan_roles (acc : gset string * gset string)
    (rv : string * role_value) : result (gset string * gset string) :=
  names ← role_names rv.2;
  let '(all_concepts, changing_concepts) := acc in
  let changing_concepts :=
    if bool_decide (rv.1 = "subject") || bool_decide (rv.1 = "outcome")
    then changing_concepts ∪ names else changing_concepts in
  Ok (all_concepts ∪ names, changing_concepts).

(** [find_constant_concepts] *)
Definition find_constant_concepts (tm : template_model)
  : result (gset string) :=
  acc ← foldM (λ acc t, foldM scan_roles acc (get_concepts_by_role t))
        (∅, ∅) (templates tm);
  Ok (acc.1 ∖ acc.2).

(** [template.rate_law.subs(controller_name, value)] *)
Definition subs_rate_law (t : template) (controller_name : string) (v : Q)
  : result (option expr) :=
  match rate_law t with
  | Some e => Ok (Some (subs controller_name v e))
  | None => Raise (AttributeError "subs")
  end.

(** [replace_controller_by_constant]; [Ok None] is the bare [return]. *)
Definition replace_controller_by_constant (t : template)
    (controller_name : string) (value : Q) : result (option template) :=
  match cls t with
  | ControlledConversion =>
      match controller t with
      | None => Raise (AttributeError "name")
      | Some c =>
          if bool_decide (name c = controller_name) then
            rl ← subs_rate_law t controller_name value;
            Ok (Some (Template NaturalConversion (subject t) (outcome t)
                        None [] rl))
          else Ok None
      end
  | GroupedControlledConversion =>
      if bool_decide (2 < length (controllers t)) then
        rl ← subs_rate_law t controller_name value;
        Ok (Some (Template GroupedControlledConversion (subject t)
                    (outcome t) None
                    (filter (λ c, name c ≠ controller_name) (controllers t))
                    rl))
      else
        match controllers t with
        | [] => Raise IndexError
        | c0 :: _ =>
            rl ← subs_rate_law t controller_name value;
            Ok (Some (Template ControlledConversion (subject t) (outcome t)
                        (Some c0) [] rl))
        end
  | _ => Ok None
  end.

(** The body of the loop of [replace_constant_concepts]. *)
Definition replace_constant_concept (tm : template_model)
    (constant_concept : string) : result template_model :=
  let initial_val :=
    match initials tm !! constant_concept with
    | Some i => i_value i
    | None => 1%Q
    end in
  let parameters' :=
    <[constant_concept := mk_parameter constant_concept initial_val None]>
      (parameters tm) in
  new_templates ←
    mapM_result
      (λ t, new_template ←
              replace_controller_by_constant t constant_concept initial_val;
            Ok (default t new_template))
      (templates tm);
  Ok (TemplateModel new_templates parameters' (initials tm)).

(** [replace_constant_concepts].  Python walks the set of constant
    concepts in an order of its own; [elements] fixes one. *)
Definition replace_constant_concepts (tm : template_model)
  : result template_model :=
  constant_concepts ← find_constant_concepts tm;
  foldM replace_constant_concept tm (elements constant_concepts).

(** *** Grounding normalisation *)

Section grounding.

(** [Concept.get_curie] belongs to [mira.metamodel]: the prefix and
    identifier the concept is known by. *)
Variable get_curie : concept → string * string.

(** One turn of the loop over the items of the copied dictionary. *)
Definition swap_step (ids : PyDict.t) (kv : string * string)
  : result PyDict.t :=
  let '(k, v) := kv in
  if bool_decide (k = "ncit") && startswith v "000" then
    ids' ← PyDict.pop k ids; Ok (PyDict.set "ido" v ids')
  else if bool_decide (k = "ido") && startswith v "C" then
    ids' ← PyDict.pop k ids; Ok (PyDict.set "ncit" v ids')
  else Ok ids.

Definition swap_ido_ncit (ids : PyDict.t) : result PyDict.t :=
  foldM swap_step ids ids.

(** [grounding_normalize] *)
Definition grounding_normalize (c : concept) : result concept :=
  ids ← swap_ido_ncit (identifiers c);
  let c1 := Concept (name c) ids (context c) (units c) in
  if negb (str_truthy (get_curie c1).1) &&
     PyDict.eqb (context c1) [("property", "ido:0000621")] then
    Ok (Concept (name c) (PyDict.set "ido" "0000592" ids) [] (units c))
  else if bool_decide (get_curie c1 = ("ido", "0000514")) &&
          PyDict.eqb (context c1) [("property", "ido:0000468")] then
    Ok (Concept (name c) ids [] (units c))
  else if bool_decide (get_curie c1 = ("ncit", "C171133")) &&
          PyDict.eqb (context c1) [("property", "ido:0000621")] then
    Ok (Concept (name c) [("ido", "0000592")] [] (units c))
  else if bool_decide (get_curie c1 = ("ncit", "C168970")) then
    Ok (Concept (name c) [("ncit", "C28554")] (context c) (units c))
  else Ok c1.


(** The invariant on an identifiers mapping. *)
Definition no_swapped_prefix (ids : PyDict.t) : Prop :=
  (∀ v, PyDict.get "ncit" ids = Some v → startswith v "000" = false) ∧
  (∀ v, PyDict.get "ido" ids = Some v → startswith v "C" = false).


End grounding.

End Sbml.

(** ** Petri-net exporters ([mira/modeling]) *)

Module Modeling.

(** Modelled from the spec: the classes [Variable], [Transition],
    [ModelParameter] and [Model] of [mira.modeling]: the compiled model
    the exporters read (section 4.5: concepts with handles, transitions
    with the subject among [consumed], the outcome among [produced] and
    the controllers among [control], and parameters). *)
Record variable : Type := Variable_ {
  v_key : string;
  v_data_name : option string;
  v_data_identifiers : string;
  v_data_context : string;
  v_data_initial_value : option expr;
}.

Record transition : Type := Transition {
  t_consumed : list variable;
  t_produced : list variable;
  t_control : list variable;
  t_template : template;
  t_template_type : string;
}.

Record distribution : Type := Distribution {
  d_type : string;
  d_parameters : list (string * Q);
}.

Record model_parameter : Type := ModelParameter {
  mp_value : Q;
  mp_distribution : option distribution;
}.

(** The dictionaries of a [Model], as their items in insertion order. *)
Record model : Type := Model {
  variables : list (string * variable);
  transitions : list transition;
  m_parameters : list (string * model_parameter);
}.

(** [var.data.get('name') or str(key)] *)
Definition display_name (key : string) (var : variable) : string :=
  match v_data_name var with
  | Some n => if str_truthy n then n else key
  | None => key
  end.

(** [str(x) or None] *)
Definition str_or_none (s : string) : option string :=
  if str_truthy s then Some s else None.

(** *** Exported dictionaries *)

Record state_data : Type := StateData {
  sd_name : string;
  sd_identifiers : option string;
  sd_context : option string;
  sd_initial : option expr;
}.

Record transition_dict : Type := TransitionDict {
  td_id : nat;                    (* the [n] of ["t<n>"] *)
  td_input : list string;
  td_output : list string;
  td_rate : option expr;
}.

Record param_dict : Type := ParamDict {
  pd_id : string;
  pd_value : Q;
  pd_distribution : option distribution;
}.

(** An arc [{'is': s, 'it': t}] or [{'os': s, 'ot': t}]. *)
Record arc : Type := Arc {
  arc_state : nat;
  arc_transition : nat;
}.

(** The values an exporter object stores in its attributes. *)
Inductive pyval : Type :=
| VStates (l : list state_data)
| VTransitions (l : list transition_dict)
| VParameters (l : list param_dict)
| VArcs (l : list arc)
| VMap (m : gmap string nat).

(** An object: its attribute dictionary. *)
Definition obj : Type := gmap string pyval.

(** [self.attr = v] and [self.attr] *)
Definition setattr (attr : string) (v : pyval) (self : obj) : obj :=
  <[attr := v]> self.
Definition getattr (self : obj) (attr : string) : result pyval :=
  match self !! attr with
  | Some v => Ok v
  | None => Raise (AttributeError attr)
  end.

(** [d[k]] on a dictionary. *)
Definition getitem {V} (d : gmap string V) (k : string) : result V :=
  match d !! k with
  | Some v => Ok v
  | None => Raise (KeyError k)
  end.

(** The handle an exporter's [vmap] gives a variable. *)
Definition handle {H} (vmap : gmap string H) (v : variable) : option H :=
  vmap !! v_key v.

(** Consume and replenish: the controllers of a transition are listed among
    its inputs and among its outputs, the consumed variables among the
    inputs, the produced ones among the outputs, and the lists hold nothing
    else. *)
Definition consume_and_replenish {H} (vmap : gmap string H) (tr : transition)
    (ins outs : list H) : Prop :=
  (∀ c, c ∈ t_control tr → ∃ h, handle vmap c = Some h ∧ h ∈ ins ∧ h ∈ outs) ∧
  (∀ s, s ∈ t_consumed tr → ∃ h, handle vmap s = Some h ∧ h ∈ ins) ∧
  (∀ p, p ∈ t_produced tr → ∃ h, handle vmap p = Some h ∧ h ∈ outs) ∧
  (∀ h, h ∈ ins →
     ∃ v, v ∈ t_control tr ++ t_consumed tr ∧ handle vmap v = Some h) ∧
  (∀ h, h ∈ outs →
     ∃ v, v ∈ t_control tr ++ t_produced tr ∧ handle vmap v = Some h).

(** [hs] are the handles of the variables [vs], in their order. *)
Definition handles {H} (vmap : gmap string H) (vs : list variable)
    (hs : list H) : Prop :=
  Forall2 (λ v h, handle vmap v = Some h) vs hs.

(** The lists of an exported transition, role by role: the controllers
    come first on both sides; the consumed variables follow them among the
    inputs and nowhere else, the produced variables follow them among the
    outputs and nowhere else. *)
Definition listed_by_roles {H} (vmap : gmap string H) (tr : transition)
    (ins outs : list H) : Prop :=
  ∃ ctl cons prod,
    handles vmap (t_control tr) ctl ∧
    handles vmap (t_consumed tr) cons ∧
    handles vmap (t_produced tr) prod ∧
    ins = ctl ++ cons ∧ outs = ctl ++ prod.

Module AskeNet.

(** The first loop of [__init__]: the handle of every variable and the
    exported states. *)
Definition states_loop (m : model)
  : gmap string string * list state_data :=
  foldl (λ '(vmap, states) '(key, var),
           let name := display_name key var in
           (<[key := name]> vmap,
            states ++ [StateData name
                         (str_or_none (v_data_identifiers var))
                         (str_or_none (v_data_context var))
                         (v_data_initial_value var)]))
        (∅, []) (variables m).

(** The body of the loop over [model.transitions.values()]. *)
Definition export_transition (vmap : gmap string string) (idx : nat)
    (tr : transition) : result transition_dict :=
  ctl ← mapM_result (λ c, getitem vmap (v_key c)) (t_control tr);
  cons ← mapM_result (λ c, getitem vmap (v_key c)) (t_consumed tr);
  prod ← mapM_result (λ p, getitem vmap (v_key p)) (t_produced tr);
  Ok (TransitionDict (idx + 1) (ctl ++ cons) (ctl ++ prod)
        (rate_law (t_template tr))).

Definition transitions_loop (vmap : gmap string string)
    (trs : list transition) : result (list transition_dict) :=
  foldM (λ acc tr, td ← export_transition vmap (length acc) tr;
                   Ok (acc ++ [td]))
        [] trs.

Definition parameters_loop (m : model) : list param_dict :=
  (λ '(key, param), ParamDict key (mp_value param) (mp_distribution param))
    <$> m_parameters m.

(** [AskeNetPetriNetModel.__init__], from the empty object. *)
Definition init (m : model) : result obj :=
  let self := setattr "states" (VStates []) ∅ in
  let self := setattr "transitions" (VTransitions []) self in
  let self := setattr "parameters" (VParameters []) self in
  let '(vmap, states) := states_loop m in
  let self := setattr "states" (VStates states) self in
  tds ← transitions_loop vmap (transitions m);
  let self := setattr "transitions" (VTransitions tds) self in
  Ok (setattr "parameters" (VParameters (parameters_loop m)) self).

(** [to_json] *)
Definition to_json (self : obj) : result (list (string * pyval)) :=
  s ← getattr self "states";
  t ← getattr self "transitions";
  i ← getattr self "inputs";
  o ← getattr self "outputs";
  Ok [("S", s); ("T", t); ("I", i); ("O", o)].

Section serialisers.
(** [json.dumps], [json.dump] into a file and the pydantic
    constructor [ModelSpecification] applied to the payload are
    library code. *)
Context {Str File Spec : Type}.
Variable dumps : list (string * pyval) → Str.
Variable dump : list (string * pyval) → string → File.
Variable ModelSpecification : list (string * pyval) → result Spec.

Definition to_pydantic (self : obj) : result Spec :=
  js ← to_json self; ModelSpecification js.

Definition to_json_str (self : obj) : result Str :=
  js ← to_json self; Ok (dumps js).

Definition to_json_file (self : obj) (fname : string) : result File :=
  js ← to_json self; Ok (dump js fname).
End serialisers.

End AskeNet.

Module Petri.

(** [self.vmap] *)
Definition make_vmap (m : model) : gmap string nat :=
  (foldl (λ '(vmap, idx) '(_, var), (<[v_key var := idx + 1]> vmap, S idx))
         (∅, 0) (variables m)).1.

Definition states_loop (m : model) : list state_data :=
  (λ '(key, var),
     StateData (display_name key var)
       (str_or_none (v_data_identifiers var))
       (str_or_none (v_data_context var))
       (v_data_initial_value var)) <$> variables m.

(** The arcs one transition appends to [self.inputs] and
    [self.outputs]. *)
Definition export_arcs (vmap : gmap string nat) (idx : nat)
    (tr : transition) : result (list arc * list arc) :=
  ctl ← mapM_result (λ c, getitem vmap (v_key c)) (t_control tr);
  cons ← mapM_result (λ c, getitem vmap (v_key c)) (t_consumed tr);
  prod ← mapM_result (λ p, getitem vmap (v_key p)) (t_produced tr);
  let mk s := Arc s (idx + 1) in
  Ok ((mk <$> ctl) ++ (mk <$> cons), (mk <$> ctl) ++ (mk <$> prod)).

(** The loop over the transitions: the exported transitions with the
    arcs accumulated in [self.inputs] and [self.outputs]. *)
Definition transitions_loop (vmap : gmap string nat)
    (trs : list transition)
  : result (list transition_dict * list arc * list arc) :=
  foldM (λ '(tds, inputs, outputs) tr,
           let idx := length tds in
           '(ins, outs) ← export_arcs vmap idx tr;
           Ok (tds ++ [TransitionDict (idx + 1) [] []
                         (rate_law (t_template tr))],
               inputs ++ ins, outputs ++ outs))
        ([], [], []) trs.

(** [PetriNetModel.__init__] *)
Definition init (m : model) : result obj :=
  let vmap := make_vmap m in
  let self := setattr "states" (VStates []) ∅ in
  let self := setattr "transitions" (VTransitions []) self in
  let self := setattr "inputs" (VArcs []) self in
  let self := setattr "outputs" (VArcs []) self in
  let self := setattr "vmap" (VMap vmap) self in
  let self := setattr "states" (VStates (states_loop m)) self in
  '(tds, inputs, outputs) ← transitions_loop vmap (transitions m);
  let self := setattr "transitions" (VTransitions tds) self in
  let self := setattr "inputs" (VArcs inputs) self in
  Ok (setattr "outputs" (VArcs outputs) self).

Definition to_json (self : obj) : result (list (string * pyval)) :=
  s ← getattr self "states";
  t ← getattr self "transitions";
  i ← getattr self "inputs";
  o ← getattr self "outputs";
  Ok [("S", s); ("T", t); ("I", i); ("O", o)].

(** The arcs of [arcs] that belong to transition [n]. *)
Definition arcs_of (n : nat) (arcs : list arc) : list nat :=
  arc_state <$> filter (λ a, arc_transition a = n) arcs.

End Petri.

End Modeling.

(** ** The boxes of a bilayer document *)

Module BilayerWiring.
Import Bilayer.

(** The three wiring loops of [template_model_from_bilayer]: the boxes as
    they are when the templates are built. *)
Definition wire_boxes (j : bilayer) : result (list box) :=
  let boxes0 := replicate (Box_count j) (Box [] [] []) in
  boxes1 ← foldM (λ boxes '(efflux, effusion),
                    '(n, b) ← box_at boxes (efflux - 1);
                    c ← lookup_concept (Qin j) effusion;
                    Ok (<[n := add_input c b]> boxes))
                 boxes0 (Wn j);
  boxes2 ← foldM (λ boxes '(influx, infusion),
                    '(n, b) ← box_at boxes (influx - 1);
                    c ← lookup_concept (Qin j) infusion;
                    Ok (<[n := add_output c b]> boxes))
                 boxes1 (Wa j);
  foldM (λ boxes '(call, arg),
           c ← lookup_concept (Qin j) arg;
           '(n, b) ← box_at boxes (call - 1);
           if concept_in c (b_inputs b) then Ok boxes
           else Ok (<[n := add_controller c b]> boxes))
        boxes2 (Win j).

(** The 1-based box indices that [boxes[i - 1]] accepts when there are
    [n] boxes: Python counts a negative position from the end. *)
Definition box_index_accepted (n : nat) (i : Z) : Prop :=
  (1 - Z.of_nat n ≤ i ≤ Z.of_nat n)%Z.

(** The keys of the [concepts] dictionary. *)
Definition variable_index_known (qin : list string) (k : Z) : Prop :=
  (1 ≤ k ≤ Z.of_nat (length qin))%Z.

(** A wire whose two indices can be resolved: the first component is the
    box, the second the variable. *)
Definition wire_resolved (j : bilayer) (w : Z * Z) : Prop :=
  box_index_accepted (Box_count j) w.1 ∧ variable_index_known (Qin j) w.2.

End BilayerWiring.

(** ** The families of template classes *)

Module Families.

(** The class of each family that goes with a list of controllers. *)
Definition conversion_of (ms : list concept) : template_class :=
  match ms with
  | [] => NaturalConversion
  | [_] => ControlledConversion
  | _ => GroupedControlledConversion
  end.

Definition production_of (ms : list concept) : template_class :=
  match ms with
  | [] => NaturalProduction
  | [_] => ControlledProduction
  | _ => GroupedControlledProduction
  end.

Definition degradation_of (ms : list concept) : template_class :=
  match ms with
  | [] => NaturalDegradation
  | [_] => ControlledDegradation
  | _ => GroupedControlledDegradation
  end.

End Families.

(** ** What constant-concept elimination keeps *)

Module Elimination.

(** What a template may become in the pass: the subject and the outcome
    stay, the controllers do not grow in number, and a template that is
    neither a [ControlledConversion] nor a [GroupedControlledConversion]
    is not touched. *)
Definition kept_by_elimination (t t' : template) : Prop :=
  subject t' = subject t ∧ outcome t' = outcome t ∧
  controller_count t' ≤ controller_count t ∧
  (cls t ≠ ControlledConversion → cls t ≠ GroupedControlledConversion →
   t' = t).

(** The value a constant concept gets as a parameter. *)
Definition constant_value (tm : template_model) (c : string) : Q :=
  match initials tm !! c with
  | Some i => i_value i
  | None => 1%Q
  end.

End Elimination.

(** ** Concepts named in a model *)

Module Mentions.
Import Sbml.

(** A template names [x] in the role [role]: the role is one of the
    template's roles and [x] is the name of a concept it holds. *)
Definition mentions (t : template) (role x : string) : Prop :=
  ∃ v N, (role, v) ∈ get_concepts_by_role t ∧ role_names v = Ok N ∧ x ∈ N.

End Mentions.


(** ** Concepts from annotated species ([_extract_concept]) *)

Module Extract.

Definition RESOURCE_KEY : string :=
  "{http://www.w3.org/1999/02/22-rdf-syntax-ns#}resource".

(** A list item [rdf:li] of an annotation, as the extraction reads it.
    The item may lack the [rdf:resource] attribute.  When it has one,
    [converter.parse_uri] gives the prefix and the identifier of its URI,
    or the pair [(None, None)] for a URI that it does not know. *)
Inductive item : Type :=
| NoResource
| Unparsed
| Curie (prefix identifier : string).

(** What [converter.parse_uri] returns: a prefix and an identifier, or
    [None] for the pair [(None, None)]. *)
Abbreviation tuple := (option (string * string)).

(** The items that the three XPath queries find in the annotation tree:
    [bqbiol:hasProperty], [bqbiol:is] and [bqbiol:isVersionOf]. *)
Record annotation : Type := Annotation {
  ann_properties : list item;
  ann_identifiers : list item;
  ann_version : list item;
}.

(** A species: [sn_annotation] is [None] when the annotation string is
    empty, and otherwise what [etree.fromstring] makes of it, a tree or
    the exception it raises. *)
Record species_node : Type := SpeciesNode {
  sn_id : string;
  sn_name : string;
  sn_annotation : option (result annotation);
}.

(** [converter.parse_uri(element.attrib[RESOURCE_KEY])] *)
Definition parse_item (it : item) : result tuple :=
  match it with
  | NoResource => Raise (KeyError RESOURCE_KEY)
  | Unparsed => Ok None
  | Curie p i => Ok (Some (p, i))
  end.

Definition read_items (items : list item) : result (list tuple) :=
  mapM_result parse_item items.

(** [x in l] and [l.remove(x)].  Every [remove] of the source follows a
    test that the tuple is in the list. *)
Definition has (x : tuple) (l : list tuple) : bool := bool_decide (x ∈ l).

Fixpoint remove_first (x : tuple) (l : list tuple) : list tuple :=
  match l with
  | [] => []
  | y :: l' => if bool_decide (y = x) then l' else y :: remove_first x l'
  end.

(** The first component of a tuple, the key it gets in [dict(l)]. *)
Definition prefix_of (t : tuple) : option string := fst <$> t.

(** [len(dict(l)) != len(l)]: one key of [dict(l)] stands for two tuples
    of [l]. *)
Definition keys_repeat (l : list tuple) : bool :=
  negb (bool_decide (NoDup (prefix_of <$> l))).

(** The tuples of a list that holds no [(None, None)]. *)
Fixpoint resolve (l : list tuple) : option (list (string * string)) :=
  match l with
  | [] => Some []
  | Some p :: l' => cons p <$> resolve l'
  | None :: _ => None
  end.

(** [dict(l)]: a key keeps the position of its first pair and the value
    of its last. *)
Definition of_list (l : list (string * string)) : PyDict.t :=
  foldl (λ d kv, PyDict.set kv.1 kv.2 d) [] l.

(** Modelled from the spec: [Concept] takes a mapping of ontology
    prefixes to local identifiers (section 3); its constructor rejects
    the entry [None: None] that a tuple [(None, None)] leaves in
    [dict(l)]. *)
Definition validated_identifiers (l : list tuple) : result PyDict.t :=
  match resolve l with
  | Some pairs => Ok (of_list pairs)
  | None => Raise ValidationError
  end.

(** The order of Python tuples of two strings. *)
Definition pair_le (a b : string * string) : Prop :=
  (if bool_decide (a.1 = b.1) then String.leb a.2 b.2
   else String.leb a.1 b.1) = true.

#[global] Instance pair_le_dec : RelDecision pair_le.
Proof. intros a b. unfold pair_le. apply _. Defined.

Definition sorted_pairs (l : list (string * string))
  : list (string * string) :=
  merge_sort pair_le l.

(** [sorted(l)] on tuples.  Tuples of strings are put in order; tuples
    [(None, None)] are equal to each other and stay as they are; the
    comparison of a [(None, None)] with a tuple of strings raises. *)
Definition sorted_tuples (l : list tuple) : result (list tuple) :=
  match resolve l with
  | Some pairs => Ok (Some <$> sorted_pairs pairs)
  | None => if forallb (λ t, negb (filled t)) l then Ok l else Raise TypeError
  end.

(** The clean-up of the list of identifiers, with the context entries it
    records. *)
Definition clean_identifiers (l : list tuple) : list tuple * PyDict.t :=
  let l := if has (Some ("ido", "C101887")) l
           then remove_first (Some ("ido", "C101887")) l
                  ++ [Some ("ncit", "C101887")]
           else l in
  let l := if has (Some ("ncit", "C171133")) l
           then remove_first (Some ("ncit", "C171133")) l else l in
  let '(l, context) :=
    if has (Some ("ido", "0000569")) l && has (Some ("ido", "0000511")) l
    then (remove_first (Some ("ido", "0000569")) l,
          PyDict.set "disease_status" "ncit:C3833" [])
    else (l, []) in
  let l := if has (Some ("ido", "0000514")) l && has (Some ("ido", "0000597")) l
           then remove_first (Some ("ido", "0000514")) l else l in
  let '(l, context) :=
    if has (Some ("ncit", "C25179")) l && has (Some ("ncit", "C53511")) l
    then (remove_first (Some ("ncit", "C53511")) l,
          PyDict.set "disease_status" "ncit:C53511" context)
    else (l, context) in
  let l := if has (Some ("ncit", "C28554")) l && has (Some ("ncit", "C168970")) l
           then remove_first (Some ("ncit", "C168970")) l else l in
  (l, context).

(** The loop over the sorted properties; [":".join(prop)] raises on the
    tuple [(None, None)]. *)
Definition normalise_property (p : string * string) : string * string :=
  if bool_decide (p.1 = "ncit") && startswith p.2 "000" then ("ido", p.2)
  else if bool_decide (p.1 = "ido") && startswith p.2 "C" then ("ncit", p.2)
  else p.

Definition property_key (idx : nat) : string :=
  "property" +:+ match idx with 0 => "" | _ => pretty.pretty idx end.

Definition add_property (context : PyDict.t) (ip : nat * tuple)
  : result PyDict.t :=
  match ip.2 with
  | None => Raise TypeError
  | Some p =>
      let prop := normalise_property p in
      Ok (PyDict.set (property_key ip.1) (prop.1 +:+ ":" +:+ prop.2) context)
  end.

Definition add_properties (props : list tuple) (context : PyDict.t)
  : result PyDict.t :=
  sorted_props ← sorted_tuples props;
  foldM add_property context (imap (λ idx p, (idx, p)) sorted_props).

(** The fallback on the less specific relation, from the elements in
    reverse sorted order. *)
Definition fallback_identifiers (elements : list tuple) (context : PyDict.t)
  : list tuple * PyDict.t :=
  let elements := if has (Some ("ncit", "C171133")) elements
                  then remove_first (Some ("ncit", "C171133")) elements
                  else elements in
  let '(elements, context) :=
    if has (Some ("ido", "0000569")) elements
    then (remove_first (Some ("ido", "0000569")) elements
            ++ [Some ("ido", "0000511")],
          PyDict.set "disease_status" "ncit:C3833" context)
    else if has (Some ("ido", "0000573")) elements
    then (remove_first (Some ("ido", "0000573")) elements
            ++ [Some ("ido", "0000511")],
          PyDict.set "disease_status" "ncit:C25269" context)
    else (elements, context) in
  if has (Some ("ido", "0000463")) elements then
    if has (Some ("ncit", "C49508")) elements
    then (remove_first (Some ("ncit", "C49508"))
            (remove_first (Some ("ido", "0000463")) elements),
          PyDict.set "transmissibility" "ncit:C49508" context)
    else if has (Some ("ncit", "C171549")) elements
    then (remove_first (Some ("ncit", "C171549"))
            (remove_first (Some ("ido", "0000463")) elements),
          PyDict.set "transmissibility" "ncit:C171549" context)
    else (elements, context)
  else (elements, context).

Section extract.

(** [Concept.get_curie] and the curated table [grounding_map], keyed by
    model identifier and species name. *)
Variable get_curie : concept → string * string.
Variable grounding_map : gmap (string * string) (PyDict.t * PyDict.t).

(** The name the species is known by. *)
Definition species_name (sp : species_node) : string :=
  if str_contains "(" (sn_name sp) then sn_id sp else sn_name sp.

Definition curated (sp : species_node) (model_id : option string)
  : option (PyDict.t * PyDict.t) :=
  match model_id with
  | Some mid => grounding_map !! (mid, species_name sp)
  | None => None
  end.

(** [_extract_concept] *)
Definition _extract_concept (sp : species_node) (units : option expr)
    (model_id : option string) : result concept :=
  match curated sp model_id with
  | Some (mapped_ids, mapped_context) =>
      Ok (Concept (species_name sp) mapped_ids mapped_context units)
  | None =>
      match sn_annotation sp with
      | None => Ok (Concept (species_name sp) [] [] units)
      | Some annotation_tree =>
          ann ← annotation_tree;
          rdf_properties ← read_items (ann_properties ann);
          identifiers_list ← read_items (ann_identifiers ann);
          let '(identifiers_list, context) :=
            clean_identifiers identifiers_list in
          if keys_repeat identifiers_list then Raise AssertionError
          else
            context ← add_properties rdf_properties context;
            '(elements, context) ←
              match identifiers_list with
              | [] =>
                  version ← read_items (ann_version ann);
                  elements ← reverse <$> sorted_tuples version;
                  Ok (fallback_identifiers elements context)
              | _ => Ok (identifiers_list, context)
              end;
            identifiers ← validated_identifiers elements;
            let identifiers :=
              match model_id with
              | Some mid =>
                  if str_truthy mid
                  then PyDict.set "biomodels.species"
                         (mid +:+ ":" +:+ sn_id sp) identifiers
                  else identifiers
              | None => identifiers
              end in
            Sbml.grounding_normalize get_curie
              (Concept (if str_truthy (species_name sp)
                        then species_name sp else sn_id sp)
                 identifiers context units)
      end
  end.

(** [_extract_concepts]: the dictionary of the concepts by species
    identifier. *)
Definition _extract_concepts (species : list species_node)
    (model_id : option string) : result (gmap string concept) :=
  foldM (λ concepts sp,
           c ← _extract_concept sp None model_id;
           Ok (<[sn_id sp := c]> concepts))
        ∅ species.

(** What a resolved item is read as. *)
Definition item_tuple (it : item) : tuple :=
  match it with
  | Curie p i => Some (p, i)
  | _ => None
  end.

Definition resolved (items : list item) : Prop :=
  Forall (λ it, ∃ p i, it = Curie p i) items.

(** A species whose annotation, if it has one, is parsed into a tree in
    which every item has a resource that the converter resolves. *)
Definition well_formed (sp : species_node) : Prop :=
  ∀ tree, sn_annotation sp = Some tree →
    ∃ ann, tree = Ok ann ∧ resolved (ann_properties ann) ∧
           resolved (ann_identifiers ann) ∧ resolved (ann_version ann).

(** The one way the extraction fails on such a species: no curated
    entry, and after the clean-up two identifiers of the annotation share
    a prefix. *)
Definition clashing (sp : species_node) (model_id : option string) : Prop :=
  curated sp model_id = None ∧
  ∃ ann, sn_annotation sp = Some (Ok ann) ∧
         ¬ NoDup (prefix_of <$>
                    (clean_identifiers
                       (item_tuple <$> ann_identifiers ann)).1).

(** A grounded concept: it has identifiers or context (section 3). *)
Definition grounded (c : concept) : Prop :=
  identifiers c ≠ [] ∨ context c ≠ [].

End extract.

End Extract.

(** ** The whole of [SbmlProcessor.extract_model] *)

Module Processor.
Import Sbml.

(** A species of the document. *)
Record species : Type := Species {
  sp_id : string;
  sp_name : string;
  sp_units : string;
  sp_initial_concentration : Q;
  sp_annotation : option (result Extract.annotation);
}.

(** What [_extract_concept] reads of a species. *)
Definition node (sp : species) : Extract.species_node :=
  Extract.SpeciesNode (sp_id sp) (sp_name sp) (sp_annotation sp).

(** The document.  The calls of [extract_model] that run in libSBML,
    lxml, bioregistry and the sympy parser are taken with what they come
    to on the document: a value, or the exception they raise.  A reaction
    is taken as the loop reads it, its kinetic law parsed and the
    assignment rules substituted, or as the exception that reading its
    kinetic law raises. *)
Record sbml_model : Type := SbmlModel {
  model_species : list species;
  model_parameters : list sbml_parameter;
  model_compartments : list compartment;
  model_reactions : list (result reaction);
  model_get_model_id : result (option string);  (* [get_model_id] *)
  model_get_annotations : result unit;          (* [get_model_annotations] *)
  model_function_definitions : result unit;     (* the loop over them *)
  model_rules : result unit;                    (* the loop over them *)
}.

(** [all_parameters]: the model parameters, then the compartment volumes
    written over them. *)
Definition all_parameters (m : sbml_model) : gmap string param_info :=
  foldl (λ acc c, <[comp_id c := ParamInfo (comp_volume c) (comp_name c)]> acc)
    (foldl (λ acc p, <[par_id p := ParamInfo (par_value p) (par_name p)]> acc)
       ∅ (model_parameters m))
    (model_compartments m).

Definition all_species (m : sbml_model) : gset string :=
  list_to_set (sp_id <$> model_species m).

(** The keys of [{x.id: … for x in xs}] in the order of the dictionary:
    every identifier at its first place. *)
Fixpoint dict_keys (ids : list string) : list string :=
  match ids with
  | [] => []
  | x :: ids' => x :: filter (λ y, y ≠ x) (dict_keys ids')
  end.

Definition compartment_symbols (m : sbml_model) : list string :=
  dict_keys (comp_id <$> model_compartments m).

Section extract_model.

Variable sympy : sympy_ops.
Variable get_curie : concept → string * string.
Variable grounding_map : gmap (string * string) (PyDict.t * PyDict.t).

(** [self.units], [self.model_id] and [self.reporter_ids] *)
Variable units : gmap string expr.
Variable model_id : option string.
Variable reporter_ids : gset string.

(** The loop over the reactions. *)
Definition reactions_loop (concepts : gmap string concept) (m : sbml_model)
  : result (list template) :=
  foldM (λ templates reaction,
           r ← reaction;
           ts ← reaction_templates sympy reporter_ids concepts
                  (all_parameters m) (all_species m)
                  (compartment_symbols m) r;
           Ok (templates ++ ts))
        [] (model_reactions m).

(** [extract_model].  The annotations that [get_model_annotations]
    returns go into the model as they are and are left out of
    [template_model]. *)
Definition extract_model (m : sbml_model) : result template_model :=
  model_id ← match model_id with
             | None => model_get_model_id m
             | Some mid => Ok (Some mid)
             end;
  _ ← model_get_annotations m;
  concepts ← Extract._extract_concepts get_curie grounding_map
                (node <$> model_species m) model_id;
  _ ← model_function_definitions m;
  species_units ←
    mapM_result (λ sp, match units !! sp_units sp with
                       | Some u => Ok u
                       | None => Raise (KeyError (sp_units sp))
                       end)
      (model_species m);
  _ ← model_rules m;
  templates ← reactions_loop concepts m;
  initials ← foldM (λ acc sp,
                      match concepts !! sp_id sp with
                      | Some c =>
                          Ok (<[sp_name sp :=
                                  mk_initial c (sp_initial_concentration sp)]>
                                acc)
                      | None => Raise (KeyError (sp_id sp))
                      end)
                   (∅ : gmap string initial) (model_species m);
  let param_objs :=
    map_imap (λ k v, Some (mk_parameter k (pi_value v)
                             (Some (pi_description v))))
      (all_parameters m) in
  replace_constant_concepts (TemplateModel templates param_objs initials).

(** The calls into the libraries return on the document, with [mid] for
    the model identifier, and every species has units that the document
    declares. *)
Definition library_calls_return (m : sbml_model) (mid : option string)
  : Prop :=
  match model_id with
  | None => model_get_model_id m
  | Some id => Ok (Some id)
  end = Ok mid ∧
  model_get_annotations m = Ok () ∧
  model_function_definitions m = Ok () ∧
  model_rules m = Ok () ∧
  ∀ sp, sp ∈ model_species m → is_Some (units !! sp_units sp).

End extract_model.

End Processor.

(** ** Sample inputs *)

Module Examples.

Definition susceptible : concept := Concept "S" [] [] None.
Definition infected : concept := Concept "I" [] [] None.

(** The rate law [k*S*I]. *)
Definition mass_action : expr :=
  Mul (Mul (Symbol "k") (Symbol "S")) (Symbol "I").

(** The infection of an SIR model: [S] turns into [I] under the control
    of [I]. *)
Definition infection : template :=
  Template ControlledConversion (Some susceptible) (Some infected)
    (Some infected) [] (Some mass_action).

Definition var_S : Modeling.variable :=
  Modeling.Variable_ "S" (Some "S") "" "" None.
Definition var_I : Modeling.variable :=
  Modeling.Variable_ "I" (Some "I") "" "" None.

Definition infection_model : Modeling.model :=
  Modeling.Model [("S", var_S); ("I", var_I)]
    [Modeling.Transition [var_S] [var_I] [var_I] infection
       "ControlledConversion"]
    [("k", Modeling.ModelParameter 1 None)].

(** An environmental factor that no reaction consumes or produces. *)
Definition climate : concept := Concept "C" [] [] None.

(** [k*S*I*C] *)
Definition forced_mass_action : expr := Mul mass_action (Symbol "C").

(** The infection under the joint control of the climate and of the
    infected population. *)
Definition grouped_infection : template :=
  Template GroupedControlledConversion (Some susceptible) (Some infected)
    None [climate; infected] (Some forced_mass_action).

Definition grouped_model : template_model :=
  TemplateModel [grouped_infection] ∅ ∅.

(** A reversible reaction [S <-> I] with the rate law [k*S]. *)
Definition reversible_reaction : Sbml.reaction :=
  Sbml.Reaction "r1" [] ["S"] ["I"] (Mul (Symbol "k") (Symbol "S")) true.

Definition sir_concepts : gmap string concept :=
  <["S" := susceptible]> (<["I" := infected]> ∅).

Definition sir_species : gset string := {[ "S"; "I" ]}.

(** A compartment [c] of volume 1 and the rate law [k*S*c**2], which is
    not linear in [c]. *)
Definition unit_volume : gmap string Sbml.param_info :=
  <["c" := Sbml.ParamInfo 1 "compartment"]> ∅.

Definition quadratic_law : expr :=
  Mul (Mul (Symbol "k") (Symbol "S")) (Pow (Symbol "c") (Number 2)).

(** A derivative that is good enough to run the importer on the samples:
    sums, products and numeral powers. *)
Fixpoint sample_diff (e : expr) (x : string) : expr :=
  match e with
  | Symbol y => if bool_decide (y = x) then Number 1 else Number 0
  | Number _ => Number 0
  | Add a b => Add (sample_diff a x) (sample_diff b x)
  | Mul a b => Add (Mul (sample_diff a x) b) (Mul a (sample_diff b x))
  | Pow a b => Mul (Mul b (Pow a (Add b (Number (-1))))) (sample_diff a x)
  end.

(** A quotient for the samples: the symbol is cancelled when it is the
    last factor of a product, alone or as a numeral power; any other
    quotient is left as the product with the inverse power. *)
Definition sample_truediv (e : expr) (x : string) : expr :=
  match e with
  | Mul a (Symbol y) =>
      if bool_decide (y = x) then a
      else Mul e (Pow (Symbol x) (Number (-1)))
  | Mul a (Pow (Symbol y) (Number n)) =>
      if bool_decide (y = x)
      then Mul a (if Qeq_bool (n - 1) 1 then Symbol y
                  else Pow (Symbol y) (Number (n - 1)))
      else Mul e (Pow (Symbol x) (Number (-1)))
  | _ => Mul e (Pow (Symbol x) (Number (-1)))
  end.

Definition sample_sympy : sympy_ops.
Proof.
  refine (SympyOps sample_diff sample_truediv _).
  intros e x. unfold free_symbols.
  destruct e as [y|q|a b|a b|a b]; simpl; try set_solver.
  destruct b as [y|q|b1 b2|b1 b2|b1 b2]; simpl; try set_solver.
  - destruct (bool_decide (y = x)); simpl; set_solver.
  - destruct b1 as [y|q|c1 c2|c1 c2|c1 c2]; simpl; try set_solver.
    destruct b2 as [y'|n|c1 c2|c1 c2|c1 c2]; simpl; try set_solver.
    destruct (bool_decide (y = x)); simpl; [|set_solver].
    destruct (Qeq_bool (n - 1) 1); simpl; set_solver.
Defined.

(** The conversion [S -> I] with the rate law [k*S*I] and no declared
    modifier. *)
Definition undeclared_infection : Sbml.reaction :=
  Sbml.Reaction "r1" [] ["S"] ["I"] mass_action false.

(** The infection [S -> I] with modifier [I] and the rate law [k*S*I], in
    a document whose species have no annotation. *)
Definition sir_model : Processor.sbml_model :=
  Processor.SbmlModel
    [Processor.Species "S" "S" "substance" 99 None;
     Processor.Species "I" "I" "substance" 1 None]
    [Sbml.SbmlParameter "k" 1 "k"] []
    [Ok (Sbml.Reaction "r1" ["I"] ["S"] ["I"] mass_action false)]
    (Ok None) (Ok ()) (Ok ()) (Ok ()).

Definition declared_units : gmap string expr :=
  <["substance" := Symbol "mole"]> ∅.

(** A reaction that turns an annotated species into itself under its own
    control; the same reaction on a species that has neither a name nor an
    annotation. *)
Definition self_loop_model (name : string)
    (annotation : option (result Extract.annotation))
  : Processor.sbml_model :=
  Processor.SbmlModel
    [Processor.Species "x" name "substance" 1 annotation]
    [Sbml.SbmlParameter "k" 1 "k"] []
    [Ok (Sbml.Reaction "r1" ["x"] ["x"] ["x"]
           (Mul (Mul (Symbol "k") (Symbol "x")) (Symbol "x")) false)]
    (Ok None) (Ok ()) (Ok ()) (Ok ()).

Definition nameless : concept := Concept "" [] [] None.

(** A stand-in for [Concept.get_curie]: the [ido] entry when there is one,
    else the first entry, else an empty prefix with the name. *)
Definition sample_curie (c : concept) : string * string :=
  match PyDict.get "ido" (identifiers c) with
  | Some v => ("ido", v)
  | None =>
      match identifiers c with
      | kv :: _ => kv
      | [] => ("", name c)
      end
  end.

(** An infected population curated with the IDO identifier under the NCIT
    prefix, and a deceased population with the redundant NCIT term. *)
Definition miscurated : concept :=
  Concept "I" [("ncit", "0000511")] [] None.
Definition deceased : concept :=
  Concept "D" [("ncit", "C168970")] [] None.

(** A bilayer document for the SIR model: the infection box consumes [S]
    and produces [I], the recovery box consumes [I] and produces [R]; the
    infection is wired to [S] and [I], the recovery to [I]. *)
Definition sir_bilayer : Bilayer.bilayer :=
  Bilayer.BilayerJson ["S"; "I"; "R"] 2
    [(1, 1); (2, 2)]%Z [(1, 2); (2, 3)]%Z [(1, 1); (1, 2); (2, 2)]%Z.

(** Deaths counted in a cumulative species, a birth, a reaction with two
    reactants, and a conversion in a compartment of volume 2. *)
Definition death_reaction : Sbml.reaction :=
  Sbml.Reaction "death" [] ["I"] ["cumulative_D"]
    (Mul (Symbol "d") (Symbol "I")) false.

Definition birth_reaction : Sbml.reaction :=
  Sbml.Reaction "birth" [] [] ["S"] (Symbol "b") false.

Definition two_reactants : Sbml.reaction :=
  Sbml.Reaction "r2" [] ["S"; "I"] ["I"] mass_action false.

Definition double_volume : gmap string Sbml.param_info :=
  <["c" := Sbml.ParamInfo 2 "compartment"]> ∅.

Definition diluted_infection : Sbml.reaction :=
  Sbml.Reaction "r3" [] ["S"] ["I"] (Mul mass_action (Symbol "c")) false.



(** Two annotated species of a BioModels document, an infected population
    whose IDO identifier stands under the NCIT prefix and a deceased
    population, and a table without curated groundings. *)
Definition infected_species : Extract.species_node :=
  Extract.SpeciesNode "species_2" "Infected"
    (Some (Ok (Extract.Annotation [] [Extract.Curie "ncit" "0000511"] []))).

Definition deceased_species : Extract.species_node :=
  Extract.SpeciesNode "species_5" "Deceased"
    (Some (Ok (Extract.Annotation [] [Extract.Curie "ncit" "C168970"] []))).

Definition no_groundings : gmap (string * string) (PyDict.t * PyDict.t) := ∅.

End Examples.


(** * Properties *)

(** ** The error monad *)

Lemma bind_Ok {A B} (m : result A) (f : A → result B) (b : B) :
  m ≫= f = Ok b → ∃ a, m = Ok a ∧ f a = Ok b.
Proof. destruct m as [a|e]; [eauto | discriminate]. Qed.

Lemma bind_Ok_l {A B} (a : A) (f : A → result B) : Ok a ≫= f = f a.
Proof. reflexivity. Qed.

Lemma foldM_app {A S} (body : S → A → result S) (s : S) (xs ys : list A) :
  foldM body s (xs ++ ys) = foldM body s xs ≫= λ s', foldM body s' ys.
Proof.
  revert s. induction xs as [|x xs IH]; intros s; simpl; [done|].
  destruct (body s x) as [s'|e]; simpl; [apply IH | done].
Qed.

Lemma mapM_result_Ok_length {A B} (f : A → result B) xs ys :
  mapM_result f xs = Ok ys → length ys = length xs.
Proof.
  revert ys. induction xs as [|x xs IH]; intros ys; simpl.
  - by intros [= <-].
  - destruct (f x) as [y|]; [|done]. simpl.
    destruct (mapM_result f xs) as [ys'|]; [|done]. simpl.
    intros [= <-]. simpl. f_equal. by apply IH.
Qed.

Lemma mapM_result_Ok_lookup {A B} (f : A → result B) xs ys i x :
  mapM_result f xs = Ok ys → xs !! i = Some x →
  ∃ y, ys !! i = Some y ∧ f x = Ok y.
Proof.
  revert ys i. induction xs as [|x0 xs IH]; intros ys i; simpl; [done|].
  destruct (f x0) as [y0|] eqn:Hf; [|done]. simpl.
  destruct (mapM_result f xs) as [ys'|]; [|done]. simpl.
  intros [= <-]. destruct i as [|i]; simpl.
  - intros [= <-]. eauto.
  - intros Hx. by apply IH.
Qed.

Lemma mapM_result_Ok_elem {A B} (f : A → result B) xs ys y :
  mapM_result f xs = Ok ys → y ∈ ys → ∃ x, x ∈ xs ∧ f x = Ok y.
Proof.
  revert ys. induction xs as [|x0 xs IH]; intros ys; simpl.
  - intros [= <-] Hy. by apply elem_of_nil in Hy.
  - destruct (f x0) as [y0|] eqn:Hf; [|done]. simpl.
    destruct (mapM_result f xs) as [ys'|]; [|done]. simpl.
    intros [= <-] [->|Hy]%elem_of_cons.
    + exists x0. split; [left | done].
    + destruct (IH ys' eq_refl Hy) as (x & ? & ?).
      exists x. split; [by right | done].
Qed.

Lemma mapM_result_total {A B} (f : A → result B) xs :
  (∀ x, x ∈ xs → ∃ y, f x = Ok y) → ∃ ys, mapM_result f xs = Ok ys.
Proof.
  induction xs as [|x xs IH]; intros H; simpl; [eauto|].
  destruct (H x) as [y ->]; [left|]. simpl.
  destruct IH as [ys ->]; [|simpl; eauto].
  intros x' ?. apply H. by right.
Qed.

(** ** Bilayer boxes *)

Section bilayer_facts.
Import Bilayer.

(** What a box gives when it gives a template. *)
Lemma box_to_template_Ok (b : box) (t : template) :
  box_to_template b = Ok t →
  length (b_inputs b) ≤ 1 ∧ length (b_outputs b) ≤ 1 ∧
  cls t = shape_variant (has_input b) (has_output b)
            (length (b_controllers b)) ∧
  subject t = head (b_inputs b) ∧ outcome t = head (b_outputs b) ∧
  template_controllers t = b_controllers b ∧ rate_law t = None ∧
  roles_filled t = true.
Proof.
  unfold box_to_template, validated, has_input, has_output.
  destruct b as [ins outs ctl]; simpl.
  destruct ins as [|i [|i' ins]], outs as [|o [|o' outs]],
    ctl as [|c [|c' ctl]]; simpl; try done;
    intros [= <-]; simpl; by split_and!; try lia.
Qed.




(** A box with a controller and an output but no input gives no
    [ControlledProduction]: the constructor of [ControlledConversion]
    rejects it; and so does that of [NaturalProduction] for the empty
    box. *)
Lemma box_to_template_rejected (o c : concept) :
  box_to_template (Box [] [o] [c]) = Raise ValidationError ∧
  box_to_template (Box [] [] []) = Raise ValidationError.
Proof. by split. Qed.

(** A document with a single box, one consumption wire and one production
    wire gives a model with exactly one [NaturalConversion]. *)
Lemma single_box_document (qin : list string) (a b : nat) (va vb : string) :
  qin !! a = Some va → qin !! b = Some vb →
  template_model_from_bilayer
    (BilayerJson qin 1 [(1, Z.of_nat a + 1)%Z] [(1, Z.of_nat b + 1)%Z] []) =
  Ok (TemplateModel
        [Template NaturalConversion (Some (Concept va [] [] None))
           (Some (Concept vb [] [] None)) None [] None] ∅ ∅).
Proof.
  intros Ha Hb. unfold template_model_from_bilayer; simpl.
  unfold lookup_concept.
  rewrite !bool_decide_eq_true_2 by lia.
  replace (Z.to_nat (Z.of_nat a + 1 - 1)) with a by lia.
  replace (Z.to_nat (Z.of_nat b + 1 - 1)) with b by lia.
  rewrite Ha; simpl. rewrite Hb; simpl. done.
Qed.

End bilayer_facts.

(** ** Petri-net exporters *)

Section modeling_facts.
Import Modeling.

Lemma foldM_snoc {A B} (f : nat → A → result B) (xs : list A)
    (acc res : list B) :
  foldM (λ acc x, y ← f (length acc) x; Ok (acc ++ [y])) acc xs = Ok res →
  ∃ ys, res = acc ++ ys ∧ length ys = length xs ∧
    ∀ i x, xs !! i = Some x →
      ∃ y, ys !! i = Some y ∧ f (length acc + i) x = Ok y.
Proof.
  revert acc. induction xs as [|x xs IH]; intros acc; simpl.
  - intros [= <-]. exists []. rewrite app_nil_r. by split_and!.
  - destruct (f (length acc) x) as [y|] eqn:Hf; [|done]. simpl.
    intros (ys & -> & Hlen & Hys)%IH.
    exists (y :: ys). split_and!.
    + by rewrite <- app_assoc.
    + simpl. by rewrite Hlen.
    + intros [|i] x'; simpl.
      * intros [= <-]. exists y. by rewrite Nat.add_0_r.
      * intros Hx. destruct (Hys i x' Hx) as (y' & ? & Hy').
        exists y'. split; [done|].
        rewrite length_app in Hy'. simpl in Hy'.
        by replace (length acc + S i) with (length acc + 1 + i) by lia.
Qed.

Lemma handles_elem {H} (vmap : gmap string H) (vs : list variable)
    (hs : list H) :
  mapM_result (λ c, getitem vmap (v_key c)) vs = Ok hs →
  (∀ v, v ∈ vs → ∃ h, handle vmap v = Some h ∧ h ∈ hs) ∧
  (∀ h, h ∈ hs → ∃ v, v ∈ vs ∧ handle vmap v = Some h).
Proof.
  intros Hm. split.
  - intros v [i Hi]%list_elem_of_lookup.
    destruct (mapM_result_Ok_lookup _ _ _ _ _ Hm Hi) as (h & Hh & Hg).
    exists h. split; [|by eapply list_elem_of_lookup_2].
    unfold getitem in Hg. unfold handle.
    by destruct (vmap !! v_key v); simplify_eq.
  - intros h Hh.
    destruct (mapM_result_Ok_elem _ _ _ _ Hm Hh) as (v & Hv & Hg).
    exists v. split; [done|].
    unfold getitem in Hg. unfold handle.
    by destruct (vmap !! v_key v); simplify_eq.
Qed.

Lemma consume_and_replenish_app {H} (vmap : gmap string H) (tr : transition)
    (ctl cons prod : list H) :
  mapM_result (λ c, getitem vmap (v_key c)) (t_control tr) = Ok ctl →
  mapM_result (λ c, getitem vmap (v_key c)) (t_consumed tr) = Ok cons →
  mapM_result (λ c, getitem vmap (v_key c)) (t_produced tr) = Ok prod →
  consume_and_replenish vmap tr (ctl ++ cons) (ctl ++ prod).
Proof.
  intros [Hc1 Hc2]%handles_elem [Hs1 Hs2]%handles_elem [Hp1 Hp2]%handles_elem.
  unfold consume_and_replenish. split_and!.
  - intros c (h & ? & ?)%Hc1. exists h. rewrite !elem_of_app. auto.
  - intros s (h & ? & ?)%Hs1. exists h. rewrite !elem_of_app. auto.
  - intros p (h & ? & ?)%Hp1. exists h. rewrite !elem_of_app. auto.
  - intros h [(v & ? & ?)%Hc2 | (v & ? & ?)%Hs2]%elem_of_app;
      exists v; rewrite elem_of_app; auto.
  - intros h [(v & ? & ?)%Hc2 | (v & ? & ?)%Hp2]%elem_of_app;
      exists v; rewrite elem_of_app; auto.
Qed.

Lemma askenet_export_transition (vmap : gmap string string) (idx : nat)
    (tr : transition) (td : transition_dict) :
  AskeNet.export_transition vmap idx tr = Ok td →
  td_id td = idx + 1 ∧
  consume_and_replenish vmap tr (td_input td) (td_output td).
Proof.
  unfold AskeNet.export_transition.
  intros (ctl & Hc & (cons & Hs & (prod & Hp & [= <-])%bind_Ok)%bind_Ok)%bind_Ok.
  split; [done|]. simpl. by apply consume_and_replenish_app.
Qed.

Lemma askenet_init_inv (m : model) (self : obj) :
  AskeNet.init m = Ok self →
  ∃ tds,
    AskeNet.transitions_loop (AskeNet.states_loop m).1 (transitions m) = Ok tds ∧
    self = <["parameters" := VParameters (AskeNet.parameters_loop m)]>
             (<["transitions" := VTransitions tds]>
                (<["states" := VStates (AskeNet.states_loop m).2]>
                   (<["parameters" := VParameters []]>
                      (<["transitions" := VTransitions []]>
                         (<["states" := VStates []]> ∅))))).
Proof.
  unfold AskeNet.init, setattr.
  destruct (AskeNet.states_loop m) as [vmap states]. simpl.
  intros (tds & Htds & [= <-])%bind_Ok. eauto.
Qed.

(** C9: an [AskeNetPetriNetModel] that was constructed has no [inputs]
    attribute, so [to_json] raises [AttributeError] when it reads it, and
    [to_pydantic], [to_json_str] and [to_json_file], which start by calling
    [to_json], raise the same error whatever the serialiser. *)
Theorem askenet_to_json_raises (m : model) (self : obj) :
  AskeNet.init m = Ok self →
  AskeNet.to_json self = Raise (AttributeError "inputs") ∧
  (∀ Spec (ModelSpecification : list (string * pyval) → result Spec),
     AskeNet.to_pydantic ModelSpecification self =
       Raise (AttributeError "inputs")) ∧
  (∀ Str (dumps : list (string * pyval) → Str),
     AskeNet.to_json_str dumps self = Raise (AttributeError "inputs")) ∧
  (∀ File (dump : list (string * pyval) → string → File) fname,
     AskeNet.to_json_file dump self fname = Raise (AttributeError "inputs")).
Proof.
  intros (tds & _ & ->)%askenet_init_inv.
  assert (AskeNet.to_json
            (<["parameters" := VParameters (AskeNet.parameters_loop m)]>
               (<["transitions" := VTransitions tds]>
                  (<["states" := VStates (AskeNet.states_loop m).2]>
                     (<["parameters" := VParameters []]>
                        (<["transitions" := VTransitions []]>
                           (<["states" := VStates []]> ∅))))))
          = Raise (AttributeError "inputs")) as Hjs.
  { unfold AskeNet.to_json, getattr. by simplify_map_eq. }
  unfold AskeNet.to_pydantic, AskeNet.to_json_str, AskeNet.to_json_file.
  rewrite Hjs. by split_and!.
Qed.

Lemma askenet_to_json_raises_witness :
  ∃ self, Modeling.AskeNet.init Examples.infection_model = Ok self ∧
          Modeling.AskeNet.to_json self = Raise (AttributeError "inputs").
Proof.
  eexists. split; [reflexivity|].
  apply (askenet_to_json_raises Examples.infection_model). reflexivity.
Defined.

(** The other exporter assigns every attribute it later reads. *)
Lemma petri_to_json_returns (m : model) (self : obj) :
  Petri.init m = Ok self → is_ok (Petri.to_json self) = true.
Proof.
  unfold Petri.init, setattr.
  intros ([[tds ins] outs] & _ & [= <-])%bind_Ok.
  unfold Petri.to_json, getattr. by simplify_map_eq.
Qed.

Lemma arcs_of_app (n : nat) (l1 l2 : list arc) :
  Petri.arcs_of n (l1 ++ l2) = Petri.arcs_of n l1 ++ Petri.arcs_of n l2.
Proof. unfold Petri.arcs_of. by rewrite filter_app, fmap_app. Qed.

Lemma arcs_of_same (n : nat) (hs : list nat) :
  Petri.arcs_of n ((λ s, Arc s n) <$> hs) = hs.
Proof.
  unfold Petri.arcs_of. induction hs as [|h hs IH]; [done|].
  rewrite fmap_cons, filter_cons_True by done.
  rewrite fmap_cons. simpl. by f_equal.
Qed.

Lemma arcs_of_other (n : nat) (l : list arc) :
  (∀ a, a ∈ l → arc_transition a ≠ n) → Petri.arcs_of n l = [].
Proof.
  unfold Petri.arcs_of. induction l as [|a l IH]; intros H; [done|].
  rewrite filter_cons_False by (apply H; left).
  apply IH. intros a' ?. apply H. by right.
Qed.

Lemma petri_export_arcs (vmap : gmap string nat) (idx : nat) (tr : transition)
    (ins outs : list arc) :
  Petri.export_arcs vmap idx tr = Ok (ins, outs) →
  (∀ a, a ∈ ins ++ outs → arc_transition a = idx + 1) ∧
  consume_and_replenish vmap tr (Petri.arcs_of (idx + 1) ins)
    (Petri.arcs_of (idx + 1) outs).
Proof.
  unfold Petri.export_arcs.
  intros (ctl & Hc & (cons & Hs & (prod & Hp & [= <- <-])%bind_Ok)%bind_Ok)
    %bind_Ok.
  split.
  - intros a. rewrite !elem_of_app, !list_elem_of_fmap.
    intros [[(? & -> & _)|(? & -> & _)]|[(? & -> & _)|(? & -> & _)]]; done.
  - rewrite !arcs_of_app, !arcs_of_same. by apply consume_and_replenish_app.
Qed.

Lemma mapM_handles {H} (vmap : gmap string H) (vs : list variable)
    (hs : list H) :
  mapM_result (λ c, getitem vmap (v_key c)) vs = Ok hs → handles vmap vs hs.
Proof.
  unfold handles. revert hs. induction vs as [|v vs IH]; intros hs; simpl.
  - intros [= <-]. constructor.
  - intros (h & Hh & (hs' & Hhs & [= <-])%bind_Ok)%bind_Ok.
    constructor; [|by apply IH].
    unfold getitem in Hh. unfold handle.
    by destruct (vmap !! v_key v); simplify_eq.
Qed.

Lemma listed_by_roles_consume_and_replenish {H} (vmap : gmap string H)
    (tr : transition) (ins outs : list H) :
  listed_by_roles vmap tr ins outs → consume_and_replenish vmap tr ins outs.
Proof.
  intros (ctl & cons & prod & Hc & Hs & Hp & -> & ->).
  unfold handles in *. unfold consume_and_replenish.
  assert (∀ vs (hs : list H),
            Forall2 (λ v h, handle vmap v = Some h) vs hs →
            (∀ v, v ∈ vs → ∃ h, handle vmap v = Some h ∧ h ∈ hs) ∧
            (∀ h, h ∈ hs → ∃ v, v ∈ vs ∧ handle vmap v = Some h)) as Hboth.
  { intros vs hs HF. split.
    - intros v [i Hi]%list_elem_of_lookup.
      destruct (Forall2_lookup_l _ _ _ _ _ HF Hi) as (h & Hh & ?).
      exists h. split; [done | by eapply list_elem_of_lookup_2].
    - intros h [i Hi]%list_elem_of_lookup.
      destruct (Forall2_lookup_r _ _ _ _ _ HF Hi) as (v & Hv & ?).
      exists v. split; [by eapply list_elem_of_lookup_2 | done]. }
  destruct (Hboth _ _ Hc) as [Hc1 Hc2].
  destruct (Hboth _ _ Hs) as [Hs1 Hs2].
  destruct (Hboth _ _ Hp) as [Hp1 Hp2].
  split_and!.
  - intros c (h & ? & ?)%Hc1. exists h. rewrite !elem_of_app. auto.
  - intros x (h & ? & ?)%Hs1. exists h. rewrite !elem_of_app. auto.
  - intros p (h & ? & ?)%Hp1. exists h. rewrite !elem_of_app. auto.
  - intros h [(v & ? & ?)%Hc2 | (v & ? & ?)%Hs2]%elem_of_app;
      exists v; rewrite elem_of_app; auto.
  - intros h [(v & ? & ?)%Hc2 | (v & ? & ?)%Hp2]%elem_of_app;
      exists v; rewrite elem_of_app; auto.
Qed.

Lemma askenet_export_roles (vmap : gmap string string) (idx : nat)
    (tr : transition) (td : transition_dict) :
  AskeNet.export_transition vmap idx tr = Ok td →
  td_id td = idx + 1 ∧
  listed_by_roles vmap tr (td_input td) (td_output td).
Proof.
  unfold AskeNet.export_transition.
  intros (ctl & Hc & (cons & Hs & (prod & Hp & [= <-])%bind_Ok)%bind_Ok)%bind_Ok.
  split; [done|]. simpl. exists ctl, cons, prod.
  split_and!; try done; by apply mapM_handles.
Qed.

Lemma petri_export_roles (vmap : gmap string nat) (idx : nat) (tr : transition)
    (ins outs : list arc) :
  Petri.export_arcs vmap idx tr = Ok (ins, outs) →
  (∀ a, a ∈ ins ++ outs → arc_transition a = idx + 1) ∧
  listed_by_roles vmap tr (Petri.arcs_of (idx + 1) ins)
    (Petri.arcs_of (idx + 1) outs).
Proof.
  intros He. split; [by apply (petri_export_arcs _ _ _ _ _ He)|].
  revert He. unfold Petri.export_arcs.
  intros (ctl & Hc & (cons & Hs & (prod & Hp & [= <- <-])%bind_Ok)%bind_Ok)
    %bind_Ok.
  rewrite !arcs_of_app, !arcs_of_same. exists ctl, cons, prod.
  split_and!; try done; by apply mapM_handles.
Qed.

Lemma petri_transitions_loop (vmap : gmap string nat) (trs : list transition)
    (tds0 : list transition_dict) (ins0 outs0 : list arc) tds ins outs :
  foldM (λ '(tds, inputs, outputs) tr,
           let idx := length tds in
           '(ins, outs) ← Petri.export_arcs vmap idx tr;
           Ok (tds ++ [TransitionDict (idx + 1) [] []
                         (rate_law (t_template tr))],
               inputs ++ ins, outputs ++ outs))
        (tds0, ins0, outs0) trs = Ok (tds, ins, outs) →
  ∃ ins' outs',
    ins = ins0 ++ ins' ∧ outs = outs0 ++ outs' ∧
    length tds = length tds0 + length trs ∧
    (∀ a, a ∈ ins' ++ outs' → length tds0 < arc_transition a) ∧
    ∀ i tr, trs !! i = Some tr →
      listed_by_roles vmap tr
        (Petri.arcs_of (length tds0 + i + 1) ins')
        (Petri.arcs_of (length tds0 + i + 1) outs').
Proof.
  revert tds0 ins0 outs0.
  induction trs as [|tr trs IH]; intros tds0 ins0 outs0; simpl.
  - intros [= <- <- <-]. exists [], []. rewrite !app_nil_r.
    split_and!; try done; try lia. intros a Ha. by apply elem_of_nil in Ha.
  - destruct (Petri.export_arcs vmap (length tds0) tr) as [[i1 o1]|] eqn:He;
      [|done]. simpl.
    apply petri_export_roles in He as [Harc Hcr].
    intros (ins' & outs' & -> & -> & Hlen & Hgt & Hrest)%IH.
    rewrite length_app in Hlen, Hgt, Hrest. simpl in Hlen, Hgt, Hrest.
    exists (i1 ++ ins'), (o1 ++ outs'). split_and!.
    + by rewrite <- app_assoc.
    + by rewrite <- app_assoc.
    + lia.
    + intros a Ha.
      assert (a ∈ i1 ++ o1 ∨ a ∈ ins' ++ outs') as [H1|H2]
        by (revert Ha; rewrite !elem_of_app; tauto).
      * rewrite (Harc a H1). lia.
      * specialize (Hgt a H2). lia.
    + intros [|i] tr'; simpl.
      * intros [= <-]. rewrite Nat.add_0_r, !arcs_of_app.
        rewrite (arcs_of_other _ ins'), (arcs_of_other _ outs'), !app_nil_r;
          [done| |];
          intros a Ha Heq;
          (assert (a ∈ ins' ++ outs') as Hin
             by (rewrite elem_of_app; auto));
          specialize (Hgt a Hin); lia.
      * intros Htr. specialize (Hrest i tr' Htr).
        replace (length tds0 + S i + 1) with (length tds0 + 1 + i + 1) by lia.
        rewrite !arcs_of_app.
        rewrite (arcs_of_other _ i1), (arcs_of_other _ o1); [done| |];
          intros a Ha Heq;
          (assert (a ∈ i1 ++ o1) as Hin by (rewrite elem_of_app; auto));
          specialize (Harc a Hin); lia.
Qed.

(** C8: in both exporters the lists of every exported transition are built
    role by role.  The input list is the handles of the controllers
    followed by those of the consumed variables, the output list the
    handles of the controllers followed by those of the produced
    variables: every controller is listed on both sides, the subject is
    listed as such among the inputs only and the outcome as such among the
    outputs only.  [PetriNetModel] keeps the lists as the arcs of the
    transition. *)
Theorem exporters_consume_and_replenish (m : model) :
  (∀ self, AskeNet.init m = Ok self →
     ∃ tds, self !! "transitions" = Some (VTransitions tds) ∧
       length tds = length (transitions m) ∧
       ∀ i tr, transitions m !! i = Some tr →
         ∃ td, tds !! i = Some td ∧ td_id td = i + 1 ∧
           listed_by_roles (AskeNet.states_loop m).1 tr
             (td_input td) (td_output td)) ∧
  (∀ self, Petri.init m = Ok self →
     ∃ tds ins outs,
       self !! "transitions" = Some (VTransitions tds) ∧
       self !! "inputs" = Some (VArcs ins) ∧
       self !! "outputs" = Some (VArcs outs) ∧
       length tds = length (transitions m) ∧
       ∀ i tr, transitions m !! i = Some tr →
         listed_by_roles (Petri.make_vmap m) tr
           (Petri.arcs_of (i + 1) ins) (Petri.arcs_of (i + 1) outs)).
Proof.
  split.
  - intros self (tds & Hloop & ->)%askenet_init_inv.
    exists tds. split; [by simplify_map_eq|].
    unfold AskeNet.transitions_loop in Hloop.
    apply (foldM_snoc (AskeNet.export_transition _)) in Hloop
      as (ys & -> & Hlen & Hys).
    split; [done|]. intros i tr Htr.
    destruct (Hys i tr Htr) as (td & Htd & Hex). simpl in *.
    apply askenet_export_roles in Hex as [? ?].
    exists td. by split_and!.
  - intros self. unfold Petri.init, setattr.
    intros ([[tds ins] outs] & Hloop & [= <-])%bind_Ok.
    exists tds, ins, outs.
    split_and!; try by simplify_map_eq.
    + apply petri_transitions_loop in Hloop as (? & ? & _ & _ & Hlen & _).
      done.
    + intros i tr Htr.
      apply petri_transitions_loop in Hloop
        as (ins' & outs' & -> & -> & _ & _ & Hall).
      apply (Hall i tr Htr).
Qed.

Lemma exporters_consume_and_replenish_witness :
  ∃ td, Modeling.td_input td = ["I"; "S"] ∧ Modeling.td_output td = ["I"; "I"] ∧
        Modeling.listed_by_roles
          (Modeling.AskeNet.states_loop Examples.infection_model).1
          (Modeling.Transition [Examples.var_S] [Examples.var_I]
             [Examples.var_I] Examples.infection "ControlledConversion")
          (Modeling.td_input td) (Modeling.td_output td).
Proof.
  destruct (proj1 (exporters_consume_and_replenish Examples.infection_model)
              _ eq_refl) as (tds & Htds & _ & H).
  destruct (H 0 _ eq_refl) as (td & Htd & _ & Hcr).
  exists td. vm_compute in Htds. injection Htds as <-.
  vm_compute in Htd. injection Htd as <-.
  split_and!; [reflexivity | reflexivity | exact Hcr].
Defined.

End modeling_facts.

(** ** Reaction networks: the loop over the reactions *)

Section sbml_reaction_facts.
Import Sbml.

Variable sympy : sympy_ops.
Variable reporter_ids : gset string.
Variable concepts : gmap string concept.
Variable params : gmap string param_info.
Variable species_ids : gset string.

Lemma conversion_length (rs ps ms : list concept) (e : expr) (ts : list template) :
  conversion rs ps ms e = Appended ts →
  length (ts ++ production_or_degradation rs ps ms e) ≤ 1.
Proof.
  unfold conversion, production_or_degradation.
  destruct rs as [|r0 [|r1 rs]], ps as [|p0 [|p1 ps]]; simpl;
    try (intros [= <-]; simpl; repeat case_match; simpl; lia).
  destruct (str_truthy (name r0) && concept_eqb r0 p0); [done|].
  destruct ms as [|m0 [|m1 ms]]; intros [= <-]; simpl; lia.
Qed.

(** The [reversible] attribute of a reaction is never read. *)
Lemma reversible_ignored (comps : list string) (id : string)
    (ms rs ps : list string) (kl : expr) (b1 b2 : bool) :
  reaction_templates sympy reporter_ids concepts params species_ids comps
    (Reaction id ms rs ps kl b1) =
  reaction_templates sympy reporter_ids concepts params species_ids comps
    (Reaction id ms rs ps kl b2).
Proof. reflexivity. Qed.

(** C6: a reaction, reversible or not, appends one template at most, so a
    reversible reaction is never split into a forward and a backward
    template. *)
Theorem reversible_reaction_one_template (comps : list string) (r : reaction)
    (ts : list template) :
  reversible r = true →
  reaction_templates sympy reporter_ids concepts params species_ids comps r
    = Ok ts →
  length ts ≤ 1.
Proof.
  intros _. unfold reaction_templates.
  intros (e & _ & (ms & _ & (rs & _ & (ps & _ & H)%bind_Ok)%bind_Ok)%bind_Ok)
    %bind_Ok.
  destruct (conversion rs ps ms e) as [|ts'] eqn:Hc.
  - injection H as <-. simpl. lia.
  - injection H as <-. by eapply conversion_length.
Qed.

(** The test on the derivative never fails: a compound expression is not a
    member of a set of symbols. *)
Lemma linearity_test_compound (e : expr) (X : gset string) :
  (∀ x, e ≠ Symbol x) → expr_in_symbols e X = false.
Proof. destruct e as [y| | | |]; try done. intros H. by destruct (H y). Qed.

(** C7: when the rate law is a compound expression in which the
    compartment symbol occurs and the volume is 1, the importer divides
    the law by the symbol whether the law is linear in the symbol or not:
    the test on the derivative never fails.  For a law that is linear the
    specification asks for the same quotient; for a law that is not
    linear it asks for the literal substitution, which the importer does
    not perform. *)
Theorem unit_compartment_always_divided (rate_expr : expr) (comp : string)
    (info : param_info) :
  (∀ x, rate_expr ≠ Symbol x) →
  comp ∈ free_symbols rate_expr →
  params !! comp = Some info →
  Qeq_bool (pi_value info) 1 = true →
  substitute_compartment sympy params rate_expr comp
    = Ok (truediv sympy rate_expr comp) ∧
  (linear_in sympy rate_expr comp = true →
   spec_substitute_compartment sympy params rate_expr comp
     = Ok (truediv sympy rate_expr comp)) ∧
  (linear_in sympy rate_expr comp = false →
   spec_substitute_compartment sympy params rate_expr comp
     = Ok (subs comp (pi_value info) rate_expr)).
Proof.
  intros Hcompound Hin Hpar Hone.
  unfold substitute_compartment, spec_substitute_compartment.
  rewrite Hpar, bool_decide_eq_true_2 by done.
  rewrite linearity_test_compound by done. simpl. rewrite Hone.
  split_and!; [done | by intros -> | by intros ->].
Qed.

End sbml_reaction_facts.

Lemma reversible_reaction_one_template_witness :
  Sbml.reaction_templates Examples.sample_sympy ∅ Examples.sir_concepts ∅
    Examples.sir_species [] Examples.reversible_reaction
  = Ok [Template NaturalConversion (Some Examples.susceptible)
          (Some Examples.infected) None []
          (Some (Mul (Symbol "k") (Symbol "S")))] ∧
  length [Template NaturalConversion (Some Examples.susceptible)
            (Some Examples.infected) None []
            (Some (Mul (Symbol "k") (Symbol "S")))] ≤ 1.
Proof.
  assert (Sbml.reaction_templates Examples.sample_sympy ∅
            Examples.sir_concepts ∅ Examples.sir_species []
            Examples.reversible_reaction
          = Ok [Template NaturalConversion (Some Examples.susceptible)
                  (Some Examples.infected) None []
                  (Some (Mul (Symbol "k") (Symbol "S")))]) as H
    by (vm_compute; reflexivity).
  split; [exact H|].
  exact (reversible_reaction_one_template Examples.sample_sympy ∅
           Examples.sir_concepts ∅ Examples.sir_species []
           Examples.reversible_reaction _ eq_refl H).
Defined.

Lemma unit_compartment_always_divided_witness :
  Sbml.substitute_compartment Examples.sample_sympy Examples.unit_volume
    Examples.quadratic_law "c"
  = Ok (Mul (Mul (Symbol "k") (Symbol "S")) (Symbol "c")) ∧
  Sbml.spec_substitute_compartment Examples.sample_sympy Examples.unit_volume
    Examples.quadratic_law "c"
  = Ok (subs "c" 1 Examples.quadratic_law).
Proof.
  destruct (unit_compartment_always_divided Examples.sample_sympy
              Examples.unit_volume Examples.quadratic_law "c"
              (Sbml.ParamInfo 1 "compartment")) as (Hcode & _ & Hspec).
  - intros x. discriminate.
  - vm_compute. reflexivity.
  - reflexivity.
  - reflexivity.
  - split; [exact Hcode | apply Hspec; vm_compute; reflexivity].
Defined.

(** At the sample the literal substitution removes the symbol; the
    importer keeps it. *)
Lemma quadratic_law_not_substituted :
  Sbml.substitute_compartment Examples.sample_sympy Examples.unit_volume
    Examples.quadratic_law "c"
  ≠ Ok (subs "c" 1 Examples.quadratic_law) ∧
  "c" ∉ free_symbols (subs "c" 1 Examples.quadratic_law).
Proof.
  split.
  - vm_compute. discriminate.
  - vm_compute. intros H. discriminate H.
Qed.

(** ** Constant-concept elimination *)

Section elimination_facts.
Import Sbml.

(** A [ControlledConversion] whose controller is eliminated becomes the
    [NaturalConversion] of the same subject and outcome, with the value in
    place of the symbol. *)
Lemma controlled_conversion_eliminated (s o : option concept) (c : concept)
    (rl : expr) (v : Q) :
  replace_controller_by_constant
    (Template ControlledConversion s o (Some c) [] (Some rl)) (name c) v
  = Ok (Some (Template NaturalConversion s o None []
                (Some (subs (name c) v rl)))).
Proof.
  unfold replace_controller_by_constant. simpl.
  by rewrite bool_decide_eq_true_2.
Qed.

(** A grouped conversion with more than two controllers loses the
    controllers of the given name. *)
Lemma grouped_conversion_filtered (s o : option concept)
    (cs : list concept) (rl : expr) (nm : string) (v : Q) :
  2 < length cs →
  replace_controller_by_constant
    (Template GroupedControlledConversion s o None cs (Some rl)) nm v
  = Ok (Some (Template GroupedControlledConversion s o None
                (filter (λ c, name c ≠ nm) cs) (Some (subs nm v rl)))).
Proof.
  intros H. unfold replace_controller_by_constant. simpl.
  by rewrite bool_decide_eq_true_2.
Qed.

(** C3: a grouped conversion with two controllers is rewritten to a
    [ControlledConversion] that keeps the first controller of the list,
    whichever name is eliminated; on the sample, where the first
    controller is the constant one, the eliminated controller stays and
    the remaining one is lost. *)
Theorem grouped_pair_keeps_first_controller :
  (∀ (s o : option concept) (c0 c1 : concept) (rl : expr) (nm : string)
     (v : Q),
     replace_controller_by_constant
       (Template GroupedControlledConversion s o None [c0; c1] (Some rl)) nm v
     = Ok (Some (Template ControlledConversion s o (Some c0) []
                   (Some (subs nm v rl))))) ∧
  elements <$> find_constant_concepts Examples.grouped_model = Ok ["C"] ∧
  templates <$> replace_constant_concepts Examples.grouped_model
  = Ok [Template ControlledConversion (Some Examples.susceptible)
          (Some Examples.infected) (Some Examples.climate) []
          (Some (Mul Examples.mass_action (Number 1)))].
Proof.
  split_and!.
  - reflexivity.
  - vm_compute. reflexivity.
  - vm_compute. reflexivity.
Qed.

(** C4: on the sample a second pass changes the model again: the first
    pass leaves the constant concept as the controller, the second pass
    removes it. *)
Theorem elimination_not_idempotent :
  ∃ tm1 tm2,
    replace_constant_concepts Examples.grouped_model = Ok tm1 ∧
    replace_constant_concepts tm1 = Ok tm2 ∧
    templates tm1
    = [Template ControlledConversion (Some Examples.susceptible)
         (Some Examples.infected) (Some Examples.climate) []
         (Some (Mul Examples.mass_action (Number 1)))] ∧
    templates tm2
    = [Template NaturalConversion (Some Examples.susceptible)
         (Some Examples.infected) None []
         (Some (Mul Examples.mass_action (Number 1)))] ∧
    tm2 ≠ tm1.
Proof.
  destruct (replace_constant_concepts Examples.grouped_model) as [tm1|]
    eqn:H1; [|by vm_compute in H1].
  destruct (replace_constant_concepts tm1) as [tm2|] eqn:H2.
  - exists tm1, tm2.
    vm_compute in H1. injection H1 as <-.
    vm_compute in H2. injection H2 as <-.
    split_and!; try reflexivity. discriminate.
  - vm_compute in H1. injection H1 as <-. by vm_compute in H2.
Qed.

(** The controllers of a template never grow in number. *)
Lemma replace_controller_count (t t' : template) (nm : string) (v : Q) :
  replace_controller_by_constant t nm v = Ok (Some t') →
  controller_count t' ≤ controller_count t.
Proof.
  unfold replace_controller_by_constant, controller_count, subs_rate_law.
  destruct t as [c s o ctl ctls rl]; simpl.
  destruct c; try done.
  - destruct ctl as [c0|]; [|done]. case_bool_decide; [|done].
    destruct rl; [|done]. simpl. intros [= <-]. simpl. lia.
  - case_bool_decide.
    + destruct rl; [|done]. simpl. intros [= <-]. simpl.
      pose proof (length_filter (λ c, name c ≠ nm) ctls). lia.
    + destruct ctls as [|c0 ctls]; [done|].
      destruct rl; [|done]. simpl. intros [= <-]. simpl. lia.
Qed.

Lemma replace_constant_concept_count (tm tm' : template_model) (c : string) :
  replace_constant_concept tm c = Ok tm' →
  Forall2 (λ t t', controller_count t' ≤ controller_count t)
    (templates tm) (templates tm').
Proof.
  unfold replace_constant_concept.
  intros (ts & Hts & [= <-])%bind_Ok. simpl.
  revert ts Hts. induction (templates tm) as [|t l IH]; intros ts; simpl.
  - intros [= <-]. constructor.
  - intros (t' & Ht' & (ts' & Hts' & [= <-])%bind_Ok)%bind_Ok.
    constructor; [|by apply IH].
    apply bind_Ok in Ht' as ([t''|] & Hr & [= <-]); simpl; [|lia].
    by eapply replace_controller_count.
Qed.

(** The half of C4 that the code keeps: after the pass no template has
    more controllers than before. *)
Lemma replace_constant_concepts_count (tm tm' : template_model) :
  replace_constant_concepts tm = Ok tm' →
  Forall2 (λ t t', controller_count t' ≤ controller_count t)
    (templates tm) (templates tm').
Proof.
  unfold replace_constant_concepts.
  intros (cs & _ & H)%bind_Ok. revert tm H.
  induction (elements cs) as [|c l IH]; intros tm; simpl.
  - intros [= <-]. apply Forall2_same_length_lookup. split; [done|].
    intros i t t' ? ?. simplify_eq. lia.
  - intros (tm1 & H1 & H2)%bind_Ok.
    apply replace_constant_concept_count in H1. apply IH in H2.
    revert H1 H2. generalize (templates tm) (templates tm1) (templates tm').
    intros l1 l2 l3 H12. revert l3.
    induction H12 as [|x y l1 l2 Hxy _ IH']; intros l3 H23;
      inversion H23; subst; constructor; [lia | by apply IH'].
Qed.

End elimination_facts.

(** ** Implicit modifiers *)

Section implicit_modifier_facts.
Import Sbml.

Lemma elem_of_sorted (X : gset string) (x : string) :
  (x ∈ sorted X) ↔ (x ∈ X).
Proof.
  unfold sorted. rewrite merge_sort_Permutation. apply elem_of_elements.
Qed.

Lemma sorted_StronglySorted (X : gset string) :
  StronglySorted String.le (sorted X).
Proof. apply (StronglySorted_merge_sort String.le). Qed.

Lemma sorted_NoDup (X : gset string) : NoDup (sorted X).
Proof.
  unfold sorted. rewrite merge_sort_Permutation. apply NoDup_elements.
Qed.

Lemma sorted_empty : sorted ∅ = [].
Proof. unfold sorted. by rewrite elements_empty. Qed.

Lemma elem_of_implicit_modifiers (species_ids vars : gset string)
    (rs ms : list string) (x : string) :
  x ∈ implicit_modifiers species_ids vars rs ms ↔
  x ∈ vars ∧ x ∈ species_ids ∧ (x ∉ rs) ∧ (x ∉ ms).
Proof.
  unfold implicit_modifiers.
  rewrite elem_of_difference, elem_of_intersection, elem_of_union,
    !elem_of_list_to_set.
  tauto.
Qed.

Lemma conversion_controllers (rs ps ms : list concept) (e : expr)
    (ts : list template) (t : template) :
  conversion rs ps ms e = Appended ts → t ∈ ts →
  template_controllers t = ms ∧ rate_law t = Some e.
Proof.
  unfold conversion.
  destruct rs as [|r0 [|r1 rs]], ps as [|p0 [|p1 ps]];
    try (intros [= <-] Ht; by apply elem_of_nil in Ht); try done.
  destruct (str_truthy (name r0) && concept_eqb r0 p0); [done|].
  destruct ms as [|m0 [|m1 ms]]; intros [= <-] ->%list_elem_of_singleton;
    done.
Qed.

Lemma production_or_degradation_controllers (rs ps ms : list concept)
    (e : expr) (t : template) :
  t ∈ production_or_degradation rs ps ms e →
  template_controllers t = ms ∧ rate_law t = Some e.
Proof.
  unfold production_or_degradation.
  destruct (xorb (nonempty ps) (nonempty rs));
    [|intros Ht; by apply elem_of_nil in Ht].
  destruct ms as [|m0 [|m1 ms]], ps as [|p0 ps];
    intros ->%list_elem_of_singleton; done.
Qed.

(** C2, as the claim words it: the outcome is not taken away from the
    implicit controllers.  For [S -> I] with the rate law [k*S*I] and no
    declared modifier the importer finds the implicit modifier [I]. *)
Lemma outcome_not_subtracted :
  ¬ (∀ (species_ids vars : gset string) (r : reaction),
       implicit_modifiers species_ids vars (reactants r) (modifiers r) =
       spec_implicit_controllers species_ids vars (reactants r) (modifiers r)
         (products r)).
Proof.
  intros H.
  specialize (H Examples.sir_species
                (variables_from_sympy_expr Examples.mass_action)
                Examples.undeclared_infection).
  apply (f_equal elements) in H. vm_compute in H. discriminate H.
Qed.

(** At that reaction the importer therefore builds a controlled
    conversion. *)
Lemma undeclared_infection_controlled :
  reaction_templates Examples.sample_sympy ∅ Examples.sir_concepts ∅
    Examples.sir_species [] Examples.undeclared_infection
  = Ok [Examples.infection].
Proof. vm_compute. reflexivity. Qed.

(** C2, amended: for every reaction that is imported, the implicit
    modifiers are the free symbols of the rate law that are species
    identifiers and are neither reactants nor declared modifiers (the
    products are not taken away); they are appended in sorted order,
    without repetition, to the declared modifiers, and the concepts of that
    list are the controllers of every template the reaction gives. *)
Theorem implicit_modifiers_folded (sympy : sympy_ops)
    (reporter_ids : gset string) (concepts : gmap string concept)
    (params : gmap string param_info) (species_ids : gset string)
    (comps : list string) (r : reaction) (ts : list template) :
  reaction_templates sympy reporter_ids concepts params species_ids comps r
    = Ok ts →
  ∃ rate_expr ms,
    substitute_compartments sympy params comps (kinetic_law r) = Ok rate_expr ∧
    let implicit :=
      implicit_modifiers species_ids (variables_from_sympy_expr rate_expr)
        (reactants r) (modifiers r) in
    (∀ x, (x ∈ sorted implicit) ↔
          (x ∈ variables_from_sympy_expr rate_expr ∧ x ∈ species_ids ∧
           (x ∉ reactants r) ∧ (x ∉ modifiers r))) ∧
    StronglySorted String.le (sorted implicit) ∧
    NoDup (sorted implicit) ∧
    _lookup_concepts_filtered reporter_ids concepts
      (modifiers r ++ sorted implicit) = Ok ms ∧
    ∀ t, t ∈ ts → template_controllers t = ms ∧ rate_law t = Some rate_expr.
Proof.
  unfold reaction_templates.
  intros (e & He & (ms & Hms & (rs & _ & (ps & _ & H)%bind_Ok)%bind_Ok)
            %bind_Ok)%bind_Ok.
  exists e, ms. split; [done|]. simpl. split_and!.
  - intros x. rewrite elem_of_sorted. apply elem_of_implicit_modifiers.
  - apply sorted_StronglySorted.
  - apply sorted_NoDup.
  - exact Hms.
  - intros t Ht. destruct (conversion rs ps ms e) as [|ts'] eqn:Hc.
    + injection H as <-. by apply elem_of_nil in Ht.
    + injection H as <-. apply elem_of_app in Ht as [Ht|Ht].
      * by eapply conversion_controllers.
      * by eapply production_or_degradation_controllers.
Qed.

Lemma implicit_modifiers_folded_witness :
  ∃ rate_expr ms,
    substitute_compartments Examples.sample_sympy ∅ []
      (kinetic_law Examples.undeclared_infection) = Ok rate_expr ∧
    _lookup_concepts_filtered ∅ Examples.sir_concepts
      (modifiers Examples.undeclared_infection ++
       sorted (implicit_modifiers Examples.sir_species
                 (variables_from_sympy_expr rate_expr)
                 (reactants Examples.undeclared_infection)
                 (modifiers Examples.undeclared_infection))) = Ok ms ∧
    ∀ t, t ∈ [Examples.infection] → template_controllers t = ms.
Proof.
  destruct (implicit_modifiers_folded Examples.sample_sympy ∅
              Examples.sir_concepts ∅ Examples.sir_species []
              Examples.undeclared_infection [Examples.infection])
    as (e & ms & He & _ & _ & _ & Hms & Ht).
  - vm_compute. reflexivity.
  - exists e, ms. split_and!; [exact He | exact Hms |].
    intros t Hin. exact (proj1 (Ht t Hin)).
Defined.

End implicit_modifier_facts.

(** ** Reaction networks: compartments and constant concepts *)

Section compartment_facts.
Import Sbml.

Variable sympy : sympy_ops.

Lemma variables_subs (x : string) (v : Q) (e : expr) :
  variables_from_sympy_expr (subs x v e) ⊆ variables_from_sympy_expr e.
Proof.
  induction e as [y|q|a IHa b IHb|a IHa b IHb|a IHa b IHb]; simpl.
  - case_bool_decide; simpl; [apply empty_subseteq | done].
  - done.
  - by apply union_mono.
  - by apply union_mono.
  - by apply union_mono.
Qed.

Lemma substitute_compartment_spec (params : gmap string param_info)
    (e : expr) (comp : string) :
  is_Some (params !! comp) →
  ∃ e', substitute_compartment sympy params e comp = Ok e' ∧
        variables_from_sympy_expr e' ⊆ variables_from_sympy_expr e.
Proof.
  intros [info Hinfo]. unfold substitute_compartment. rewrite Hinfo.
  case_bool_decide as Hin.
  - destruct (negb _); [destruct (Qeq_bool _ _)|].
    + eexists. split; [done|].
      etrans; [apply (truediv_free_symbols sympy)|].
      apply union_least; [done|]. by apply singleton_subseteq_l.
    + eexists. split; [done|]. apply variables_subs.
    + eexists. split; [done|]. apply variables_subs.
  - eexists. split; [done|]. apply variables_subs.
Qed.

Lemma substitute_compartments_spec (params : gmap string param_info)
    (comps : list string) (e : expr) :
  (∀ c, c ∈ comps → is_Some (params !! c)) →
  ∃ e', substitute_compartments sympy params comps e = Ok e' ∧
        variables_from_sympy_expr e' ⊆ variables_from_sympy_expr e.
Proof.
  unfold substitute_compartments. revert e.
  induction comps as [|c comps IH]; intros e Hall; simpl.
  - by exists e.
  - destruct (substitute_compartment_spec params e c) as (e1 & -> & H1);
      [apply Hall; left|]. simpl.
    destruct (IH e1) as (e2 & -> & H2); [intros c' ?; apply Hall; by right|].
    exists e2. split; [done|]. by etrans.
Qed.

Lemma lookup_kept_singleton (reporter_ids : gset string)
    (concepts : gmap string concept) (x : string) (c : concept) :
  species_kept reporter_ids x = true → concepts !! x = Some c →
  _lookup_concepts_filtered reporter_ids concepts [x] = Ok [c].
Proof.
  intros Hk Hc. unfold _lookup_concepts_filtered.
  rewrite filter_cons_True by done. rewrite filter_nil. simpl.
  by rewrite Hc.
Qed.

Lemma find_constant_concepts_controlled (S I C : concept)
    (rl : option expr) (p : gmap string parameter) (ini : gmap string initial) :
  find_constant_concepts
    (TemplateModel [Template ControlledConversion (Some S) (Some I) (Some C)
                      [] rl] p ini)
  = Ok ((∅ ∪ {[name C]} ∪ {[name S]} ∪ {[name I]})
          ∖ (∅ ∪ {[name S]} ∪ {[name I]})).
Proof. reflexivity. Qed.

(** A template model without constant concepts is left as it is. *)
Lemma replace_constant_concepts_none (tm : template_model) :
  find_constant_concepts tm = Ok ∅ → replace_constant_concepts tm = Ok tm.
Proof.
  intros H. unfold replace_constant_concepts. rewrite H. simpl.
  by rewrite elements_empty.
Qed.

End compartment_facts.

(** ** Grounding normalisation *)

Section grounding_facts.
Import Sbml.

Lemma startswith_C_not_000 (v : string) :
  startswith v "C" = true → startswith v "000" = false.
Proof.
  unfold startswith. destruct v as [|a v]; [done|].
  destruct a as [[] [] [] [] [] [] [] []]; intros H;
    first [ reflexivity | exfalso; cbv in H; discriminate H ].
Qed.

Lemma startswith_000_not_C (v : string) :
  startswith v "000" = true → startswith v "C" = false.
Proof.
  intros H. destruct (startswith v "C") eqn:HC; [|done].
  apply startswith_C_not_000 in HC. congruence.
Qed.

(** *** Dictionary operations *)

Lemma get_set_eq (k v : string) (d : PyDict.t) :
  PyDict.get k (PyDict.set k v d) = Some v.
Proof.
  induction d as [|[k' v'] d IH]; simpl.
  - by rewrite bool_decide_eq_true_2.
  - case_bool_decide as Hk; simpl.
    + by rewrite bool_decide_eq_true_2.
    + by rewrite bool_decide_eq_false_2.
Qed.

Lemma get_set_ne (k k' v : string) (d : PyDict.t) :
  k' ≠ k → PyDict.get k' (PyDict.set k v d) = PyDict.get k' d.
Proof.
  intros Hne. induction d as [|[k0 v0] d IH]; simpl.
  - by rewrite bool_decide_eq_false_2.
  - case_bool_decide as Hk; simpl.
    + subst k0. by rewrite !bool_decide_eq_false_2.
    + by rewrite IH.
Qed.

Lemma get_filter_eq (k : string) (d : PyDict.t) :
  PyDict.get k (filter (λ kv, kv.1 ≠ k) d) = None.
Proof.
  induction d as [|[k' v'] d IH]; [done|].
  destruct (decide (k' = k)) as [->|Hne].
  - by rewrite filter_cons_False by (simpl; auto).
  - rewrite filter_cons_True by done. simpl.
    by rewrite bool_decide_eq_false_2.
Qed.

Lemma get_filter_ne (k k' : string) (d : PyDict.t) :
  k' ≠ k → PyDict.get k' (filter (λ kv, kv.1 ≠ k) d) = PyDict.get k' d.
Proof.
  intros Hne. induction d as [|[k0 v0] d IH]; [done|].
  destruct (decide (k0 = k)) as [->|Hk].
  - rewrite filter_cons_False by (simpl; auto). simpl.
    by rewrite bool_decide_eq_false_2.
  - rewrite filter_cons_True by done. simpl. by rewrite IH.
Qed.

Lemma get_elem (k v : string) (d : PyDict.t) :
  PyDict.get k d = Some v → (k, v) ∈ d.
Proof.
  induction d as [|[k' v'] d IH]; simpl; [done|].
  case_bool_decide as Hk.
  - intros [= ->]. subst. left.
  - intros H. right. by apply IH.
Qed.

Lemma elem_get_some (k v : string) (d : PyDict.t) :
  (k, v) ∈ d → is_Some (PyDict.get k d).
Proof.
  induction d as [|[k' v'] d IH]; simpl.
  - intros H. by apply elem_of_nil in H.
  - intros [[= -> ->]|H]%elem_of_cons.
    + rewrite bool_decide_eq_true_2 by done. eauto.
    + case_bool_decide; [eauto | by apply IH].
Qed.


Lemma pop_present (k : string) (d : PyDict.t) :
  is_Some (PyDict.get k d) →
  PyDict.pop k d = Ok (filter (λ kv, kv.1 ≠ k) d).
Proof. intros [v Hv]. unfold PyDict.pop. by rewrite Hv. Qed.

(** *** The loop over the copied items *)

(** An item the loop acts on. *)
Lemma swap_step_other (d : PyDict.t) (k v : string) :
  ¬ (k = "ncit" ∧ startswith v "000" = true) →
  ¬ (k = "ido" ∧ startswith v "C" = true) →
  swap_step d (k, v) = Ok d.
Proof.
  intros H1 H2. unfold swap_step.
  destruct (bool_decide (k = "ncit") && startswith v "000") eqn:E1.
  { apply andb_true_iff in E1 as [?%bool_decide_eq_true ?]. tauto. }
  destruct (bool_decide (k = "ido") && startswith v "C") eqn:E2.
  { apply andb_true_iff in E2 as [?%bool_decide_eq_true ?]. tauto. }
  done.
Qed.

Lemma swap_step_ncit (d : PyDict.t) (v : string) :
  startswith v "000" = true → is_Some (PyDict.get "ncit" d) →
  swap_step d ("ncit", v)
  = Ok (PyDict.set "ido" v (filter (λ kv, kv.1 ≠ "ncit") d)).
Proof.
  intros Hv Hd. unfold swap_step.
  rewrite bool_decide_eq_true_2, Hv by done. simpl.
  by rewrite pop_present.
Qed.

Lemma swap_step_ido (d : PyDict.t) (v : string) :
  startswith v "C" = true → is_Some (PyDict.get "ido" d) →
  swap_step d ("ido", v)
  = Ok (PyDict.set "ncit" v (filter (λ kv, kv.1 ≠ "ido") d)).
Proof.
  intros Hv Hd. unfold swap_step.
  change (bool_decide ("ido" = "ncit")) with false.
  change (bool_decide ("ido" = "ido")) with true. simpl.
  rewrite Hv. simpl. by rewrite pop_present.
Qed.

Lemma foldM_cons {A S} (body : S → A → result S) (s : S) (x : A)
    (xs : list A) :
  foldM body s (x :: xs) = body s x ≫= λ s', foldM body s' xs.
Proof. reflexivity. Qed.


(** The loop ends, and ends with the invariant, from any state in which
    the entries that are still out of order are entries that are still to
    come. *)
Lemma swap_loop_invariant (rest d : PyDict.t) :
  NoDup rest.*1 →
  (∀ v, PyDict.get "ncit" d = Some v → startswith v "000" = true →
        ("ncit", v) ∈ rest) →
  (∀ v, PyDict.get "ido" d = Some v → startswith v "C" = true →
        ("ido", v) ∈ rest) →
  (∀ v, ("ncit", v) ∈ rest → startswith v "000" = true →
        is_Some (PyDict.get "ncit" d)) →
  (∀ v, ("ido", v) ∈ rest → startswith v "C" = true →
        is_Some (PyDict.get "ido" d)) →
  ∃ d', foldM swap_step d rest = Ok d' ∧ no_swapped_prefix d' ∧
        ∀ k, k ≠ "ncit" → k ≠ "ido" → PyDict.get k d' = PyDict.get k d.
Proof.
  revert d. induction rest as [|[k v0] rest IH]; intros d Hnd Ha Hb Hc Hd.
  - exists d. simpl. split_and!; [done| |done].
    split; intros v Hv; destruct (startswith v _) eqn:E; try done.
    + by apply Ha, elem_of_nil in Hv.
    + by apply Hb, elem_of_nil in Hv.
  - simpl in Hnd. apply NoDup_cons in Hnd as [Hk Hnd].
    assert (∀ v, (k, v) ∉ rest) as Hfresh.
    { intros v Hin. apply Hk, list_elem_of_fmap. by exists (k, v). }
    destruct (decide (k = "ncit" ∧ startswith v0 "000" = true)) as [[-> Hv0]|H1].
    { assert (is_Some (PyDict.get "ncit" d)) as Hpresent
        by (apply (Hc v0); [left | done]).
      rewrite foldM_cons, swap_step_ncit by done. simpl.
      destruct (IH (PyDict.set "ido" v0 (filter (λ kv, kv.1 ≠ "ncit") d)))
        as (d' & Hd' & Hinv & Hother); try done.
      - intros v. by rewrite get_set_ne, get_filter_eq.
      - intros v. rewrite get_set_eq. intros [= <-] HC.
        apply startswith_000_not_C in Hv0. congruence.
      - intros v Hin. by destruct (Hfresh v).
      - intros v _ _. rewrite get_set_eq. eauto.
      - exists d'. split_and!; [done..|].
        intros k ? ?. rewrite Hother by done.
        by rewrite get_set_ne, get_filter_ne. }
    destruct (decide (k = "ido" ∧ startswith v0 "C" = true)) as [[-> Hv0]|H2].
    { assert (is_Some (PyDict.get "ido" d)) as Hpresent
        by (apply (Hd v0); [left | done]).
      rewrite foldM_cons, swap_step_ido by done. simpl.
      destruct (IH (PyDict.set "ncit" v0 (filter (λ kv, kv.1 ≠ "ido") d)))
        as (d' & Hd' & Hinv & Hother); try done.
      - intros v. rewrite get_set_eq. intros [= <-] H0.
        apply startswith_C_not_000 in Hv0. congruence.
      - intros v. by rewrite get_set_ne, get_filter_eq.
      - intros v _ _. rewrite get_set_eq. eauto.
      - intros v Hin. by destruct (Hfresh v).
      - exists d'. split_and!; [done..|].
        intros k ? ?. rewrite Hother by done.
        by rewrite get_set_ne, get_filter_ne. }
    rewrite foldM_cons, swap_step_other by done. simpl.
    destruct (IH d) as (d' & Hd' & Hinv & Hother); try done.
    + intros v Hg Hv. pose proof (Ha v Hg Hv) as Hin.
      apply elem_of_cons in Hin as [[= Hk1 Hv1]|?]; [|done].
      destruct H1. by subst.
    + intros v Hg Hv. pose proof (Hb v Hg Hv) as Hin.
      apply elem_of_cons in Hin as [[= Hk1 Hv1]|?]; [|done].
      destruct H2. by subst.
    + intros v Hin. apply Hc. by right.
    + intros v Hin. apply Hd. by right.
    + by exists d'.
Qed.



Variable get_curie : concept → string * string.

Lemma swap_ido_ncit_spec (ids : PyDict.t) :
  PyDict.wf ids →
  ∃ ids1, swap_ido_ncit ids = Ok ids1 ∧ no_swapped_prefix ids1 ∧
          ∀ k, k ≠ "ncit" → k ≠ "ido" → PyDict.get k ids1 = PyDict.get k ids.
Proof.
  intros Hwf. apply swap_loop_invariant; [done|..].
  - intros v Hv _. by apply get_elem.
  - intros v Hv _. by apply get_elem.
  - intros v Hv _. by eapply elem_get_some.
  - intros v Hv _. by eapply elem_get_some.
Qed.


Lemma grounding_normalize_prefixes (c : concept) (ids1 : PyDict.t) :
  swap_ido_ncit (identifiers c) = Ok ids1 → no_swapped_prefix ids1 →
  ∃ c', grounding_normalize get_curie c = Ok c' ∧
        no_swapped_prefix (identifiers c') ∧
        name c' = name c ∧ units c' = units c.
Proof.
  intros Hswap [Hn Hi]. unfold grounding_normalize. rewrite Hswap. simpl.
  destruct (negb _ && _).
  { eexists. split; [reflexivity|]. simpl. split_and!; try done. split.
    - intros v. rewrite get_set_ne by done. apply Hn.
    - intros v. rewrite get_set_eq. by intros [= <-]. }
  destruct (bool_decide _ && _).
  { eexists. split; [reflexivity|]. by split_and!. }
  destruct (bool_decide _ && _).
  { eexists. split; [reflexivity|]. simpl. split_and!; try done.
    split; intros v; simpl; [done | by intros [= <-]]. }
  destruct (bool_decide _).
  { eexists. split; [reflexivity|]. simpl. split_and!; try done.
    split; intros v; simpl; [by intros [= <-] | done]. }
  eexists. split; [reflexivity|]. by split_and!.
Qed.







End grounding_facts.



(** The two samples, run. *)
Lemma grounding_normalize_samples :
  Sbml.grounding_normalize Examples.sample_curie Examples.miscurated
    = Ok (Concept "I" [("ido", "0000511")] [] None) ∧
  Sbml.grounding_normalize Examples.sample_curie Examples.deceased
    = Ok (Concept "D" [("ncit", "C28554")] [] None).
Proof. split; vm_compute; reflexivity. Qed.

(** * Further properties *)

(** ** Bilayer documents *)

Section bilayer_extras.
Import Bilayer.

(** [box_to_template] fails in two ways.  It raises [AssertionError]
    exactly when the box has more than one input or more than one output.
    Within these bounds it raises [ValidationError] exactly when the box
    is empty on both sides, or has a controller and lacks an input or an
    output; it returns a template in every other case. *)
Theorem box_to_template_assertion (b : box) :
  (box_to_template b = Raise AssertionError ↔
     1 < length (b_inputs b) ∨ 1 < length (b_outputs b)) ∧
  (box_to_template b = Raise ValidationError ↔
     length (b_inputs b) ≤ 1 ∧ length (b_outputs b) ≤ 1 ∧
     ((b_inputs b = [] ∧ b_outputs b = []) ∨
      (b_controllers b ≠ [] ∧ (b_inputs b = [] ∨ b_outputs b = [])))) ∧
  (is_ok (box_to_template b) = true ↔
     length (b_inputs b) ≤ 1 ∧ length (b_outputs b) ≤ 1 ∧
     ((b_inputs b ≠ [] ∧ b_outputs b ≠ []) ∨
      (b_controllers b = [] ∧ (b_inputs b ≠ [] ∨ b_outputs b ≠ [])))).
Proof.
  unfold box_to_template, validated. destruct b as [ins outs ctl]; simpl.
  destruct ins as [|i [|i' ins]], outs as [|o [|o' outs]],
    ctl as [|c [|c' ctl]]; simpl;
    (split_and!; split; intros Hx; try done; try lia;
     try (split_and!; try lia; by auto);
     try (exfalso; destruct Hx as (_ & _ & [[? ?]|[? [?|?]]]); done)).
Qed.

Lemma mapM_box_length (boxes : list box) (ts : list template) :
  mapM_result box_to_template boxes = Ok ts → length ts = length boxes.
Proof. apply mapM_result_Ok_length. Qed.

Lemma foldM_boxes_length {A} (step : list box → A → result (list box))
    (ws : list A) (boxes boxes' : list box) :
  (∀ bs w bs', step bs w = Ok bs' → length bs' = length bs) →
  foldM step boxes ws = Ok boxes' → length boxes' = length boxes.
Proof.
  intros Hstep. revert boxes.
  induction ws as [|w ws IH]; intros boxes; simpl.
  - by intros [= <-].
  - intros (bs1 & H1 & H2)%bind_Ok.
    rewrite (IH _ H2). by eapply Hstep.
Qed.

(** A document that is imported gives exactly one template per entry of
    ['Box'], in the order of the boxes, whatever the wires are. *)
Theorem one_template_per_box (j : bilayer) (tm : template_model) :
  template_model_from_bilayer j = Ok tm →
  length (templates tm) = Box_count j ∧
  parameters tm = ∅ ∧ initials tm = ∅.
Proof.
  unfold template_model_from_bilayer.
  intros (b1 & H1 & (b2 & H2 & (b3 & H3 & (ts & Hts & [= <-])%bind_Ok)
            %bind_Ok)%bind_Ok)%bind_Ok.
  simpl. split; [|done].
  apply mapM_result_Ok_length in Hts.
  apply foldM_boxes_length in H1, H2, H3.
  - rewrite Hts, H3, H2, H1. apply length_replicate.
  - intros bs [a b] bs' (c & _ & ([n bx] & _ & H)%bind_Ok)%bind_Ok.
    destruct (concept_in c (b_inputs bx)); injection H as <-;
      [done | by rewrite length_insert].
  - intros bs [a b] bs' ([n bx] & _ & (c & _ & [= <-])%bind_Ok)%bind_Ok.
    by rewrite length_insert.
  - intros bs [a b] bs' ([n bx] & _ & (c & _ & [= <-])%bind_Ok)%bind_Ok.
    by rewrite length_insert.
Qed.

End bilayer_extras.

Section bilayer_wiring_extras.
Import Bilayer BilayerWiring.

Lemma template_model_from_bilayer_wire (j : bilayer) :
  template_model_from_bilayer j =
  wire_boxes j ≫= λ boxes,
    mapM_result box_to_template boxes ≫= λ ts, Ok (TemplateModel ts ∅ ∅).
Proof.
  unfold template_model_from_bilayer, wire_boxes.
  destruct (foldM _ _ (Wn j)) as [b1|]; [|done]. simpl.
  destruct (foldM _ _ (Wa j)) as [b2|]; [|done]. simpl.
  done.
Qed.

Lemma lookup_concept_ok (qin : list string) (k : Z) :
  is_ok (lookup_concept qin k) = true ↔ variable_index_known qin k.
Proof.
  unfold lookup_concept, variable_index_known.
  case_bool_decide as Hk; simpl.
  - destruct (qin !! Z.to_nat (k - 1)) as [v|] eqn:Hv; simpl.
    + apply lookup_lt_Some in Hv. split; [lia | done].
    + apply lookup_ge_None in Hv. split; [done | lia].
  - split; [done | lia].
Qed.

Lemma box_at_ok {A} (boxes : list A) (i : Z) :
  (∃ n b, py_index boxes (i - 1) = Ok n ∧ boxes !! n = Some b) ↔
  box_index_accepted (length boxes) i.
Proof.
  unfold py_index, box_index_accepted.
  repeat case_bool_decide; split.
  - lia.
  - intros _. destruct (lookup_lt_is_Some_2 boxes (Z.to_nat (i - 1)))
      as [b Hb]; [lia|]. eauto.
  - lia.
  - intros _.
    destruct (lookup_lt_is_Some_2 boxes
                (Z.to_nat (Z.of_nat (length boxes) + (i - 1))))
      as [b Hb]; [lia|]. eauto.
  - by intros (? & ? & ? & _).
  - lia.
Qed.

Lemma box_at_spec (boxes : list box) (i : Z) :
  is_ok (box_at boxes (i - 1)) = true ↔
  box_index_accepted (length boxes) i.
Proof.
  rewrite <- box_at_ok. unfold box_at.
  destruct (py_index boxes (i - 1)) as [n|] eqn:Hn; simpl.
  - destruct (boxes !! n) as [b|] eqn:Hb; simpl.
    + split; [eauto | done].
    + split; [done|]. intros (n' & b' & [= <-] & ?). congruence.
  - split; [done|]. by intros (? & ? & ? & _).
Qed.

Lemma foldM_wires {A} (P : A → Prop) (n : nat)
    (step : list box → A → result (list box)) (ws : list A)
    (boxes : list box) :
  (∀ bs w, length bs = n →
     (is_ok (step bs w) = true ↔ P w) ∧
     (∀ bs', step bs w = Ok bs' → length bs' = n)) →
  length boxes = n →
  (is_ok (foldM step boxes ws) = true ↔ Forall P ws) ∧
  (∀ bs', foldM step boxes ws = Ok bs' → length bs' = n).
Proof.
  intros Hstep. revert boxes.
  induction ws as [|w ws IH]; intros boxes Hlen; simpl.
  - split; [split; [constructor | done] | by intros ? [= <-]].
  - destruct (Hstep boxes w Hlen) as [Hok Hlen'].
    destruct (step boxes w) as [bs1|e]; simpl.
    + destruct (IH bs1 (Hlen' _ eq_refl)) as [IH1 IH2].
      split; [|done]. rewrite IH1, Forall_cons. split; [|tauto].
      intros ?. split; [by apply Hok | done].
    + split; [|done]. split; [done|].
      intros [HP _]%Forall_cons. by apply Hok in HP.
Qed.

Lemma wire_step_spec (j : bilayer) (upd : concept → box → box)
    (bs : list box) (w : Z * Z) :
  length bs = Box_count j →
  (is_ok (let '(bi, vi) := w in
          '(n, b) ← box_at bs (bi - 1);
          c ← lookup_concept (Qin j) vi;
          Ok (<[n := upd c b]> bs)) = true ↔ wire_resolved j w) ∧
  (∀ bs', (let '(bi, vi) := w in
           '(n, b) ← box_at bs (bi - 1);
           c ← lookup_concept (Qin j) vi;
           Ok (<[n := upd c b]> bs)) = Ok bs' → length bs' = Box_count j).
Proof.
  intros Hlen. destruct w as [bi vi]. unfold wire_resolved. simpl.
  rewrite <- Hlen, <- box_at_spec, <- lookup_concept_ok.
  destruct (box_at bs (bi - 1)) as [[n b]|]; simpl;
    [|split; [split; [done | by intros [? _]] | done]].
  destruct (lookup_concept (Qin j) vi) as [c|]; simpl.
  - split; [done|]. intros bs' [= <-]. by rewrite length_insert.
  - split; [|done]. split; [done | by intros [_ ?]].
Qed.

Lemma control_step_spec (j : bilayer) (bs : list box) (w : Z * Z) :
  length bs = Box_count j →
  (is_ok (let '(call, arg) := w in
          c ← lookup_concept (Qin j) arg;
          '(n, b) ← box_at bs (call - 1);
          if concept_in c (b_inputs b) then Ok bs
          else Ok (<[n := add_controller c b]> bs)) = true
   ↔ wire_resolved j w) ∧
  (∀ bs', (let '(call, arg) := w in
           c ← lookup_concept (Qin j) arg;
           '(n, b) ← box_at bs (call - 1);
           if concept_in c (b_inputs b) then Ok bs
           else Ok (<[n := add_controller c b]> bs)) = Ok bs' →
          length bs' = Box_count j).
Proof.
  intros Hlen. destruct w as [bi vi]. unfold wire_resolved. simpl.
  rewrite <- Hlen, <- box_at_spec, <- lookup_concept_ok.
  destruct (lookup_concept (Qin j) vi) as [c|]; simpl;
    [|split; [split; [done | by intros [_ ?]] | done]].
  destruct (box_at bs (bi - 1)) as [[n b]|]; simpl.
  - destruct (concept_in c (b_inputs b)); simpl.
    + split; [done|]. by intros bs' [= <-].
    + split; [done|]. intros bs' [= <-]. by rewrite length_insert.
  - split; [|done]. split; [done | by intros [? _]].
Qed.

(** The wiring loops succeed exactly when every wire of ['Wn'], ['Wa'] and
    ['Win'] names a box position between [1 - n] and [n] ([n] boxes;
    positions below 1 count from the end) and a variable between 1 and
    the number of entries of ['Qin']; any other wire makes the import
    raise instead of being skipped. *)
Theorem wiring_succeeds_iff (j : bilayer) :
  is_ok (wire_boxes j) = true ↔
  Forall (wire_resolved j) (Wn j) ∧ Forall (wire_resolved j) (Wa j) ∧
  Forall (wire_resolved j) (Win j).
Proof.
  unfold wire_boxes.
  pose proof (length_replicate (Box_count j) (Box [] [] [])) as H0.
  destruct (foldM_wires (wire_resolved j) (Box_count j) _ (Wn j) _
              (λ bs w, wire_step_spec j add_input bs w) H0) as [Hn1 Hn2].
  destruct (foldM _ _ (Wn j)) as [b1|]; simpl in *;
    [|rewrite <- Hn1; split; [done | tauto]].
  destruct (foldM_wires (wire_resolved j) (Box_count j) _ (Wa j) b1
              (λ bs w, wire_step_spec j add_output bs w) (Hn2 _ eq_refl))
    as [Ha1 Ha2].
  destruct (foldM _ _ (Wa j)) as [b2|]; simpl in *;
    [|rewrite <- Ha1; split; [done | tauto]].
  destruct (foldM_wires (wire_resolved j) (Box_count j) _ (Win j) b2
              (control_step_spec j) (Ha2 _ eq_refl)) as [Hc1 _].
  rewrite Hc1, <- Hn1, <- Ha1. tauto.
Qed.

(** When the import fails although every wire can be resolved, it is
    because some box has collected two inputs or two outputs, or because
    the constructor of its template has rejected it. *)
Lemma import_fails_only_by_assertion (j : bilayer) :
  is_ok (wire_boxes j) = true →
  is_ok (template_model_from_bilayer j) = false →
  template_model_from_bilayer j = Raise AssertionError ∨
  template_model_from_bilayer j = Raise ValidationError.
Proof.
  rewrite template_model_from_bilayer_wire.
  destruct (wire_boxes j) as [boxes|]; [|done]. simpl. intros _.
  induction boxes as [|b boxes IH]; simpl; [done|].
  destruct (box_to_template b) as [t|e] eqn:Hb; simpl.
  - destruct (mapM_result box_to_template boxes) as [ts|]; simpl in *;
      [done | auto].
  - intros _. revert Hb. unfold box_to_template, validated.
    repeat case_match; intros [= <-]; auto.
Qed.

End bilayer_wiring_extras.

Section bilayer_controller_extras.
Import Bilayer BilayerWiring.

Lemma foldM_Forall {A} (P : box → Prop)
    (step : list box → A → result (list box)) (ws : list A)
    (boxes boxes' : list box) :
  (∀ bs w bs', Forall P bs → step bs w = Ok bs' → Forall P bs') →
  Forall P boxes → foldM step boxes ws = Ok boxes' → Forall P boxes'.
Proof.
  intros Hstep. revert boxes.
  induction ws as [|w ws IH]; intros boxes HP; simpl.
  - by intros [= <-].
  - intros (bs1 & H1 & H2)%bind_Ok. eapply IH; [|done]. by eapply Hstep.
Qed.

Lemma box_at_lookup (boxes : list box) (i : Z) (n : nat) (b : box) :
  box_at boxes i = Ok (n, b) → boxes !! n = Some b.
Proof.
  unfold box_at. intros (n' & _ & H)%bind_Ok.
  destruct (boxes !! n') eqn:E; by simplify_eq.
Qed.

Lemma wire_boxes_controllers (j : bilayer) (boxes : list box) :
  wire_boxes j = Ok boxes →
  Forall (λ b, ∀ c, c ∈ b_controllers b → concept_in c (b_inputs b) = false)
    boxes.
Proof.
  unfold wire_boxes.
  intros (b1 & H1 & (b2 & H2 & H3)%bind_Ok)%bind_Ok.
  assert (Forall (λ b, b_controllers b = []) b1) as P1.
  { eapply foldM_Forall; [| |exact H1].
    - intros bs [bi vi] bs' HP
        ([n b] & Hb%box_at_lookup & (c & _ & [= <-])%bind_Ok)%bind_Ok.
      apply Forall_insert; [done|]. simpl.
      by eapply (Forall_lookup_1 _ _ _ _ HP).
    - by apply Forall_replicate. }
  assert (Forall (λ b, b_controllers b = []) b2) as P2.
  { eapply foldM_Forall; [| |exact H2]; [|done].
    intros bs [bi vi] bs' HP
      ([n b] & Hb%box_at_lookup & (c & _ & [= <-])%bind_Ok)%bind_Ok.
    apply Forall_insert; [done|]. simpl.
    by eapply (Forall_lookup_1 _ _ _ _ HP). }
  eapply foldM_Forall; [| |exact H3].
  - intros bs [bi vi] bs' HP
      (c & _ & ([n b] & Hb%box_at_lookup & H)%bind_Ok)%bind_Ok.
    destruct (concept_in c (b_inputs b)) eqn:Hin; injection H as <-;
      [done|].
    apply Forall_insert; [done|]. simpl.
    intros c' [Hc'| ->%list_elem_of_singleton]%elem_of_app; [|done].
    by apply (Forall_lookup_1 _ _ _ _ HP Hb).
  - eapply Forall_impl; [exact P2|]. simpl. intros b -> c Hc.
    by apply elem_of_nil in Hc.
Qed.

Lemma box_to_template_roles (b : box) (t : template) :
  box_to_template b = Ok t →
  subject t = head (b_inputs b) ∧ outcome t = head (b_outputs b) ∧
  template_controllers t = b_controllers b ∧
  length (b_inputs b) ≤ 1 ∧ length (b_outputs b) ≤ 1.
Proof.
  intros (? & ? & _ & ? & ? & ? & _)%box_to_template_Ok. by split_and!.
Qed.

(** In a template that comes from a bilayer document no controller is
    (equal to) the subject: a control wire from a variable that the box
    also consumes is dropped. *)
Theorem bilayer_controller_is_not_subject (j : bilayer) (tm : template_model)
    (t : template) (c s : concept) :
  template_model_from_bilayer j = Ok tm →
  t ∈ templates tm → c ∈ template_controllers t → subject t = Some s →
  concept_eqb c s = false.
Proof.
  rewrite template_model_from_bilayer_wire.
  intros (boxes & Hw & (ts & Hts & [= <-])%bind_Ok)%bind_Ok Ht Hc Hs.
  simpl in Ht.
  destruct (mapM_result_Ok_elem _ _ _ _ Hts Ht) as (b & Hb & Hbt).
  apply wire_boxes_controllers in Hw.
  rewrite Forall_forall in Hw. specialize (Hw b Hb c).
  apply box_to_template_roles in Hbt as (Hsub & _ & Hctl & Hlen & _).
  rewrite Hctl in Hc. specialize (Hw Hc).
  rewrite Hs in Hsub. destruct (b_inputs b) as [|i ins]; [done|].
  simpl in Hsub. injection Hsub as <-. simpl in Hw.
  by apply orb_false_iff in Hw as [? _].
Qed.

End bilayer_controller_extras.

Lemma one_template_per_box_witness :
  ∃ tm, Bilayer.template_model_from_bilayer Examples.sir_bilayer = Ok tm ∧
        length (templates tm) = 2.
Proof.
  eexists. split; [reflexivity|].
  exact (proj1 (one_template_per_box Examples.sir_bilayer _ eq_refl)).
Defined.

Lemma bilayer_controller_is_not_subject_witness :
  concept_eqb Examples.infected Examples.susceptible = false.
Proof.
  apply (bilayer_controller_is_not_subject Examples.sir_bilayer
           (TemplateModel
              [Template ControlledConversion (Some Examples.susceptible)
                 (Some Examples.infected) (Some Examples.infected) [] None;
               Template NaturalConversion (Some Examples.infected)
                 (Some (Concept "R" [] [] None)) None [] None] ∅ ∅)
           (Template ControlledConversion (Some Examples.susceptible)
              (Some Examples.infected) (Some Examples.infected) [] None)).
  - reflexivity.
  - left.
  - left.
  - reflexivity.
Defined.

(** ** Reaction networks: the shapes of the reactions *)

Section sbml_shape_extras.
Import Sbml.

Variable sympy : sympy_ops.
Variable reporter_ids : gset string.
Variable concepts : gmap string concept.
Variable params : gmap string param_info.
Variable species_ids : gset string.

Lemma mapM_result_Forall2 {A B} (f : A → result B) (xs : list A)
    (ys : list B) :
  mapM_result f xs = Ok ys → Forall2 (λ x y, f x = Ok y) xs ys.
Proof.
  revert ys. induction xs as [|x xs IH]; intros ys; simpl.
  - intros [= <-]. constructor.
  - intros (y & Hy & (ys' & Hys & [= <-])%bind_Ok)%bind_Ok.
    constructor; [done | by apply IH].
Qed.

(** The concepts that [_lookup_concepts_filtered] returns are those of
    the identifiers it keeps, in their order. *)
Lemma lookup_filtered_spec (ids : list string) (cs : list concept) :
  _lookup_concepts_filtered reporter_ids concepts ids = Ok cs →
  Forall2 (λ id c, concepts !! id = Some c)
    (filter (λ id, species_kept reporter_ids id = true) ids) cs.
Proof.
  unfold _lookup_concepts_filtered. intros H%mapM_result_Forall2.
  eapply Forall2_impl; [exact H|]. simpl. intros id c Hc.
  by destruct (concepts !! id); simplify_eq.
Qed.

(** What a reaction gives is decided by the reactants and products that
    are kept. *)
Lemma reaction_templates_inv (comps : list string) (r : reaction)
    (ts : list template) :
  reaction_templates sympy reporter_ids concepts params species_ids comps r
    = Ok ts →
  ∃ e ms rs ps,
    substitute_compartments sympy params comps (kinetic_law r) = Ok e ∧
    _lookup_concepts_filtered reporter_ids concepts (extended_modifiers species_ids r e)
      = Ok ms ∧
    Forall2 (λ id c, concepts !! id = Some c)
      (filter (λ id, species_kept reporter_ids id = true) (reactants r)) rs ∧
    Forall2 (λ id c, concepts !! id = Some c)
      (filter (λ id, species_kept reporter_ids id = true) (products r)) ps ∧
    ts = match conversion rs ps ms e with
         | Continue => []
         | Appended l => l ++ production_or_degradation rs ps ms e
         end.
Proof.
  unfold reaction_templates.
  intros (e & He & (ms & Hms & (rs & Hrs & (ps & Hps & H)%bind_Ok)%bind_Ok)
            %bind_Ok)%bind_Ok.
  exists e, ms, rs, ps. split_and!; try done.
  - by apply lookup_filtered_spec.
  - by apply lookup_filtered_spec.
  - destruct (conversion rs ps ms e); by injection H as <-.
Qed.

(** A reaction whose kept reactants are [s0, ...] and that has no kept
    product gives one template of the degradation family: the
    degradation of the first reactant; the other reactants are left
    out. *)
Theorem reactants_only_degradation (comps : list string) (r : reaction)
    (ts : list template) (s0 : string) (rest : list string) :
  reaction_templates sympy reporter_ids concepts params species_ids comps r
    = Ok ts →
  filter (λ id, species_kept reporter_ids id = true) (reactants r)
    = s0 :: rest →
  filter (λ id, species_kept reporter_ids id = true) (products r) = [] →
  ∃ t S0,
    ts = [t] ∧ concepts !! s0 = Some S0 ∧
    subject t = Some S0 ∧ outcome t = None ∧
    cls t = Families.degradation_of (template_controllers t).
Proof.
  intros (e & ms & rs & ps & _ & _ & Hrs & Hps & ->)%reaction_templates_inv
    Hr Hp.
  rewrite Hr in Hrs. rewrite Hp in Hps.
  apply Forall2_cons_inv_l in Hrs as (S0 & rs' & HS0 & _ & ->).
  apply Forall2_nil_inv_l in Hps as ->.
  unfold conversion, production_or_degradation. simpl.
  destruct rs' as [|r1 rs'], ms as [|m0 [|m1 ms]]; simpl;
    eexists _, S0; by split_and!.
Qed.

(** A reaction without kept reactant whose kept products are [p0, ...]
    gives one template of the production family: the production of the
    first product. *)
Theorem products_only_production (comps : list string) (r : reaction)
    (ts : list template) (p0 : string) (rest : list string) :
  reaction_templates sympy reporter_ids concepts params species_ids comps r
    = Ok ts →
  filter (λ id, species_kept reporter_ids id = true) (reactants r) = [] →
  filter (λ id, species_kept reporter_ids id = true) (products r)
    = p0 :: rest →
  ∃ t P0,
    ts = [t] ∧ concepts !! p0 = Some P0 ∧
    subject t = None ∧ outcome t = Some P0 ∧
    cls t = Families.production_of (template_controllers t).
Proof.
  intros (e & ms & rs & ps & _ & _ & Hrs & Hps & ->)%reaction_templates_inv
    Hr Hp.
  rewrite Hr in Hrs. rewrite Hp in Hps.
  apply Forall2_cons_inv_l in Hps as (P0 & ps' & HP0 & _ & ->).
  apply Forall2_nil_inv_l in Hrs as ->.
  unfold conversion, production_or_degradation. simpl.
  destruct ps' as [|p1 ps'], ms as [|m0 [|m1 ms]]; simpl;
    eexists _, P0; by split_and!.
Qed.

(** A reaction with kept species on both sides that is not one to one is
    skipped, and so is a reaction without any kept reactant or product. *)
Theorem unsupported_reaction_skipped (comps : list string) (r : reaction)
    (ts : list template) :
  reaction_templates sympy reporter_ids concepts params species_ids comps r
    = Ok ts →
  let rs := filter (λ id, species_kept reporter_ids id = true) (reactants r) in
  let ps := filter (λ id, species_kept reporter_ids id = true) (products r) in
  (rs = [] ∧ ps = []) ∨
  (rs ≠ [] ∧ ps ≠ [] ∧ (1 < length rs ∨ 1 < length ps)) →
  ts = [].
Proof.
  intros (e & ms & rs & ps & _ & _ & Hrs & Hps & ->)%reaction_templates_inv.
  simpl. intros Hshape.
  pose proof (Forall2_length _ _ _ Hrs) as Lr.
  pose proof (Forall2_length _ _ _ Hps) as Lp.
  destruct Hshape as [[Er Ep]|(Nr & Np & Hlen)].
  - rewrite Er in Lr. rewrite Ep in Lp.
    by destruct rs, ps.
  - destruct (filter _ (reactants r)) as [|a0 ar]; [done|].
    destruct (filter _ (products r)) as [|b0 bp]; [done|].
    destruct rs as [|r0 [|r1 rs]], ps as [|p0 [|p1 ps]]; simpl in *;
      try lia; try done.
    all: destruct ar, bp; simpl in *; lia.
Qed.

(** A one-to-one reaction between two concepts that are not the same
    named concept gives one template of the conversion family.  Its
    controllers are the concepts of the modifiers that are kept, the
    declared ones followed by the implicit ones in sorted order, and its
    class is [NaturalConversion], [ControlledConversion] or
    [GroupedControlledConversion] as there are none, one or more of
    them. *)
Theorem one_to_one_conversion (comps : list string) (r : reaction)
    (ts : list template) (s p : string) (S P : concept) :
  reaction_templates sympy reporter_ids concepts params species_ids comps r
    = Ok ts →
  filter (λ id, species_kept reporter_ids id = true) (reactants r) = [s] →
  filter (λ id, species_kept reporter_ids id = true) (products r) = [p] →
  concepts !! s = Some S → concepts !! p = Some P →
  str_truthy (name S) && concept_eqb S P = false →
  ∃ e ms t,
    substitute_compartments sympy params comps (kinetic_law r) = Ok e ∧
    Forall2 (λ id c, concepts !! id = Some c)
      (filter (λ id, species_kept reporter_ids id = true)
         (modifiers r ++
          sorted (implicit_modifiers species_ids
                    (variables_from_sympy_expr e)
                    (reactants r) (modifiers r))))
      ms ∧
    ts = [t] ∧ subject t = Some S ∧ outcome t = Some P ∧
    template_controllers t = ms ∧
    cls t = Families.conversion_of ms ∧ rate_law t = Some e.
Proof.
  intros (e & ms & rs & ps & He & Hms & Hrs & Hps & ->)%reaction_templates_inv
    Hr Hp HS HP Hguard.
  rewrite Hr in Hrs. rewrite Hp in Hps.
  apply Forall2_cons_inv_l in Hrs as (S' & rs' & HS' & Hnil & ->).
  apply Forall2_nil_inv_l in Hnil as ->.
  apply Forall2_cons_inv_l in Hps as (P' & ps' & HP' & Hnil & ->).
  apply Forall2_nil_inv_l in Hnil as ->.
  apply lookup_filtered_spec in Hms. unfold extended_modifiers in Hms.
  simplify_eq. unfold conversion. rewrite Hguard.
  exists e, ms.
  destruct ms as [|m0 [|m1 ms]]; simpl; eexists; by split_and!.
Qed.

End sbml_shape_extras.

(** ** Reaction networks: compartments, lookups and the loop *)

Section sbml_loop_extras.
Import Sbml.

Variable sympy : sympy_ops.
Variable reporter_ids : gset string.
Variable concepts : gmap string concept.
Variable params : gmap string param_info.
Variable species_ids : gset string.

Lemma subs_removes (x : string) (v : Q) (e : expr) :
  x ∉ variables_from_sympy_expr (subs x v e).
Proof.
  induction e as [y|q|a IHa b IHb|a IHa b IHb|a IHa b IHb]; simpl.
  - case_bool_decide as Hy; simpl.
    + apply not_elem_of_empty.
    + by intros ->%elem_of_singleton.
  - apply not_elem_of_empty.
  - by intros [?|?]%elem_of_union.
  - by intros [?|?]%elem_of_union.
  - by intros [?|?]%elem_of_union.
Qed.

Lemma substitute_compartment_Ok (e e' : expr) (comp : string) :
  substitute_compartment sympy params e comp = Ok e' →
  variables_from_sympy_expr e' ⊆ variables_from_sympy_expr e ∧
  ∃ info, params !! comp = Some info ∧
          (Qeq_bool (pi_value info) 1 = false →
           comp ∉ variables_from_sympy_expr e').
Proof.
  intros H.
  destruct (params !! comp) as [info|] eqn:Hinfo;
    [|unfold substitute_compartment in H; by rewrite Hinfo in H].
  destruct (substitute_compartment_spec sympy params e comp) as (e1 & H1 & Hsub);
    [by rewrite Hinfo|].
  rewrite H in H1. injection H1 as <-. split; [done|].
  exists info. split; [done|]. intros Hv.
  unfold substitute_compartment in H. rewrite Hinfo, Hv in H.
  assert (e' = subs comp (pi_value info) e) as ->
    by (revert H; repeat case_match; congruence).
  apply subs_removes.
Qed.

Lemma substitute_compartments_removes (comps : list string) (e e' : expr)
    (c : string) (info : param_info) :
  substitute_compartments sympy params comps e = Ok e' →
  c ∈ comps → params !! c = Some info →
  Qeq_bool (pi_value info) 1 = false →
  c ∉ variables_from_sympy_expr e'.
Proof.
  unfold substitute_compartments. intros H Hc Hinfo Hv. revert e H.
  induction comps as [|c0 comps IH]; intros e; simpl.
  - by apply elem_of_nil in Hc.
  - intros (e1 & H1 & H2)%bind_Ok.
    destruct (decide (c ∈ comps)) as [Hin|Hnotin]; [by eapply IH|].
    apply elem_of_cons in Hc as [->|?]; [|done].
    apply substitute_compartment_Ok in H1 as [_ (info' & Hi' & Hgone)].
    rewrite Hinfo in Hi'. injection Hi' as <-. specialize (Hgone Hv).
    clear IH. revert e1 H2 Hgone.
    induction comps as [|c1 comps IH]; intros e1; simpl.
    + by intros [= <-].
    + intros (e2 & [Hsub _]%substitute_compartment_Ok & H3)%bind_Ok Hgone.
      eapply IH; [|exact H3|].
      * intros ?. apply Hnotin. by right.
      * intros ?. apply Hgone. by apply Hsub.
Qed.

(** The rate law of a template never mentions a compartment whose volume
    is not 1: the symbol has been replaced by the volume. *)
Theorem rate_law_without_compartment (comps : list string) (r : reaction)
    (ts : list template) (t : template) (e : expr) (c : string)
    (info : param_info) :
  reaction_templates sympy reporter_ids concepts params species_ids comps r
    = Ok ts →
  t ∈ ts → rate_law t = Some e →
  c ∈ comps → params !! c = Some info →
  Qeq_bool (pi_value info) 1 = false →
  c ∉ free_symbols e.
Proof.
  intros (e0 & ms & rs & ps & He0 & _ & _ & _ & ->)%reaction_templates_inv
    Ht He Hc Hinfo Hv.
  assert (rate_law t = Some e0) as Hrate.
  { destruct (conversion rs ps ms e0) as [|l] eqn:Hconv;
      [by apply elem_of_nil in Ht|].
    apply elem_of_app in Ht as [Ht|Ht].
    - by destruct (conversion_controllers _ _ _ _ _ _ Hconv Ht).
    - by destruct (production_or_degradation_controllers _ _ _ _ _ Ht). }
  rewrite He in Hrate. injection Hrate as ->.
  by eapply substitute_compartments_removes.
Qed.

(** The lookup of a list of species succeeds exactly when every species
    that is kept has a concept; a reporter or a species whose identifier
    contains ['cumulative'] needs none. *)
Theorem lookup_filtered_succeeds_iff (ids : list string) :
  is_ok (_lookup_concepts_filtered reporter_ids concepts ids) = true ↔
  ∀ id, id ∈ ids → species_kept reporter_ids id = true →
        is_Some (concepts !! id).
Proof.
  unfold _lookup_concepts_filtered.
  induction ids as [|id ids IH].
  - split; [|done]. intros _ id Hid. by apply elem_of_nil in Hid.
  - destruct (species_kept reporter_ids id) eqn:Hk.
    + rewrite filter_cons_True by done. simpl.
      destruct (concepts !! id) as [c|] eqn:Hc; simpl.
      * destruct (mapM_result _ (filter _ ids)) as [cs|] eqn:Hm; simpl in *.
        -- split; [|done]. intros _ id' [->|Hin]%elem_of_cons Hk'.
           ++ by rewrite Hc.
           ++ by apply (proj1 IH).
        -- split; [done|]. intros H. apply IH.
           intros id' ? ?. apply H; [by right | done].
      * split; [done|]. intros H.
        destruct (H id) as [? ?]; [left | done | congruence].
    + rewrite filter_cons_False by (by rewrite Hk). rewrite IH. split.
      * intros H id' [->|Hin]%elem_of_cons Hk'; [congruence | by apply H].
      * intros H id' ? ?. apply H; [by right | done].
Qed.

(** The loop over the reactions has no recovery: when a reaction raises,
    the extraction raises the same exception and the templates of the
    reactions before it are lost. *)
Theorem failing_reaction_aborts (comps : list string)
    (before after : list reaction) (r : reaction) (ts : list template)
    (e : exn) :
  extract_templates sympy reporter_ids concepts params species_ids comps before
    = Ok ts →
  reaction_templates sympy reporter_ids concepts params species_ids comps r
    = Raise e →
  extract_templates sympy reporter_ids concepts params species_ids comps
    (before ++ r :: after) = Raise e.
Proof.
  unfold extract_templates. intros Hb Hr.
  rewrite foldM_app, Hb. simpl. by rewrite Hr.
Qed.

Lemma extract_templates_acc (comps : list string) (rs : list reaction)
    (acc : list template) :
  foldM (λ acc r,
           ts ← reaction_templates sympy reporter_ids concepts params
                  species_ids comps r;
           Ok (acc ++ ts)) acc rs =
  extract_templates sympy reporter_ids concepts params species_ids comps rs
    ≫= λ ts, Ok (acc ++ ts).
Proof.
  unfold extract_templates. revert acc.
  induction rs as [|r rs IH]; intros acc; simpl.
  - by rewrite app_nil_r.
  - destruct (reaction_templates _ _ _ _ _ _ r) as [tr|]; [|done]. simpl.
    rewrite (IH (acc ++ tr)), (IH tr).
    destruct (foldM _ [] rs) as [ts|]; [|done]. simpl.
    by rewrite app_assoc.
Qed.

(** The templates come in the order of the reactions: the extraction of
    two lists of reactions one after the other gives the templates of the
    first followed by those of the second. *)
Theorem extract_templates_app (comps : list string) (rs1 rs2 : list reaction)
    (ts1 ts2 : list template) :
  extract_templates sympy reporter_ids concepts params species_ids comps rs1
    = Ok ts1 →
  extract_templates sympy reporter_ids concepts params species_ids comps rs2
    = Ok ts2 →
  extract_templates sympy reporter_ids concepts params species_ids comps
    (rs1 ++ rs2) = Ok (ts1 ++ ts2).
Proof.
  intros H1 H2. unfold extract_templates at 1. rewrite foldM_app.
  fold (extract_templates sympy reporter_ids concepts params species_ids
          comps rs1).
  rewrite H1. simpl. by rewrite extract_templates_acc, H2.
Qed.

(** A model never has more templates than reactions. *)
Theorem extract_templates_length (comps : list string) (rs : list reaction)
    (ts : list template) :
  extract_templates sympy reporter_ids concepts params species_ids comps rs
    = Ok ts →
  length ts ≤ length rs.
Proof.
  revert ts. induction rs as [|r rs IH]; intros ts.
  - by intros [= <-].
  - unfold extract_templates. rewrite foldM_cons.
    intros (acc1 & (tr & Hr & [= <-])%bind_Ok & H)%bind_Ok. simpl in H.
    rewrite extract_templates_acc in H.
    apply bind_Ok in H as (ts' & Hts' & [= <-]).
    apply IH in Hts'.
    apply reaction_templates_inv in Hr
      as (e & ms & rs0 & ps & _ & _ & _ & _ & ->).
    rewrite length_app. simpl.
    destruct (conversion rs0 ps ms e) as [|l] eqn:Hc; simpl; [lia|].
    apply conversion_length in Hc. lia.
Qed.

End sbml_loop_extras.

Lemma reactants_only_degradation_witness :
  ∃ t S0,
    [Template NaturalDegradation (Some Examples.infected) None None []
       (Some (Mul (Symbol "d") (Symbol "I")))] = [t] ∧
    Examples.sir_concepts !! "I" = Some S0 ∧
    subject t = Some S0 ∧ outcome t = None ∧
    cls t = Families.degradation_of (template_controllers t).
Proof.
  apply (reactants_only_degradation Examples.sample_sympy ∅
           Examples.sir_concepts ∅ Examples.sir_species []
           Examples.death_reaction _ "I" []).
  - vm_compute. reflexivity.
  - vm_compute. reflexivity.
  - vm_compute. reflexivity.
Defined.

Lemma products_only_production_witness :
  ∃ t P0,
    [Template NaturalProduction None (Some Examples.susceptible) None []
       (Some (Symbol "b"))] = [t] ∧
    Examples.sir_concepts !! "S" = Some P0 ∧
    subject t = None ∧ outcome t = Some P0 ∧
    cls t = Families.production_of (template_controllers t).
Proof.
  apply (products_only_production Examples.sample_sympy ∅
           Examples.sir_concepts ∅ Examples.sir_species []
           Examples.birth_reaction _ "S" []).
  - vm_compute. reflexivity.
  - vm_compute. reflexivity.
  - vm_compute. reflexivity.
Defined.

Lemma unsupported_reaction_skipped_witness :
  Sbml.reaction_templates Examples.sample_sympy ∅ Examples.sir_concepts ∅
    Examples.sir_species [] Examples.two_reactants = Ok [].
Proof.
  assert (∃ ts, Sbml.reaction_templates Examples.sample_sympy ∅
                  Examples.sir_concepts ∅ Examples.sir_species []
                  Examples.two_reactants = Ok ts) as [ts Hts]
    by (eexists; vm_compute; reflexivity).
  rewrite Hts. f_equal.
  apply (unsupported_reaction_skipped Examples.sample_sympy ∅
           Examples.sir_concepts ∅ Examples.sir_species []
           Examples.two_reactants ts Hts).
  right. vm_compute. split_and!; [discriminate | discriminate | left; lia].
Defined.

Lemma one_to_one_conversion_witness :
  ∃ e ms t,
    Sbml.substitute_compartments Examples.sample_sympy ∅ []
      (Sbml.kinetic_law Examples.undeclared_infection) = Ok e ∧
    Forall2 (λ id c, Examples.sir_concepts !! id = Some c)
      (filter (λ id, Sbml.species_kept ∅ id = true)
         (Sbml.modifiers Examples.undeclared_infection ++
          sorted (Sbml.implicit_modifiers Examples.sir_species
                    (variables_from_sympy_expr e)
                    (Sbml.reactants Examples.undeclared_infection)
                    (Sbml.modifiers Examples.undeclared_infection))))
      ms ∧
    [Examples.infection] = [t] ∧
    subject t = Some Examples.susceptible ∧
    outcome t = Some Examples.infected ∧
    template_controllers t = ms ∧
    cls t = Families.conversion_of ms ∧ rate_law t = Some e.
Proof.
  apply (one_to_one_conversion Examples.sample_sympy ∅
           Examples.sir_concepts ∅ Examples.sir_species []
           Examples.undeclared_infection _ "S" "I").
  - vm_compute. reflexivity.
  - vm_compute. reflexivity.
  - vm_compute. reflexivity.
  - reflexivity.
  - reflexivity.
  - reflexivity.
Defined.

Lemma rate_law_without_compartment_witness :
  "c" ∉ free_symbols (Mul Examples.mass_action (Number 2)).
Proof.
  apply (rate_law_without_compartment Examples.sample_sympy ∅
           Examples.sir_concepts Examples.double_volume Examples.sir_species
           ["c"] Examples.diluted_infection
           [Template ControlledConversion (Some Examples.susceptible)
              (Some Examples.infected) (Some Examples.infected) []
              (Some (Mul Examples.mass_action (Number 2)))]
           (Template ControlledConversion (Some Examples.susceptible)
              (Some Examples.infected) (Some Examples.infected) []
              (Some (Mul Examples.mass_action (Number 2))))
           _ "c" (Sbml.ParamInfo 2 "compartment")).
  - vm_compute. reflexivity.
  - left.
  - reflexivity.
  - left.
  - reflexivity.
  - reflexivity.
Defined.

Lemma failing_reaction_aborts_witness :
  Sbml.extract_templates Examples.sample_sympy ∅ Examples.sir_concepts ∅
    Examples.sir_species []
    ([Examples.undeclared_infection] ++
     Sbml.Reaction "r9" [] ["S"] ["R"] (Symbol "g") false ::
     [Examples.birth_reaction])
  = Raise (KeyError "R").
Proof.
  apply (failing_reaction_aborts Examples.sample_sympy ∅
           Examples.sir_concepts ∅ Examples.sir_species []
           [Examples.undeclared_infection] [Examples.birth_reaction]
           (Sbml.Reaction "r9" [] ["S"] ["R"] (Symbol "g") false)
           [Examples.infection]).
  - vm_compute. reflexivity.
  - vm_compute. reflexivity.
Defined.

Lemma extract_templates_app_witness :
  Sbml.extract_templates Examples.sample_sympy ∅ Examples.sir_concepts ∅
    Examples.sir_species []
    ([Examples.undeclared_infection] ++ [Examples.birth_reaction])
  = Ok ([Examples.infection] ++
        [Template NaturalProduction None (Some Examples.susceptible) None []
           (Some (Symbol "b"))]).
Proof.
  apply (extract_templates_app Examples.sample_sympy ∅
           Examples.sir_concepts ∅ Examples.sir_species []).
  - vm_compute. reflexivity.
  - vm_compute. reflexivity.
Defined.

Lemma extract_templates_length_witness :
  length [Examples.infection] ≤
  length [Examples.undeclared_infection; Examples.two_reactants].
Proof.
  apply (extract_templates_length Examples.sample_sympy ∅
           Examples.sir_concepts ∅ Examples.sir_species []).
  vm_compute. reflexivity.
Defined.

(** ** Constant-concept elimination: what the pass keeps *)

Section elimination_extras.
Import Sbml Elimination.

Lemma replace_controller_kept (t t' : template) (nm : string) (v : Q) :
  replace_controller_by_constant t nm v = Ok (Some t') →
  kept_by_elimination t t'.
Proof.
  intros H. pose proof (replace_controller_count _ _ _ _ H) as Hcount.
  revert H. unfold replace_controller_by_constant, subs_rate_law.
  unfold kept_by_elimination.
  destruct t as [c s o ctl ctls rl]; simpl in *.
  destruct c; try done.
  - destruct ctl as [c0|]; [|done]. case_bool_decide; [|done].
    destruct rl; [|done]. simpl. intros [= <-]. by split_and!.
  - case_bool_decide.
    + destruct rl; [|done]. simpl. intros [= <-]. by split_and!.
    + destruct ctls as [|c0 ctls]; [done|].
      destruct rl; [|done]. simpl. intros [= <-]. by split_and!.
Qed.

Lemma kept_by_elimination_refl (t : template) : kept_by_elimination t t.
Proof. unfold kept_by_elimination. by split_and!. Qed.

Lemma kept_by_elimination_trans (t1 t2 t3 : template) :
  kept_by_elimination t1 t2 → kept_by_elimination t2 t3 →
  kept_by_elimination t1 t3.
Proof.
  unfold kept_by_elimination.
  intros (Hs1 & Ho1 & Hc1 & Hk1) (Hs2 & Ho2 & Hc2 & Hk2).
  split_and!; [congruence | congruence | lia |].
  intros H1 H2. specialize (Hk1 H1 H2). subst t2. by apply Hk2.
Qed.

Lemma replace_constant_concept_kept (tm tm' : template_model) (c : string) :
  replace_constant_concept tm c = Ok tm' →
  Forall2 kept_by_elimination (templates tm) (templates tm') ∧
  initials tm' = initials tm ∧
  parameters tm' =
    <[c := mk_parameter c (constant_value tm c) None]> (parameters tm).
Proof.
  unfold replace_constant_concept.
  intros (ts & Hts & [= <-])%bind_Ok. simpl. split; [|done].
  revert ts Hts. induction (templates tm) as [|t l IH]; intros ts; simpl.
  - intros [= <-]. constructor.
  - intros (t' & Ht' & (ts' & Hts' & [= <-])%bind_Ok)%bind_Ok.
    constructor; [|by apply IH].
    apply bind_Ok in Ht' as ([t''|] & Hr & [= <-]); simpl.
    + by eapply replace_controller_kept.
    + apply kept_by_elimination_refl.
Qed.

Lemma replace_constant_list_kept (cs : list string)
    (tm tm' : template_model) :
  foldM replace_constant_concept tm cs = Ok tm' →
  Forall2 kept_by_elimination (templates tm) (templates tm') ∧
  initials tm' = initials tm ∧
  ∀ k, parameters tm' !! k =
       if bool_decide (k ∈ cs)
       then Some (mk_parameter k (constant_value tm k) None)
       else parameters tm !! k.
Proof.
  revert tm. induction cs as [|c cs IH]; intros tm; simpl.
  - intros [= <-]. split_and!; [|done|done].
    apply Forall2_same_length_lookup. split; [done|].
    intros i t t' ? ?. simplify_eq. apply kept_by_elimination_refl.
  - intros (tm1 & (Hk1 & Hi1 & Hp1)%replace_constant_concept_kept
              & (Hk2 & Hi2 & Hp2)%IH)%bind_Ok.
    split_and!.
    + clear -Hk1 Hk2. revert Hk2.
      generalize (templates tm') as l3. revert Hk1.
      generalize (templates tm) (templates tm1). intros l1 l2 H12.
      induction H12 as [|x y l1 l2 Hxy _ IH']; intros l3 H23;
        inversion H23; subst; constructor;
        [by eapply kept_by_elimination_trans | by apply IH'].
    + congruence.
    + intros k. rewrite Hp2, Hp1. unfold constant_value. rewrite Hi1.
      destruct (decide (k ∈ cs)) as [Hin|Hnotin].
      * rewrite (bool_decide_eq_true_2 _ Hin).
        by rewrite bool_decide_eq_true_2 by (by right).
      * rewrite (bool_decide_eq_false_2 _ Hnotin).
        destruct (decide (c = k)) as [->|Hne].
        -- rewrite lookup_insert_eq.
           by rewrite bool_decide_eq_true_2 by left.
        -- rewrite lookup_insert_ne by done.
           rewrite bool_decide_eq_false_2; [done|].
           by intros [->|?]%elem_of_cons.
Qed.

(** The pass keeps the number and the order of the templates, the
    subject and the outcome of each, and the initials; it leaves alone
    every template that is neither a [ControlledConversion] nor a
    [GroupedControlledConversion], so a production or a degradation keeps
    a controller that is constant. *)
Theorem elimination_keeps (tm tm' : template_model) :
  replace_constant_concepts tm = Ok tm' →
  Forall2 kept_by_elimination (templates tm) (templates tm') ∧
  length (templates tm') = length (templates tm) ∧
  initials tm' = initials tm.
Proof.
  unfold replace_constant_concepts.
  intros (cs & _ & (Hk & Hi & _)%replace_constant_list_kept)%bind_Ok.
  split_and!; [done | | done]. symmetry. by eapply Forall2_length.
Qed.

(** After the pass every constant concept is a parameter whose value is
    that of its initial, or 1 when it has none, and which replaces an
    earlier parameter of the same name; every other parameter is as
    before. *)
Theorem elimination_parameters (tm tm' : template_model)
    (constants : gset string) (k : string) :
  find_constant_concepts tm = Ok constants →
  replace_constant_concepts tm = Ok tm' →
  parameters tm' !! k =
    if bool_decide (k ∈ constants)
    then Some (mk_parameter k (constant_value tm k) None)
    else parameters tm !! k.
Proof.
  unfold replace_constant_concepts. intros Hc. rewrite Hc. simpl.
  intros (_ & _ & Hp)%replace_constant_list_kept. rewrite Hp.
  destruct (decide (k ∈ constants)) as [Hin|Hnotin].
  - rewrite (bool_decide_eq_true_2 _ Hin).
    by rewrite bool_decide_eq_true_2 by (by apply elem_of_elements).
  - rewrite (bool_decide_eq_false_2 _ Hnotin).
    by rewrite bool_decide_eq_false_2 by (by rewrite elem_of_elements).
Qed.

End elimination_extras.

(** ** Constant concepts *)

Section constant_concept_extras.
Import Sbml Mentions.

Lemma scan_roles_step (A C : gset string) (role : string) (v : role_value) :
  scan_roles (A, C) (role, v) =
  role_names v ≫= λ N,
    Ok (A ∪ N,
        if bool_decide (role = "subject") || bool_decide (role = "outcome")
        then C ∪ N else C).
Proof. reflexivity. Qed.

Lemma scan_roles_spec (rvs : list (string * role_value))
    (A C A' C' : gset string) :
  foldM scan_roles (A, C) rvs = Ok (A', C') →
  (∀ x, x ∈ A' ↔
        x ∈ A ∨ ∃ role v N, (role, v) ∈ rvs ∧ role_names v = Ok N ∧ x ∈ N) ∧
  (∀ x, x ∈ C' ↔
        x ∈ C ∨ ∃ role v N, (role, v) ∈ rvs ∧
                  (role = "subject" ∨ role = "outcome") ∧
                  role_names v = Ok N ∧ x ∈ N).
Proof.
  revert A C. induction rvs as [|[role v] rvs IH]; intros A C.
  - intros [= <- <-]. split; intros x; split; auto.
    + intros [?|(? & ? & ? & H & _)]; [done | by apply elem_of_nil in H].
    + intros [?|(? & ? & ? & H & _)]; [done | by apply elem_of_nil in H].
  - rewrite foldM_cons, scan_roles_step.
    destruct (role_names v) as [N|] eqn:HN; [|done]. simpl.
    intros [IHA IHC]%IH. split; intros x.
    + rewrite IHA, elem_of_union. split.
      * intros [[?|?]|(r & v' & N' & Hin & ? & ?)]; [by left| |].
        -- right. exists role, v, N. split_and!; [left | done | done].
        -- right. exists r, v', N'. split_and!; [by right | done | done].
      * intros [?|(r & v' & N' & [[= -> ->]|Hin]%elem_of_cons & HN' & ?)].
        -- by left; left.
        -- rewrite HN in HN'. injection HN' as <-. by left; right.
        -- right. by exists r, v', N'.
    + rewrite IHC. split.
      * intros [Hx|(r & v' & N' & Hin & ? & ? & ?)].
        -- destruct (bool_decide (role = "subject") ||
                     bool_decide (role = "outcome")) eqn:Hrole.
           ++ apply elem_of_union in Hx as [?|?]; [by left|].
              right. exists role, v, N. split_and!; [left | | done | done].
              apply orb_true_iff in Hrole
                as [?%bool_decide_eq_true|?%bool_decide_eq_true]; auto.
           ++ by left.
        -- right. exists r, v', N'. split_and!; [by right | done..].
      * intros [?|(r & v' & N' & [[= -> ->]|Hin]%elem_of_cons & Hr & HN' & ?)].
        -- left. destruct (_ || _); [apply elem_of_union|]; auto.
        -- rewrite HN in HN'. injection HN' as <-. left.
           assert (bool_decide (role = "subject") ||
                   bool_decide (role = "outcome") = true) as ->.
           { apply orb_true_iff.
             destruct Hr as [->| ->]; [left | right];
               by apply bool_decide_eq_true. }
           apply elem_of_union. by right.
        -- right. by exists r, v', N'.
Qed.

Lemma scan_templates_spec (ts : list template) (A C A' C' : gset string) :
  foldM (λ acc t, foldM scan_roles acc (get_concepts_by_role t)) (A, C) ts
    = Ok (A', C') →
  (∀ x, x ∈ A' ↔ x ∈ A ∨ ∃ t role, t ∈ ts ∧ mentions t role x) ∧
  (∀ x, x ∈ C' ↔
        x ∈ C ∨ ∃ t role, t ∈ ts ∧ (role = "subject" ∨ role = "outcome") ∧
                  mentions t role x).
Proof.
  revert A C. induction ts as [|t ts IH]; intros A C.
  - intros [= <- <-]. split; intros x; split; auto.
    + intros [?|(? & ? & H & _)]; [done | by apply elem_of_nil in H].
    + intros [?|(? & ? & H & _)]; [done | by apply elem_of_nil in H].
  - rewrite foldM_cons.
    intros ([A1 C1] & [HA1 HC1]%scan_roles_spec & [IHA IHC]%IH)%bind_Ok.
    unfold mentions in *. split; intros x.
    + rewrite IHA, HA1. split.
      * intros [[?|(r & v & N & ? & ? & ?)]|(t' & r & ? & ?)]; [by left| |].
        -- right. exists t, r. split; [left|]. by exists v, N.
        -- right. exists t', r. split; [by right | done].
      * intros [?|(t' & r & [->|?]%elem_of_cons & (v & N & ? & ? & ?))].
        -- by left; left.
        -- left; right. by exists r, v, N.
        -- right. exists t', r. split; [done|]. by exists v, N.
    + rewrite IHC, HC1. split.
      * intros [[?|(r & v & N & ? & ? & ? & ?)]|(t' & r & ? & ? & ?)];
          [by left| |].
        -- right. exists t, r. split_and!; [left | done |]. by exists v, N.
        -- right. exists t', r. split_and!; [by right | done | done].
      * intros [?|(t' & r & [->|?]%elem_of_cons & ? & (v & N & ? & ? & ?))].
        -- by left; left.
        -- left; right. by exists r, v, N.
        -- right. exists t', r. split_and!; [done | done |]. by exists v, N.
Qed.

(** The constant concepts are the names that some template mentions and
    that no template mentions as its subject or its outcome: the names
    that occur as controllers only.  A concept that no template mentions
    is not among them. *)
Theorem find_constant_concepts_spec (tm : template_model)
    (constants : gset string) (x : string) :
  find_constant_concepts tm = Ok constants →
  x ∈ constants ↔
  (∃ t role, t ∈ templates tm ∧ mentions t role x) ∧
  (∀ t role, t ∈ templates tm → mentions t role x →
             role ≠ "subject" ∧ role ≠ "outcome").
Proof.
  unfold find_constant_concepts.
  intros ([A C] & [HA HC]%scan_templates_spec & [= <-])%bind_Ok. simpl.
  rewrite elem_of_difference, HA, HC. split.
  - intros [[?%not_elem_of_empty|Hm] Hnot]; [done|]. split; [done|].
    intros t role Ht Hmt. split; intros ->; apply Hnot; right; exists t.
    + exists "subject". by split_and!; [|left|].
    + exists "outcome". by split_and!; [|right|].
  - intros [Hm Hnone]. split; [by right|].
    intros [?%not_elem_of_empty|(t & role & Ht & Hr & Hmt)]; [done|].
    destruct (Hnone t role Ht Hmt) as [? ?]. by destruct Hr.
Qed.

End constant_concept_extras.

Lemma elimination_keeps_witness :
  ∃ tm', Sbml.replace_constant_concepts Examples.grouped_model = Ok tm' ∧
         length (templates tm') = length (templates Examples.grouped_model) ∧
         initials tm' = initials Examples.grouped_model.
Proof.
  assert (∃ tm', Sbml.replace_constant_concepts Examples.grouped_model
                 = Ok tm') as [tm' H] by (eexists; vm_compute; reflexivity).
  exists tm'. split; [exact H|].
  exact (proj2 (elimination_keeps Examples.grouped_model tm' H)).
Defined.

Lemma elimination_parameters_witness :
  ∃ constants tm',
    Sbml.find_constant_concepts Examples.grouped_model = Ok constants ∧
    Sbml.replace_constant_concepts Examples.grouped_model = Ok tm' ∧
    parameters tm' !! "C" =
      if bool_decide ("C" ∈ constants)
      then Some (mk_parameter "C"
                   (Elimination.constant_value Examples.grouped_model "C")
                   None)
      else parameters Examples.grouped_model !! "C".
Proof.
  assert (∃ X, Sbml.find_constant_concepts Examples.grouped_model = Ok X)
    as [X HX] by (eexists; vm_compute; reflexivity).
  assert (∃ tm', Sbml.replace_constant_concepts Examples.grouped_model
                 = Ok tm') as [tm' H] by (eexists; vm_compute; reflexivity).
  exists X, tm'. split_and!; [exact HX | exact H |].
  exact (elimination_parameters Examples.grouped_model tm' X "C" HX H).
Defined.

Lemma find_constant_concepts_spec_witness :
  ∃ constants,
    Sbml.find_constant_concepts Examples.grouped_model = Ok constants ∧
    ("C" ∈ constants ↔
     (∃ t role, t ∈ templates Examples.grouped_model ∧
                Mentions.mentions t role "C") ∧
     (∀ t role, t ∈ templates Examples.grouped_model →
                Mentions.mentions t role "C" →
                role ≠ "subject" ∧ role ≠ "outcome")).
Proof.
  assert (∃ X, Sbml.find_constant_concepts Examples.grouped_model = Ok X)
    as [X HX] by (eexists; vm_compute; reflexivity).
  exists X. split; [exact HX|].
  exact (find_constant_concepts_spec Examples.grouped_model X "C" HX).
Defined.

(** ** Petri-net exporters: the payloads *)

Section exporter_extras.
Import Modeling.

Lemma make_vmap_fold (vars : list (string * variable))
    (vmap0 : gmap string nat) (idx0 : nat) :
  (foldl (λ '(vmap, idx) '(_, var), (<[v_key var := idx + 1]> vmap, S idx))
         (vmap0, idx0) vars).2 = idx0 + length vars ∧
  (∀ k, is_Some ((foldl (λ '(vmap, idx) '(_, var),
                           (<[v_key var := idx + 1]> vmap, S idx))
                        (vmap0, idx0) vars).1 !! k) ↔
        is_Some (vmap0 !! k) ∨ k ∈ (λ kv, v_key kv.2) <$> vars) ∧
  (∀ k i, (foldl (λ '(vmap, idx) '(_, var),
                    (<[v_key var := idx + 1]> vmap, S idx))
                 (vmap0, idx0) vars).1 !! k = Some i →
          vmap0 !! k = Some i ∨ idx0 < i ≤ idx0 + length vars).
Proof.
  revert vmap0 idx0. induction vars as [|[key var] vars IH];
    intros vmap0 idx0; simpl.
  - split_and!; [lia | | by left].
    intros k. split; [by left|]. intros [?|H]; [done|].
    by apply elem_of_nil in H.
  - destruct (IH (<[v_key var := idx0 + 1]> vmap0) (S idx0))
      as (Hidx & Hdom & Hran).
    split_and!.
    + rewrite Hidx. lia.
    + intros k. rewrite Hdom, elem_of_cons. simpl.
      destruct (decide (v_key var = k)) as [<-|Hne].
      * rewrite lookup_insert_eq. split; [intros _|]; eauto.
      * rewrite lookup_insert_ne by done. split.
        -- intros [?|?]; auto.
        -- intros [?|[?|?]]; auto. congruence.
    + intros k i Hk. destruct (Hran k i Hk) as [Hin|?]; [|lia].
      destruct (decide (v_key var = k)) as [<-|Hne].
      * rewrite lookup_insert_eq in Hin. injection Hin as <-. lia.
      * rewrite lookup_insert_ne in Hin by done. by left.
Qed.

(** The handles of [PetriNetModel]: the variables that have one are those
    whose own key occurs in the model, and a handle is a position between
    1 and the number of variables. *)
Lemma make_vmap_spec (m : model) :
  (∀ k, is_Some (Petri.make_vmap m !! k) ↔
        k ∈ (λ kv, v_key kv.2) <$> variables m) ∧
  (∀ k i, Petri.make_vmap m !! k = Some i → 1 ≤ i ≤ length (variables m)).
Proof.
  unfold Petri.make_vmap.
  destruct (make_vmap_fold (variables m) ∅ 0) as (_ & Hdom & Hran). split.
  - intros k. rewrite Hdom, lookup_empty. split; [|by right].
    by intros [[? [=]]|?].
  - intros k i Hk. destruct (Hran k i Hk) as [H|?]; [|lia].
    by rewrite lookup_empty in H.
Qed.

Lemma handles_ok {H} (vmap : gmap string H) (vs : list variable) :
  is_ok (mapM_result (λ c, getitem vmap (v_key c)) vs) = true ↔
  ∀ v, v ∈ vs → is_Some (vmap !! v_key v).
Proof.
  induction vs as [|v vs IH]; simpl.
  - split; [|done]. intros _ v Hv. by apply elem_of_nil in Hv.
  - assert (getitem vmap (v_key v) =
            match vmap !! v_key v with
            | Some h => Ok h
            | None => Raise (KeyError (v_key v))
            end) as -> by done.
    destruct (vmap !! v_key v) as [h|] eqn:Hh; simpl.
    + destruct (mapM_result _ vs) as [hs|]; simpl in *.
      * split; [|done]. intros _ v' [->|Hin]%elem_of_cons;
          [by rewrite Hh | by apply IH].
      * split; [done|]. intros Hall. apply IH.
        intros v' ?. apply Hall. by right.
    + split; [done|]. intros Hall.
      destruct (Hall v) as [? ?]; [left | congruence].
Qed.

Lemma export_arcs_ok (vmap : gmap string nat) (idx : nat) (tr : transition) :
  is_ok (Petri.export_arcs vmap idx tr) = true ↔
  ∀ v, v ∈ t_control tr ++ t_consumed tr ++ t_produced tr →
       is_Some (vmap !! v_key v).
Proof.
  unfold Petri.export_arcs.
  pose proof (handles_ok vmap (t_control tr)) as Hc.
  pose proof (handles_ok vmap (t_consumed tr)) as Hs.
  pose proof (handles_ok vmap (t_produced tr)) as Hp.
  destruct (mapM_result _ (t_control tr)) as [ctl|];
    destruct (mapM_result _ (t_consumed tr)) as [cons|];
    destruct (mapM_result _ (t_produced tr)) as [prod|]; simpl in *;
    (split; [intros Hok v Hv | intros Hall]); try done;
    try (apply elem_of_app in Hv as [?|[?|?]%elem_of_app];
         [by apply Hc | by apply Hs | by apply Hp]).
  all: first
    [ apply Hp; intros v ?; apply Hall; rewrite !elem_of_app; by auto
    | apply Hs; intros v ?; apply Hall; rewrite !elem_of_app; by auto
    | apply Hc; intros v ?; apply Hall; rewrite !elem_of_app; by auto ].
Qed.

Lemma export_transition_ok (vmap : gmap string string) (idx : nat)
    (tr : transition) :
  is_ok (AskeNet.export_transition vmap idx tr) = true ↔
  ∀ v, v ∈ t_control tr ++ t_consumed tr ++ t_produced tr →
       is_Some (vmap !! v_key v).
Proof.
  unfold AskeNet.export_transition.
  pose proof (handles_ok vmap (t_control tr)) as Hc.
  pose proof (handles_ok vmap (t_consumed tr)) as Hs.
  pose proof (handles_ok vmap (t_produced tr)) as Hp.
  destruct (mapM_result _ (t_control tr)) as [ctl|];
    destruct (mapM_result _ (t_consumed tr)) as [cons|];
    destruct (mapM_result _ (t_produced tr)) as [prod|]; simpl in *;
    (split; [intros Hok v Hv | intros Hall]); try done;
    try (apply elem_of_app in Hv as [?|[?|?]%elem_of_app];
         [by apply Hc | by apply Hs | by apply Hp]).
  all: first
    [ apply Hp; intros v ?; apply Hall; rewrite !elem_of_app; by auto
    | apply Hs; intros v ?; apply Hall; rewrite !elem_of_app; by auto
    | apply Hc; intros v ?; apply Hall; rewrite !elem_of_app; by auto ].
Qed.

Lemma foldM_ok_iff {A S} (P : A → Prop) (body : S → A → result S)
    (xs : list A) (s : S) :
  (∀ s x, is_ok (body s x) = true ↔ P x) →
  is_ok (foldM body s xs) = true ↔ Forall P xs.
Proof.
  intros Hbody. revert s. induction xs as [|x xs IH]; intros s; simpl.
  - split; [constructor | done].
  - rewrite Forall_cons, <- (Hbody s x).
    destruct (body s x) as [s'|]; simpl.
    + rewrite IH. split; [by split | by intros [_ ?]].
    + split; [done | by intros [? _]].
Qed.

Lemma askenet_states_fold (vars : list (string * variable))
    (vmap0 : gmap string string) (states0 : list state_data) :
  let r := foldl (λ '(vmap, states) '(key, var),
                    let name := display_name key var in
                    (<[key := name]> vmap,
                     states ++ [StateData name
                                  (str_or_none (v_data_identifiers var))
                                  (str_or_none (v_data_context var))
                                  (v_data_initial_value var)]))
                 (vmap0, states0) vars in
  (∀ k, is_Some (r.1 !! k) ↔ is_Some (vmap0 !! k) ∨ k ∈ vars.*1) ∧
  sd_name <$> r.2 =
    (sd_name <$> states0) ++ ((λ kv, display_name kv.1 kv.2) <$> vars) ∧
  (∀ k h, r.1 !! k = Some h →
          vmap0 !! k = Some h ∨
          h ∈ (λ kv, display_name kv.1 kv.2) <$> vars).
Proof.
  revert vmap0 states0. induction vars as [|[key var] vars IH];
    intros vmap0 states0; simpl.
  - split_and!; [|by rewrite app_nil_r|by left].
    intros k. split; [by left|]. intros [?|H]; [done|].
    by apply elem_of_nil in H.
  - destruct (IH (<[key := display_name key var]> vmap0)
                (states0 ++ [StateData (display_name key var)
                               (str_or_none (v_data_identifiers var))
                               (str_or_none (v_data_context var))
                               (v_data_initial_value var)]))
      as (Hdom & Hnames & Hran).
    split_and!.
    + intros k. rewrite Hdom, elem_of_cons.
      destruct (decide (key = k)) as [<-|Hne].
      * rewrite lookup_insert_eq. split; [intros _|]; eauto.
      * rewrite lookup_insert_ne by done. split.
        -- intros [?|?]; auto.
        -- intros [?|[?|?]]; auto. congruence.
    + etrans; [apply Hnames|]. rewrite fmap_app. simpl.
      by rewrite <- app_assoc.
    + intros k h Hk. rewrite elem_of_cons.
      destruct (Hran k h Hk) as [Hin|?]; [|by right; right].
      destruct (decide (key = k)) as [<-|Hne].
      * rewrite lookup_insert_eq in Hin. injection Hin as <-.
        right. by left.
      * rewrite lookup_insert_ne in Hin by done. by left.
Qed.

(** The two exporters look the variables of a transition up under
    different keys.  [PetriNetModel] is constructed exactly when every
    variable that a transition controls, consumes or produces has the key
    of one of the model's variables; [AskeNetPetriNetModel] exactly when
    it has one of the keys of the [variables] dictionary.  Otherwise the
    constructor raises. *)
Theorem exporters_constructed_iff (m : model) :
  (is_ok (Petri.init m) = true ↔
   ∀ tr v, tr ∈ transitions m →
           v ∈ t_control tr ++ t_consumed tr ++ t_produced tr →
           v_key v ∈ (λ kv, v_key kv.2) <$> variables m) ∧
  (is_ok (AskeNet.init m) = true ↔
   ∀ tr v, tr ∈ transitions m →
           v ∈ t_control tr ++ t_consumed tr ++ t_produced tr →
           v_key v ∈ (variables m).*1).
Proof.
  split.
  - unfold Petri.init, Petri.transitions_loop.
    pose proof (foldM_ok_iff
      (λ tr, ∀ v, v ∈ t_control tr ++ t_consumed tr ++ t_produced tr →
                  is_Some (Petri.make_vmap m !! v_key v))
      (λ '(tds, inputs, outputs) tr,
         let idx := length tds in
         '(ins, outs) ← Petri.export_arcs (Petri.make_vmap m) idx tr;
         Ok (tds ++ [TransitionDict (idx + 1) [] []
                       (rate_law (t_template tr))],
             inputs ++ ins, outputs ++ outs))
      (transitions m) ([], [], [])) as Hloop.
    destruct (foldM _ _ (transitions m)) as [[[tds ins] outs]|]; simpl in *.
    + rewrite Hloop, Forall_forall.
      * split.
        -- intros H tr v Htr Hv. apply (proj1 (make_vmap_spec m)). eauto.
        -- intros H tr Htr v Hv. apply (proj1 (make_vmap_spec m)). eauto.
      * intros [[tds' ins'] outs'] tr.
        rewrite <- (export_arcs_ok _ (length tds') tr).
        by destruct (Petri.export_arcs _ (length tds') tr) as [[? ?]|].
    + rewrite Hloop, Forall_forall.
      * split.
        -- intros H tr v Htr Hv. apply (proj1 (make_vmap_spec m)). eauto.
        -- intros H tr Htr v Hv. apply (proj1 (make_vmap_spec m)). eauto.
      * intros [[tds' ins'] outs'] tr.
        rewrite <- (export_arcs_ok _ (length tds') tr).
        by destruct (Petri.export_arcs _ (length tds') tr) as [[? ?]|].
  - unfold AskeNet.init, AskeNet.transitions_loop.
    destruct (askenet_states_fold (variables m) ∅ []) as (Hdom & _ & _).
    unfold AskeNet.states_loop.
    destruct (foldl _ (∅, []) (variables m)) as [vmap states] eqn:Hfold.
    simpl in Hdom.
    pose proof (foldM_ok_iff
      (λ tr, ∀ v, v ∈ t_control tr ++ t_consumed tr ++ t_produced tr →
                  is_Some (vmap !! v_key v))
      (λ acc tr, td ← AskeNet.export_transition vmap (length acc) tr;
                 Ok (acc ++ [td]))
      (transitions m) []) as Hloop.
    assert (∀ k, is_Some (vmap !! k) ↔ k ∈ (variables m).*1) as Hdom'.
    { intros k. rewrite Hdom, lookup_empty. split; [|by right].
      by intros [[? [=]]|?]. }
    destruct (foldM _ _ (transitions m)) as [tds|]; simpl in *.
    + rewrite Hloop, Forall_forall.
      * split.
        -- intros H tr v Htr Hv. apply Hdom'. eauto.
        -- intros H tr Htr v Hv. apply Hdom'. eauto.
      * intros acc tr. rewrite <- (export_transition_ok _ (length acc) tr).
        by destruct (AskeNet.export_transition _ (length acc) tr).
    + rewrite Hloop, Forall_forall.
      * split.
        -- intros H tr v Htr Hv. apply Hdom'. eauto.
        -- intros H tr Htr v Hv. apply Hdom'. eauto.
      * intros acc tr. rewrite <- (export_transition_ok _ (length acc) tr).
        by destruct (AskeNet.export_transition _ (length acc) tr).
Qed.

Lemma export_arcs_range (vmap : gmap string nat) (idx : nat)
    (tr : transition) (ins outs : list arc) (a : arc) :
  Petri.export_arcs vmap idx tr = Ok (ins, outs) → a ∈ ins ++ outs →
  arc_transition a = idx + 1 ∧ ∃ k, vmap !! k = Some (arc_state a).
Proof.
  intros H Ha. split; [by apply (petri_export_arcs _ _ _ _ _ H)|].
  revert H Ha. unfold Petri.export_arcs.
  intros (ctl & Hc & (cons & Hs & (prod & Hp & [= <- <-])%bind_Ok)%bind_Ok)
    %bind_Ok.
  rewrite !elem_of_app, !list_elem_of_fmap.
  intros [[(h & -> & Hh)|(h & -> & Hh)]|[(h & -> & Hh)|(h & -> & Hh)]];
    simpl;
    [destruct (proj2 (handles_elem _ _ _ Hc) h Hh) as (v & _ & ?)
    |destruct (proj2 (handles_elem _ _ _ Hs) h Hh) as (v & _ & ?)
    |destruct (proj2 (handles_elem _ _ _ Hc) h Hh) as (v & _ & ?)
    |destruct (proj2 (handles_elem _ _ _ Hp) h Hh) as (v & _ & ?)];
    by exists (v_key v).
Qed.

Lemma petri_loop_range (vmap : gmap string nat) (trs : list transition)
    (tds0 : list transition_dict) (ins0 outs0 : list arc) tds ins outs :
  foldM (λ '(tds, inputs, outputs) tr,
           let idx := length tds in
           '(ins, outs) ← Petri.export_arcs vmap idx tr;
           Ok (tds ++ [TransitionDict (idx + 1) [] []
                         (rate_law (t_template tr))],
               inputs ++ ins, outputs ++ outs))
        (tds0, ins0, outs0) trs = Ok (tds, ins, outs) →
  ∃ tds' ins' outs',
    tds = tds0 ++ tds' ∧ ins = ins0 ++ ins' ∧ outs = outs0 ++ outs' ∧
    length tds' = length trs ∧
    (∀ i td, tds' !! i = Some td → td_id td = length tds0 + i + 1) ∧
    ∀ a, a ∈ ins' ++ outs' →
         length tds0 < arc_transition a ≤ length tds0 + length trs ∧
         ∃ k, vmap !! k = Some (arc_state a).
Proof.
  revert tds0 ins0 outs0.
  induction trs as [|tr trs IH]; intros tds0 ins0 outs0; simpl.
  - intros [= <- <- <-]. exists [], [], []. rewrite !app_nil_r.
    split_and!; try done. intros a Ha. by apply elem_of_nil in Ha.
  - destruct (Petri.export_arcs vmap (length tds0) tr) as [[i1 o1]|] eqn:He;
      [|done]. simpl.
    intros (tds' & ins' & outs' & -> & -> & -> & Hlen & Hid & Harcs)%IH.
    rewrite length_app in Hid, Harcs. simpl in Hid, Harcs.
    eexists (_ :: tds'), (i1 ++ ins'), (o1 ++ outs'). split_and!.
    + by rewrite <- app_assoc.
    + by rewrite <- app_assoc.
    + by rewrite <- app_assoc.
    + simpl. by rewrite Hlen.
    + intros [|i] td; simpl.
      * intros [= <-]. simpl. lia.
      * intros Htd. rewrite (Hid i td Htd). lia.
    + intros a Ha.
      assert (a ∈ i1 ++ o1 ∨ a ∈ ins' ++ outs') as [H1|H2]
        by (revert Ha; rewrite !elem_of_app; tauto).
      * destruct (export_arcs_range _ _ _ _ _ _ He H1) as [-> ?].
        split; [lia | done].
      * destruct (Harcs a H2) as [? ?]. split; [lia | done].
Qed.

(** A [PetriNetModel] that is constructed gives a payload: [to_json]
    returns the four lists, with one state per variable and one
    transition per transition of the model, numbered from 1 in order;
    and every arc joins a state position between 1 and the number of
    variables to a transition number between 1 and the number of
    transitions. *)
Theorem petri_payload_well_formed (m : model) (self : obj) :
  Petri.init m = Ok self →
  ∃ tds ins outs,
    Petri.to_json self =
      Ok [("S", VStates (Petri.states_loop m)); ("T", VTransitions tds);
          ("I", VArcs ins); ("O", VArcs outs)] ∧
    length (Petri.states_loop m) = length (variables m) ∧
    length tds = length (transitions m) ∧
    (∀ i td, tds !! i = Some td → td_id td = i + 1) ∧
    ∀ a, a ∈ ins ++ outs →
         1 ≤ arc_state a ≤ length (variables m) ∧
         1 ≤ arc_transition a ≤ length (transitions m).
Proof.
  unfold Petri.init, Petri.transitions_loop, setattr.
  intros ([[tds ins] outs] & Hloop & [= <-])%bind_Ok.
  apply petri_loop_range in Hloop
    as (tds' & ins' & outs' & -> & -> & -> & Hlen & Hid & Harcs).
  exists tds', ins', outs'. simpl in *. split_and!.
  - unfold Petri.to_json, getattr. by simplify_map_eq.
  - unfold Petri.states_loop. by rewrite length_fmap.
  - done.
  - intros i td Htd. by rewrite (Hid i td Htd).
  - intros a Ha. destruct (Harcs a Ha) as [? (k & Hk)].
    apply make_vmap_spec in Hk. lia.
Qed.

(** An [AskeNetPetriNetModel] that is constructed has one state per
    variable, whose ids are the display names in the order of the
    variables, one transition per transition of the model and one
    parameter per parameter; and every name in the input and output list
    of a transition is the id of one of the states. *)
Theorem askenet_transitions_refer_to_states (m : model) (self : obj) :
  AskeNet.init m = Ok self →
  ∃ states tds,
    self !! "states" = Some (VStates states) ∧
    self !! "transitions" = Some (VTransitions tds) ∧
    self !! "parameters" = Some (VParameters (AskeNet.parameters_loop m)) ∧
    sd_name <$> states = (λ kv, display_name kv.1 kv.2) <$> variables m ∧
    length tds = length (transitions m) ∧
    length (AskeNet.parameters_loop m) = length (m_parameters m) ∧
    ∀ td h, td ∈ tds → h ∈ td_input td ++ td_output td →
            h ∈ sd_name <$> states.
Proof.
  intros (tds & Hloop & ->)%askenet_init_inv.
  exists (AskeNet.states_loop m).2, tds.
  assert (sd_name <$> (AskeNet.states_loop m).2 =
          (λ kv, display_name kv.1 kv.2) <$> variables m) as Hnames
    by exact (proj1 (proj2 (askenet_states_fold (variables m) ∅ []))).
  assert (∀ k h, (AskeNet.states_loop m).1 !! k = Some h →
                 (∅ : gmap string string) !! k = Some h ∨
                 h ∈ (λ kv, display_name kv.1 kv.2) <$> variables m) as Hran
    by exact (proj2 (proj2 (askenet_states_fold (variables m) ∅ []))).
  unfold AskeNet.transitions_loop in Hloop.
  apply (foldM_snoc (AskeNet.export_transition _)) in Hloop
    as (ys & -> & Hlen & Hys). simpl in *.
  split_and!; try by simplify_map_eq.
  - unfold AskeNet.parameters_loop. by rewrite length_fmap.
  - intros td h [i Hi]%list_elem_of_lookup Hh.
    destruct (lookup_lt_is_Some_2 (transitions m) i) as [tr Htr];
      [rewrite <- Hlen; by eapply lookup_lt_Some|].
    destruct (Hys i tr Htr) as (td' & Htd' & Hex).
    rewrite Hi in Htd'. injection Htd' as <-.
    apply askenet_export_transition in Hex as [_ (_ & _ & _ & Hin & Hout)].
    rewrite Hnames.
    assert (∃ v, handle (AskeNet.states_loop m).1 v = Some h) as [v Hv].
    { apply elem_of_app in Hh as [Hh|Hh];
        [destruct (Hin h Hh) as (v & _ & ?)
        |destruct (Hout h Hh) as (v & _ & ?)]; by exists v. }
    unfold handle in Hv. destruct (Hran _ _ Hv) as [Hempty|?]; [|done].
    by rewrite lookup_empty in Hempty.
Qed.

End exporter_extras.

Lemma petri_payload_well_formed_witness :
  ∃ self tds ins outs,
    Modeling.Petri.init Examples.infection_model = Ok self ∧
    Modeling.Petri.to_json self =
      Ok [("S", Modeling.VStates
                  (Modeling.Petri.states_loop Examples.infection_model));
          ("T", Modeling.VTransitions tds);
          ("I", Modeling.VArcs ins); ("O", Modeling.VArcs outs)] ∧
    length tds = 1.
Proof.
  assert (∃ self, Modeling.Petri.init Examples.infection_model = Ok self)
    as [self H] by (eexists; reflexivity).
  destruct (petri_payload_well_formed Examples.infection_model self H)
    as (tds & ins & outs & Hjs & _ & Hlen & _).
  exists self, tds, ins, outs. split_and!; [exact H | exact Hjs | exact Hlen].
Defined.

Lemma askenet_transitions_refer_to_states_witness :
  ∃ self states tds,
    Modeling.AskeNet.init Examples.infection_model = Ok self ∧
    self !! "states" = Some (Modeling.VStates states) ∧
    self !! "transitions" = Some (Modeling.VTransitions tds) ∧
    Modeling.sd_name <$> states = ["S"; "I"].
Proof.
  assert (∃ self, Modeling.AskeNet.init Examples.infection_model = Ok self)
    as [self H] by (eexists; reflexivity).
  destruct (askenet_transitions_refer_to_states Examples.infection_model
              self H) as (states & tds & Hs & Ht & _ & Hn & _).
  exists self, states, tds. split_and!; [exact H | exact Hs | exact Ht |].
  exact Hn.
Defined.

(** ** Concepts from annotated species *)

Section extract_concept_facts.

Import Extract.

Lemma keys_set (k v : string) (d : PyDict.t) :
  PyDict.keys (PyDict.set k v d)
  = if bool_decide (k ∈ PyDict.keys d) then PyDict.keys d
    else PyDict.keys d ++ [k].
Proof.
  unfold PyDict.keys. induction d as [|[k' v'] d IH]; csimpl; [done|].
  destruct (decide (k' = k)) as [->|Hne].
  - rewrite !bool_decide_true by (done || apply list_elem_of_here). done.
  - rewrite (bool_decide_false (k' = k)) by done. csimpl. rewrite IH.
    destruct (decide (k ∈ d.*1)) as [Hin|Hin].
    + rewrite !bool_decide_true
        by (done || by apply list_elem_of_further). done.
    + rewrite !bool_decide_false; [done | | done].
      intros [->|?]%elem_of_cons; done.
Qed.

Lemma set_wf (k v : string) (d : PyDict.t) :
  PyDict.wf d → PyDict.wf (PyDict.set k v d).
Proof.
  unfold PyDict.wf. intros H. rewrite keys_set. case_bool_decide; [done|].
  apply NoDup_app. split_and!; [done | | apply NoDup_singleton].
  intros x Hx ->%list_elem_of_singleton. done.
Qed.

Lemma of_list_snoc (l : list (string * string)) (kv : string * string) :
  of_list (l ++ [kv]) = PyDict.set kv.1 kv.2 (of_list l).
Proof. unfold of_list. by rewrite foldl_snoc. Qed.

Lemma of_list_spec (l : list (string * string)) :
  PyDict.wf (of_list l) ∧
  (∀ k, k ∈ PyDict.keys (of_list l) ↔ k ∈ l.*1) ∧
  length (of_list l) ≤ length l ∧
  (length (of_list l) = length l ↔ NoDup l.*1).
Proof.
  induction l as [|[k v] l (Hwf & Hk & Hle & Hiff)] using rev_ind.
  - split_and!; [apply NoDup_nil_2 | done | done |].
    split; [intros _; apply NoDup_nil_2 | done].
  - rewrite of_list_snoc. simpl.
    assert (length (PyDict.set k v (of_list l))
            = length (PyDict.keys (PyDict.set k v (of_list l)))) as Hlen
      by (unfold PyDict.keys; by rewrite length_fmap).
    rewrite keys_set in Hlen.
    assert (length (PyDict.keys (of_list l)) = length (of_list l)) as Hlen0
      by (unfold PyDict.keys; by rewrite length_fmap).
    split_and!.
    + by apply set_wf.
    + intros k0. rewrite keys_set, fmap_app, elem_of_app. simpl.
      rewrite list_elem_of_singleton. case_bool_decide as E.
      * rewrite Hk. split; [by left|]. intros [?| ->]; [done | by apply Hk].
      * rewrite elem_of_app, list_elem_of_singleton, Hk. done.
    + rewrite Hlen, length_app. simpl. case_bool_decide.
      * lia.
      * rewrite length_app. simpl. lia.
    + rewrite Hlen, fmap_app, length_app. simpl.
      rewrite NoDup_app. case_bool_decide as E.
      * split; [lia|]. intros (_ & Hd & _). exfalso.
        apply (Hd k); [by apply Hk | apply list_elem_of_here].
      * rewrite length_app, Hlen0. simpl. split.
        -- intros Heq. split_and!.
           ++ apply Hiff. lia.
           ++ intros x Hx ->%list_elem_of_singleton. by apply E, Hk.
           ++ apply NoDup_singleton.
        -- intros (Hnd & _ & _). apply Hiff in Hnd. lia.
Qed.

Lemma of_list_wf (l : list (string * string)) : PyDict.wf (of_list l).
Proof. exact (proj1 (of_list_spec l)). Qed.

Lemma of_list_length (l : list (string * string)) :
  length (of_list l) = length l ↔ NoDup l.*1.
Proof. exact (proj2 (proj2 (proj2 (of_list_spec l)))). Qed.


Lemma resolve_Some (l : list tuple) (pairs : list (string * string)) :
  resolve l = Some pairs → l = Some <$> pairs.
Proof.
  revert pairs. induction l as [|[p|] l IH]; intros pairs; simpl.
  - by intros [= <-].
  - destruct (resolve l) as [ps|]; [|done]. simpl. intros [= <-].
    by rewrite fmap_cons, <- (IH ps).
  - done.
Qed.

Lemma resolve_filled (l : list tuple) :
  Forall is_Some l → ∃ pairs, resolve l = Some pairs.
Proof.
  induction 1 as [|t l [p ->] _ [ps IH]]; simpl; [by eexists|].
  rewrite IH. by eexists.
Qed.

Lemma validated_identifiers_wf (l : list tuple) (ids : PyDict.t) :
  validated_identifiers l = Ok ids → PyDict.wf ids.
Proof.
  unfold validated_identifiers. destruct (resolve l); [|done].
  intros [= <-]. apply of_list_wf.
Qed.

(** *** Annotations that are read without an error *)

Lemma read_items_resolved (items : list item) :
  resolved items →
  read_items items = Ok (item_tuple <$> items) ∧
  Forall is_Some (item_tuple <$> items).
Proof.
  unfold resolved, read_items.
  induction 1 as [|it items (p & i & ->) _ [IH1 IH2]]; simpl; [done|].
  rewrite IH1. simpl. split; [done|]. constructor; [by eexists | done].
Qed.

Lemma Forall_remove_first (P : tuple → Prop) (x : tuple) (l : list tuple) :
  Forall P l → Forall P (remove_first x l).
Proof.
  induction 1 as [|y l Hy Hl IH]; simpl; [constructor|].
  case_bool_decide; [done | by constructor].
Qed.

Lemma clean_identifiers_filled (l : list tuple) :
  Forall is_Some l → Forall is_Some (clean_identifiers l).1.
Proof.
  intros Hl. unfold clean_identifiers.
  assert (∀ l' : list tuple, Forall is_Some l' →
            Forall is_Some (l' ++ [Some ("ncit", "C101887")])) as Happ.
  { intros l' Hl'. apply Forall_app. split; [done|].
    constructor; [by eexists | constructor]. }
  repeat match goal with
         | |- context [if ?b then _ else _] => destruct b
         end; simpl;
    repeat first [ apply Happ | apply Forall_remove_first ]; done.
Qed.

Lemma fallback_identifiers_filled (l : list tuple) (ctx : PyDict.t) :
  Forall is_Some l → Forall is_Some (fallback_identifiers l ctx).1.
Proof.
  intros Hl. unfold fallback_identifiers.
  assert (∀ l' : list tuple, Forall is_Some l' →
            Forall is_Some (l' ++ [Some ("ido", "0000511")])) as Happ.
  { intros l' Hl'. apply Forall_app. split; [done|].
    constructor; [by eexists | constructor]. }
  repeat match goal with
         | |- context [if ?b then _ else _] => destruct b
         end; simpl;
    repeat first [ apply Happ | apply Forall_remove_first ]; done.
Qed.

Lemma sorted_tuples_filled (l : list tuple) :
  Forall is_Some l →
  ∃ l', sorted_tuples l = Ok l' ∧ Forall is_Some l'.
Proof.
  intros [pairs Hp]%resolve_filled. unfold sorted_tuples. rewrite Hp.
  eexists. split; [done|]. apply Forall_fmap, Forall_true. by eexists.
Qed.

Lemma add_property_loop (f : nat → nat) (l : list tuple) (ctx : PyDict.t) :
  Forall is_Some l →
  ∃ ctx', foldM add_property ctx (imap (λ idx p, (f idx, p)) l) = Ok ctx'.
Proof.
  intros Hl. revert f ctx.
  induction Hl as [|t l [p ->] _ IH]; intros f ctx; simpl; [by eexists|].
  apply (IH (f ∘ S)).
Qed.

Lemma add_properties_filled (props : list tuple) (ctx : PyDict.t) :
  Forall is_Some props → ∃ ctx', add_properties props ctx = Ok ctx'.
Proof.
  intros (l & Hl & Hfilled)%sorted_tuples_filled.
  unfold add_properties. rewrite Hl. simpl.
  by apply (add_property_loop id).
Qed.

Lemma validated_identifiers_filled (l : list tuple) :
  Forall is_Some l → ∃ ids, validated_identifiers l = Ok ids.
Proof.
  intros [pairs Hp]%resolve_filled. unfold validated_identifiers.
  rewrite Hp. by eexists.
Qed.

Variable get_curie : concept → string * string.
Variable grounding_map : gmap (string * string) (PyDict.t * PyDict.t).

(** What the extraction hands to [grounding_normalize] when it gets
    through an annotation: a well-formed dictionary, with the reference
    to the species when there is a model identifier. *)
Lemma extract_annotated_inv (sp : species_node) (units : option expr)
    (model_id : option string) (tree : result annotation) (c : concept) :
  curated grounding_map sp model_id = None →
  sn_annotation sp = Some tree →
  _extract_concept get_curie grounding_map sp units model_id = Ok c →
  ∃ ids ctx,
    PyDict.wf ids ∧
    (∀ mid, model_id = Some mid → str_truthy mid = true →
       PyDict.get "biomodels.species" ids = Some (mid +:+ ":" +:+ sn_id sp)) ∧
    Sbml.grounding_normalize get_curie
      (Concept (if str_truthy (species_name sp)
                then species_name sp else sn_id sp) ids ctx units) = Ok c.
Proof.
  intros Hcur Hann. unfold _extract_concept. rewrite Hcur, Hann.
  intros (ann & _ & (props & _ & (l0 & _ & H)%bind_Ok)%bind_Ok)%bind_Ok.
  destruct (clean_identifiers l0) as [l ctx0].
  destruct (keys_repeat l); [done|].
  apply bind_Ok in H as (ctx1 & _ & H).
  apply bind_Ok in H as ([elements ctx2] & _ & H).
  apply bind_Ok in H as (ids0 & Hwf%validated_identifiers_wf & H).
  destruct model_id as [mid|]; [destruct (str_truthy mid) eqn:Et|].
  - eexists _, _. split_and!; [by apply set_wf | | exact H].
    intros mid' [= <-] _. apply get_set_eq.
  - eexists _, _. split_and!; [done | | exact H].
    intros mid' [= <-]. by rewrite Et.
  - eexists _, _. split_and!; [done | done | exact H].
Qed.

Lemma grounding_normalize_total (c : concept) :
  PyDict.wf (identifiers c) →
  ∃ c', Sbml.grounding_normalize get_curie c = Ok c' ∧
        Sbml.no_swapped_prefix (identifiers c') ∧
        name c' = name c ∧ units c' = units c.
Proof.
  intros Hwf. destruct (swap_ido_ncit_spec _ Hwf) as (ids1 & Hs & Hinv & _).
  by apply (grounding_normalize_prefixes get_curie c ids1).
Qed.

Lemma extract_clash (sp : species_node) (units : option expr)
    (model_id : option string) :
  well_formed sp → clashing grounding_map sp model_id →
  _extract_concept get_curie grounding_map sp units model_id
  = Raise AssertionError.
Proof.
  intros Hwf (Hcur & ann & Hann & Hnd). unfold _extract_concept.
  rewrite Hcur, Hann.
  destruct (Hwf _ Hann) as (ann' & [= <-] & Hp & Hi & _).
  rewrite bind_Ok_l.
  rewrite (proj1 (read_items_resolved _ Hp)), bind_Ok_l.
  rewrite (proj1 (read_items_resolved _ Hi)), bind_Ok_l.
  destruct (clean_identifiers _) as [l ctx]. simpl in Hnd.
  unfold keys_repeat. by rewrite bool_decide_false.
Qed.

Lemma clashing_cases (sp : species_node) (model_id : option string) :
  clashing grounding_map sp model_id ∨ ¬ clashing grounding_map sp model_id.
Proof.
  unfold clashing.
  destruct (curated grounding_map sp model_id) eqn:Hcur;
    [right; by intros [? _]|].
  destruct (sn_annotation sp) as [[ann|e]|];
    [|right; by intros (_ & ? & ? & _)|right; by intros (_ & ? & ? & _)].
  destruct (decide (NoDup (prefix_of <$>
                             (clean_identifiers
                                (item_tuple <$> ann_identifiers ann)).1)))
    as [Hnd|Hnd].
  - right. intros (_ & ann' & [= <-] & H). done.
  - left. split; [done|]. by exists ann.
Qed.

Lemma extract_no_clash (sp : species_node) (units : option expr)
    (model_id : option string) :
  well_formed sp → ¬ clashing grounding_map sp model_id →
  ∃ c, _extract_concept get_curie grounding_map sp units model_id = Ok c.
Proof.
  intros Hwf Hno. unfold _extract_concept.
  destruct (curated grounding_map sp model_id) as [[ids ctx]|] eqn:Hcur;
    [by eexists|].
  destruct (sn_annotation sp) as [tree|] eqn:Hann; [|by eexists].
  destruct (Hwf _ Hann) as (ann & -> & Hp & Hi & Hv).
  rewrite bind_Ok_l.
  destruct (read_items_resolved _ Hp) as [-> Hfp]. rewrite bind_Ok_l.
  destruct (read_items_resolved _ Hi) as [-> Hfi]. rewrite bind_Ok_l.
  pose proof (clean_identifiers_filled _ Hfi) as Hclean.
  destruct (clean_identifiers (item_tuple <$> ann_identifiers ann))
    as [l ctx0] eqn:El. simpl in Hclean.
  destruct (decide (NoDup (prefix_of <$> l))) as [Hnd|Hnd].
  2:{ destruct Hno. split; [done|]. exists ann. by rewrite El. }
  unfold keys_repeat. rewrite bool_decide_true by done. simpl.
  destruct (add_properties_filled (item_tuple <$> ann_properties ann) ctx0 Hfp)
    as [ctx1 ->]. simpl.
  assert (∃ elements ctx2,
            match l with
            | [] =>
                version ← read_items (ann_version ann);
                elements ← reverse <$> sorted_tuples version;
                Ok (fallback_identifiers elements ctx1)
            | _ :: _ => Ok (l, ctx1)
            end = Ok (elements, ctx2) ∧ Forall is_Some elements)
    as (elements & ctx2 & -> & Hfe).
  { destruct l as [|t l].
    - destruct (read_items_resolved _ Hv) as [-> Hfv]. rewrite bind_Ok_l.
      destruct (sorted_tuples_filled _ Hfv) as (sv & -> & Hsv). simpl.
      pose proof (fallback_identifiers_filled (reverse sv) ctx1) as Hfb.
      destruct (fallback_identifiers (reverse sv) ctx1) as [els ctx2].
      exists els, ctx2. split; [done|]. apply Hfb. by apply Forall_reverse.
    - by exists (t :: l), ctx1. }
  simpl.
  destruct (validated_identifiers_filled _ Hfe) as [ids0 Hids0].
  rewrite Hids0. simpl.
  apply validated_identifiers_wf in Hids0.
  match goal with
  | |- ∃ c, Sbml.grounding_normalize _ ?c0 = _ =>
      destruct (grounding_normalize_total c0) as (c & Hc & _);
        [|by exists c]
  end.
  simpl. destruct model_id as [mid|]; [destruct (str_truthy mid)|];
    try done. by apply set_wf.
Qed.

(** X20: the extraction of a concept from a species whose annotation is
    well formed (it parses, and every item of it has a resource that the
    converter resolves) fails in one case only: no curated grounding
    applies and, after the clean-up, two identifiers of the annotation
    share a prefix; the failure is then an [AssertionError].  In every
    other case a concept is returned: the normalisation that ends the
    extraction never fails on a missing key. *)
Theorem extract_concept_fails_iff (sp : species_node) (units : option expr)
    (model_id : option string) :
  well_formed sp →
  (clashing grounding_map sp model_id ↔
   _extract_concept get_curie grounding_map sp units model_id
   = Raise AssertionError) ∧
  (¬ clashing grounding_map sp model_id ↔
   ∃ c, _extract_concept get_curie grounding_map sp units model_id = Ok c).
Proof.
  intros Hwf. split; split.
  - by apply extract_clash.
  - intros Hr. destruct (clashing_cases sp model_id) as [|Hno]; [done|].
    destruct (extract_no_clash sp units model_id Hwf Hno) as [c Hc].
    congruence.
  - by apply extract_no_clash.
  - intros [c Hc] Hcl. apply (extract_clash sp units model_id Hwf) in Hcl.
    congruence.
Qed.

(** The other ways in which the extraction fails: an annotation that
    does not parse, an item without resource, a property whose URI the
    converter does not know, and identifiers that hold such a URI. *)
Lemma extract_ill_formed (sp : species_node) (units : option expr)
    (model_id : option string) :
  curated grounding_map sp model_id = None →
  (∀ e, sn_annotation sp = Some (Raise e) →
        _extract_concept get_curie grounding_map sp units model_id
        = Raise e) ∧
  (∀ ann, sn_annotation sp = Some (Ok ann) →
          NoResource ∈ ann_properties ann →
          _extract_concept get_curie grounding_map sp units model_id
          = Raise (KeyError RESOURCE_KEY)).
Proof.
  intros Hcur. unfold _extract_concept. rewrite Hcur. split.
  - by intros e ->.
  - intros ann -> Hin. rewrite bind_Ok_l.
    assert (read_items (ann_properties ann) = Raise (KeyError RESOURCE_KEY))
      as ->; [|done].
    unfold read_items. induction (ann_properties ann) as [|it l IH].
    + by apply elem_of_nil in Hin.
    + simpl. destruct it as [| |p i]; simpl; [done| |].
      * apply elem_of_cons in Hin as [[=]|Hin]. by rewrite IH.
      * apply elem_of_cons in Hin as [[=]|Hin]. by rewrite IH.
Qed.

Lemma grounding_normalize_frame (c c' : concept) (k : string) :
  PyDict.wf (identifiers c) →
  Sbml.grounding_normalize get_curie c = Ok c' →
  k ≠ "ncit" → k ≠ "ido" →
  PyDict.get k (identifiers c') = PyDict.get k (identifiers c) ∨
  identifiers c' = [("ido", "0000592")] ∨
  identifiers c' = [("ncit", "C28554")].
Proof.
  intros Hwf Hc Hn Hi.
  destruct (swap_ido_ncit_spec _ Hwf) as (ids1 & Hs & _ & Hframe).
  unfold Sbml.grounding_normalize in Hc. rewrite Hs in Hc. simpl in Hc.
  destruct (negb _ && _).
  { injection Hc as <-. left. simpl. rewrite get_set_ne by done.
    by apply Hframe. }
  destruct (bool_decide _ && _).
  { injection Hc as <-. left. by apply Hframe. }
  destruct (bool_decide _ && _).
  { injection Hc as <-. right. by left. }
  destruct (bool_decide _).
  { injection Hc as <-. right. by right. }
  injection Hc as <-. left. by apply Hframe.
Qed.

(** The name, the units and the normalised identifiers of an extracted
    concept. *)
Lemma extract_concept_fields (sp : species_node) (u : option expr)
    (model_id : option string) (c : concept) :
  curated grounding_map sp model_id = None →
  _extract_concept get_curie grounding_map sp u model_id = Ok c →
  Sbml.no_swapped_prefix (identifiers c) ∧
  units c = u ∧
  name c = match sn_annotation sp with
           | Some _ => if str_truthy (species_name sp) then species_name sp
                       else sn_id sp
           | None => species_name sp
           end.
Proof.
  intros Hcur Hc. destruct (sn_annotation sp) as [tree|] eqn:Hann.
  2:{ unfold _extract_concept in Hc. rewrite Hcur, Hann in Hc.
      injection Hc as <-. simpl. by split_and!. }
  destruct (extract_annotated_inv sp u model_id tree c Hcur Hann Hc)
    as (ids & ctx & Hwf & _ & Hnorm).
  match type of Hnorm with
  | Sbml.grounding_normalize _ ?c0 = _ =>
      destruct (grounding_normalize_total c0 Hwf) as (c' & Hc' & Hinv & Hn & Hu)
  end.
  rewrite Hc' in Hnorm. injection Hnorm as <-. by split_and!.
Qed.

(** X21: when no curated grounding applies, the concept extracted from a
    species has normalised identifiers (no [ncit] entry starts with [000],
    no [ido] entry with [C]) and the units it was given; an annotated
    species is named by its name, or by its id when the name is empty or
    holds a parenthesis, whereas a species without annotation keeps an
    empty name. *)
Theorem extracted_concept_normalised (sp : species_node)
    (u : option expr) (model_id : option string) (c : concept) :
  curated grounding_map sp model_id = None →
  _extract_concept get_curie grounding_map sp u model_id = Ok c →
  Sbml.no_swapped_prefix (identifiers c) ∧
  units c = u ∧
  name c = match sn_annotation sp with
           | Some _ => if str_contains "(" (sn_name sp) then sn_id sp
                       else if str_truthy (sn_name sp) then sn_name sp
                       else sn_id sp
           | None => if str_contains "(" (sn_name sp) then sn_id sp
                     else sn_name sp
           end.
Proof.
  intros Hcur Hc.
  destruct (extract_concept_fields sp u model_id c Hcur Hc)
    as (Hinv & Hu & ->).
  split_and!; [done | done |]. unfold species_name.
  destruct (sn_annotation sp); [|done].
  destruct (str_contains "(" (sn_name sp)) eqn:Ep; [|done].
  by destruct (str_truthy (sn_id sp)).
Qed.

(** X22: with a model identifier, the concept extracted from an annotated
    species without curated grounding refers to the species of the
    source model under the key [biomodels.species], unless the
    normalisation replaced the identifiers altogether by those of the
    immune or of the deceased population. *)
Theorem extracted_concept_species_reference (sp : species_node)
    (units : option expr) (mid : string) (ann : result annotation)
    (c : concept) :
  curated grounding_map sp (Some mid) = None →
  sn_annotation sp = Some ann →
  str_truthy mid = true →
  _extract_concept get_curie grounding_map sp units (Some mid) = Ok c →
  PyDict.get "biomodels.species" (identifiers c)
    = Some (mid +:+ ":" +:+ sn_id sp) ∨
  identifiers c = [("ido", "0000592")] ∨
  identifiers c = [("ncit", "C28554")].
Proof.
  intros Hcur Hann Hmid Hc.
  destruct (extract_annotated_inv sp units (Some mid) _ c Hcur Hann Hc)
    as (ids & ctx & Hwf & Href & Hnorm).
  destruct (λ H, grounding_normalize_frame _ c "biomodels.species" H Hnorm)
    as [Hget|Hrest]; [exact Hwf | done | done | | by right].
  left. rewrite Hget. simpl. by apply Href.
Qed.

(** The extraction names every concept that it grounds, when the species
    have identifiers and the curated table has no entry for an empty
    name. *)
Lemma grounded_concept_named (sp : species_node) (units : option expr)
    (model_id : option string) (c : concept) :
  sn_id sp ≠ "" →
  (∀ mid, grounding_map !! (mid, "") = None) →
  _extract_concept get_curie grounding_map sp units model_id = Ok c →
  grounded c → name c ≠ "".
Proof.
  intros Hid Hmap Hc Hg.
  assert (species_name sp = "" → sn_name sp = "") as Hempty.
  { unfold species_name. by destruct (str_contains "(" (sn_name sp)). }
  destruct (curated grounding_map sp model_id) as [[ids ctx]|] eqn:Hcur.
  { unfold _extract_concept in Hc. rewrite Hcur in Hc. injection Hc as <-.
    simpl. intros Hname. unfold curated in Hcur.
    destruct model_id as [mid|]; [|done].
    rewrite Hname, Hmap in Hcur. done. }
  destruct (extract_concept_fields sp units model_id c Hcur Hc)
    as (_ & _ & Hname).
  destruct (sn_annotation sp) as [tree|] eqn:Hann.
  - rewrite Hname. by destruct (species_name sp).
  - unfold _extract_concept in Hc. rewrite Hcur, Hann in Hc.
    injection Hc as <-. by destruct Hg.
Qed.

End extract_concept_facts.

Lemma extract_concept_fails_iff_witness :
  ∃ c, Extract._extract_concept Examples.sample_curie Examples.no_groundings
         Examples.infected_species None (Some "BIOMD0000000955") = Ok c.
Proof.
  assert (Extract.well_formed Examples.infected_species) as Hwf.
  { intros tree [= <-]. eexists. split; [reflexivity|].
    split_and!; repeat constructor. by eexists _, _. }
  apply (extract_concept_fails_iff Examples.sample_curie
           Examples.no_groundings Examples.infected_species None
           (Some "BIOMD0000000955") Hwf).
  intros (_ & ann & [= <-] & Hnd). apply Hnd. vm_compute.
  apply NoDup_singleton.
Defined.

Lemma extracted_concept_normalised_witness :
  ∃ c,
    Extract._extract_concept Examples.sample_curie Examples.no_groundings
      Examples.infected_species None (Some "BIOMD0000000955") = Ok c ∧
    Sbml.no_swapped_prefix (identifiers c) ∧ name c = "Infected".
Proof.
  assert (∃ c, Extract._extract_concept Examples.sample_curie
                 Examples.no_groundings Examples.infected_species None
                 (Some "BIOMD0000000955") = Ok c)
    as [c H] by (eexists; vm_compute; reflexivity).
  assert (Extract.curated Examples.no_groundings Examples.infected_species
            (Some "BIOMD0000000955") = None) as Hcur by reflexivity.
  destruct (extracted_concept_normalised Examples.sample_curie
              Examples.no_groundings Examples.infected_species None
              (Some "BIOMD0000000955") c Hcur H) as (Hinv & _ & Hn).
  exists c. split_and!; [exact H | exact Hinv | exact Hn].
Defined.

Lemma extracted_concept_species_reference_witness :
  ∃ c,
    Extract._extract_concept Examples.sample_curie Examples.no_groundings
      Examples.deceased_species None (Some "BIOMD0000000955") = Ok c ∧
    (PyDict.get "biomodels.species" (identifiers c)
       = Some "BIOMD0000000955:species_5" ∨
     identifiers c = [("ido", "0000592")] ∨
     identifiers c = [("ncit", "C28554")]).
Proof.
  assert (∃ c, Extract._extract_concept Examples.sample_curie
                 Examples.no_groundings Examples.deceased_species None
                 (Some "BIOMD0000000955") = Ok c)
    as [c H] by (eexists; vm_compute; reflexivity).
  exists c. split; [exact H|].
  apply (extracted_concept_species_reference Examples.sample_curie
           Examples.no_groundings Examples.deceased_species None
           "BIOMD0000000955"
           (Ok (Extract.Annotation [] [Extract.Curie "ncit" "C168970"] []))
           c);
    [reflexivity | reflexivity | reflexivity | exact H].
Defined.

(** ** The infection scenario *)

Section infection_facts.
Import Sbml Processor.

Lemma elem_of_dict_keys (ids : list string) (x : string) :
  x ∈ dict_keys ids → x ∈ ids.
Proof.
  revert x. induction ids as [|y ids IH]; intros x; simpl; [done|].
  intros [->|Hin]%elem_of_cons; [left|]. right. apply IH.
  by apply list_elem_of_filter in Hin as [_ ?].
Qed.

Lemma foldl_insert_compartments (cs : list compartment)
    (acc : gmap string param_info) (k : string) :
  is_Some (acc !! k) ∨ k ∈ comp_id <$> cs →
  is_Some (foldl (λ acc c, <[comp_id c :=
                              ParamInfo (comp_volume c) (comp_name c)]> acc)
             acc cs !! k).
Proof.
  revert acc. induction cs as [|c cs IH]; intros acc; simpl.
  - intros [H|H]; [done | by apply elem_of_nil in H].
  - intros [H|H]; apply IH.
    + left. destruct (decide (comp_id c = k)) as [->|Hne].
      * by rewrite lookup_insert_eq.
      * by rewrite lookup_insert_ne.
    + apply elem_of_cons in H as [->|H]; [left | by right].
      by rewrite lookup_insert_eq.
Qed.

(** Every compartment has its entry in [all_parameters]. *)
Lemma all_parameters_compartments (m : sbml_model) (c : string) :
  c ∈ compartment_symbols m → is_Some (all_parameters m !! c).
Proof.
  intros H%elem_of_dict_keys. apply foldl_insert_compartments. by right.
Qed.

Lemma initials_total (concepts : gmap string concept) (sps : list species)
    (acc : gmap string initial) :
  (∀ sp, sp ∈ sps → is_Some (concepts !! sp_id sp)) →
  ∃ inits,
    foldM (λ acc sp,
             match concepts !! sp_id sp with
             | Some c =>
                 Ok (<[sp_name sp :=
                         mk_initial c (sp_initial_concentration sp)]> acc)
             | None => Raise (KeyError (sp_id sp))
             end) acc sps = Ok inits.
Proof.
  revert acc. induction sps as [|sp sps IH]; intros acc Hall; simpl.
  - eauto.
  - destruct (Hall sp) as [c ->]; [left|]. simpl.
    apply IH. intros sp' ?. apply Hall. by right.
Qed.

(** The dictionary of the concepts has an entry for every species, and
    every entry is the concept extracted from a species of that
    identifier. *)
Lemma extract_concepts_acc (get_curie : concept → string * string)
    (grounding_map : gmap (string * string) (PyDict.t * PyDict.t))
    (nodes : list Extract.species_node) (mid : option string)
    (acc concepts : gmap string concept) :
  foldM (λ concepts sp,
           c ← Extract._extract_concept get_curie grounding_map sp None mid;
           Ok (<[Extract.sn_id sp := c]> concepts)) acc nodes = Ok concepts →
  (∀ k, is_Some (acc !! k) ∨ k ∈ Extract.sn_id <$> nodes →
        is_Some (concepts !! k)) ∧
  (∀ k c, concepts !! k = Some c →
          acc !! k = Some c ∨
          ∃ sp, sp ∈ nodes ∧ Extract.sn_id sp = k ∧
                Extract._extract_concept get_curie grounding_map sp None mid
                = Ok c).
Proof.
  revert acc. induction nodes as [|sp nodes IH]; intros acc.
  - intros [= <-]. split.
    + intros k [?|H]; [done | by apply elem_of_nil in H].
    + intros k c ?. by left.
  - rewrite foldM_cons.
    intros (acc1 & (c0 & Hc0 & [= <-])%bind_Ok & [IH1 IH2]%IH)%bind_Ok.
    split.
    + intros k Hk. apply IH1. rewrite fmap_cons in Hk.
      destruct (decide (Extract.sn_id sp = k)) as [<-|Hne].
      * left. by rewrite lookup_insert_eq.
      * rewrite lookup_insert_ne by done.
        destruct Hk as [?|[?|?]%elem_of_cons]; [by left | done | by right].
    + intros k c Hk. destruct (IH2 k c Hk) as [Hacc|(sp' & ? & ? & ?)].
      * destruct (decide (Extract.sn_id sp = k)) as [<-|Hne].
        -- rewrite lookup_insert_eq in Hacc. injection Hacc as <-.
           right. exists sp. split_and!; [left | done | done].
        -- rewrite lookup_insert_ne in Hacc by done. by left.
      * right. exists sp'. split_and!; [by right | done | done].
Qed.

Lemma extract_concepts_spec (get_curie : concept → string * string)
    (grounding_map : gmap (string * string) (PyDict.t * PyDict.t))
    (sps : list species) (mid : option string)
    (concepts : gmap string concept) :
  Extract._extract_concepts get_curie grounding_map (node <$> sps) mid
    = Ok concepts →
  (∀ sp, sp ∈ sps → is_Some (concepts !! sp_id sp)) ∧
  (∀ k c, concepts !! k = Some c →
          ∃ sp, sp ∈ sps ∧ sp_id sp = k ∧
                Extract._extract_concept get_curie grounding_map (node sp)
                  None mid = Ok c).
Proof.
  intros [H1 H2]%extract_concepts_acc. split.
  - intros sp Hsp. apply H1. right. apply list_elem_of_fmap.
    exists (node sp). split; [done|]. apply list_elem_of_fmap. by exists sp.
  - intros k c Hk. destruct (H2 k c Hk) as [Hempty|(nd & Hnd & ? & ?)].
    + by rewrite lookup_empty in Hempty.
    + apply list_elem_of_fmap in Hnd as (sp & -> & ?). by exists sp.
Qed.

(** The loop over the reactions, when every kinetic law is read without
    an error, is the loop over the reactions as they are read. *)
Lemma reactions_loop_read (sympy : sympy_ops) (reporter_ids : gset string)
    (concepts : gmap string concept) (m : sbml_model) (rs : list reaction) :
  model_reactions m = Ok <$> rs →
  reactions_loop sympy reporter_ids concepts m
  = extract_templates sympy reporter_ids concepts (all_parameters m)
      (all_species m) (compartment_symbols m) rs.
Proof.
  intros Hrs. unfold reactions_loop, extract_templates. rewrite Hrs.
  clear Hrs. generalize (@nil template) as acc.
  induction rs as [|r rs IH]; intros acc; [done|].
  rewrite fmap_cons, !foldM_cons, bind_Ok_l.
  destruct (reaction_templates _ _ _ _ _ _ r) as [ts|]; [|done].
  rewrite !bind_Ok_l. apply IH.
Qed.

Variable sympy : sympy_ops.
Variable get_curie : concept → string * string.
Variable grounding_map : gmap (string * string) (PyDict.t * PyDict.t).
Variable units : gmap string expr.
Variable model_id : option string.
Variable reporter_ids : gset string.
Variable m : sbml_model.
Variable mid : option string.
Variable concepts : gmap string concept.
Variables (rid k s i : string) (rev : bool) (S I : concept).

Hypothesis calls_return :
  library_calls_return units model_id m mid.
Hypothesis concepts_extracted :
  Extract._extract_concepts get_curie grounding_map
    (node <$> model_species m) mid = Ok concepts.
Hypothesis the_reaction :
  model_reactions m =
    [Ok (Reaction rid [i] [s] [i]
           (Mul (Mul (Symbol k) (Symbol s)) (Symbol i)) rev)].
Hypothesis concept_s : concepts !! s = Some S.
Hypothesis concept_i : concepts !! i = Some I.
Hypothesis kept_s : species_kept reporter_ids s = true.
Hypothesis kept_i : species_kept reporter_ids i = true.
Hypothesis k_parameter : k ∉ all_species m.

Lemma infection_templates :
  ∃ rate,
    reactions_loop sympy reporter_ids concepts m
    = Ok (if str_truthy (name S) && concept_eqb S I then []
          else [Template ControlledConversion (Some S) (Some I) (Some I) []
                  (Some rate)]).
Proof.
  rewrite (reactions_loop_read _ _ _ _
             [Reaction rid [i] [s] [i]
                (Mul (Mul (Symbol k) (Symbol s)) (Symbol i)) rev])
    by exact the_reaction.
  unfold extract_templates. simpl.
  unfold reaction_templates. simpl.
  destruct (substitute_compartments_spec sympy (all_parameters m)
              (compartment_symbols m)
              (Mul (Mul (Symbol k) (Symbol s)) (Symbol i)))
    as (rate & -> & Hvars); [apply all_parameters_compartments|].
  exists rate. simpl.
  assert (implicit_modifiers (all_species m)
            (variables_from_sympy_expr rate) [s] [i] = ∅) as Himp.
  { apply set_eq. intros x. rewrite elem_of_implicit_modifiers.
    split; [|by intros ?%not_elem_of_empty].
    intros (Hx%Hvars & Hsp & Hs & Hi). simpl in Hx.
    rewrite !elem_of_union, !elem_of_singleton in Hx.
    destruct Hx as [[->| ->]| ->].
    - by destruct k_parameter.
    - destruct Hs. left.
    - destruct Hi. left. }
  unfold extended_modifiers. simpl. rewrite Himp, sorted_empty. simpl.
  rewrite (lookup_kept_singleton _ _ i I) by done. simpl.
  rewrite (lookup_kept_singleton _ _ s S) by done. simpl.
  unfold conversion.
  by destruct (str_truthy (name S) && concept_eqb S I).
Qed.

(** C1: for a document whose one reaction has the reactants [{S}], the
    products [{I}], the modifier [{I}] and the rate law [k*S*I], where [S]
    and [I] are species the importer keeps and [k] is not a species,
    [extract_model] returns a model as soon as the library calls return
    and the concepts are extracted.  The model holds exactly one
    [ControlledConversion] with subject [S], outcome [I] and controller
    [I] when the concepts of [S] and [I] are distinct, and no template
    when they are the same named concept.  The extraction names every
    concept that it grounds, by the name or else the identifier of the
    species, and the curated table by the name it is keyed with: when the
    species has an identifier and the table has no entry for the empty
    name, a reaction whose subject and outcome are the same grounded
    concept gives no template. *)
Theorem infection_imported :
  ∃ tm,
    extract_model sympy get_curie grounding_map units model_id reporter_ids m
      = Ok tm ∧
    (concept_eqb S I = false →
       ∃ rate, templates tm =
         [Template ControlledConversion (Some S) (Some I) (Some I) []
            (Some rate)]) ∧
    (concept_eqb S I = true → name S ≠ "" → templates tm = []) ∧
    (s ≠ "" → (∀ id, grounding_map !! (id, "") = None) →
     concept_eqb S I = true → Extract.grounded S → templates tm = []).
Proof.
  destruct calls_return as (Hmid & Hannots & Hfuns & Hrules & Hunits).
  destruct (extract_concepts_spec _ _ _ _ _ concepts_extracted)
    as [Hcover Hfrom].
  assert (∃ tm,
            extract_model sympy get_curie grounding_map units model_id
              reporter_ids m = Ok tm ∧
            templates tm
            = if str_truthy (name S) && concept_eqb S I then []
              else [Template ControlledConversion (Some S) (Some I) (Some I)
                      [] (Some (default (Number 0)
                                  (head (omap rate_law (templates tm)))))])
    as (tm & Htm & Hts).
  { unfold extract_model. rewrite Hmid, bind_Ok_l, Hannots, bind_Ok_l.
    rewrite concepts_extracted, bind_Ok_l, Hfuns, bind_Ok_l.
    destruct (mapM_result_total
                (λ sp, match units !! sp_units sp with
                       | Some u => Ok u
                       | None => Raise (KeyError (sp_units sp))
                       end) (model_species m)) as [us ->].
    { intros sp Hsp. destruct (Hunits sp Hsp) as [u ->]. by exists u. }
    rewrite bind_Ok_l, Hrules, bind_Ok_l.
    destruct infection_templates as (rate & ->). rewrite bind_Ok_l.
    destruct (initials_total concepts (model_species m) ∅ Hcover)
      as (inits & ->). rewrite bind_Ok_l.
    destruct (str_truthy (name S) && concept_eqb S I) eqn:Hguard.
    - eexists. split.
      + apply replace_constant_concepts_none.
        unfold find_constant_concepts. simpl. f_equal; set_solver.
      + reflexivity.
    - eexists. split.
      + apply replace_constant_concepts_none.
        rewrite find_constant_concepts_controlled. f_equal. apply set_eq.
        intros x.
        rewrite elem_of_difference, !elem_of_union, !elem_of_singleton.
        split; [|by intros ?%not_elem_of_empty]. tauto.
      + reflexivity. }
  assert (concept_eqb S I = true → name S ≠ "" → templates tm = [])
    as Hnamed.
  { intros Heq Hname. rewrite Hts, Heq.
    by destruct (name S). }
  exists tm. split_and!; [done | | done |].
  - intros Heq. rewrite Hts, Heq, andb_false_r. eauto.
  - intros Hs Hmap Heq Hg. apply Hnamed; [done|].
    destruct (Hfrom s S concept_s) as (sp & Hsp & Hid & Hex).
    apply (grounded_concept_named get_curie grounding_map (node sp) None mid);
      try done.
    simpl. by rewrite Hid.
Qed.

End infection_facts.

Lemma infection_imported_witness :
  ∃ tm, Processor.extract_model Examples.sample_sympy Examples.sample_curie
          Examples.no_groundings Examples.declared_units
          (Some "BIOMD0000000955") ∅ Examples.sir_model = Ok tm ∧
        ∃ rate, templates tm =
          [Template ControlledConversion (Some Examples.susceptible)
             (Some Examples.infected) (Some Examples.infected) []
             (Some rate)].
Proof.
  destruct (infection_imported Examples.sample_sympy Examples.sample_curie
              Examples.no_groundings Examples.declared_units
              (Some "BIOMD0000000955") ∅ Examples.sir_model
              (Some "BIOMD0000000955") Examples.sir_concepts
              "r1" "k" "S" "I" false
              Examples.susceptible Examples.infected)
    as (tm & Htm & Hdistinct & _).
  - split_and!; try reflexivity.
    intros sp Hin. simpl in Hin.
    apply elem_of_cons in Hin as [->|Hin];
      [|apply elem_of_cons in Hin as [->|Hin]].
    + vm_compute. eauto.
    + vm_compute. eauto.
    + by apply elem_of_nil in Hin.
  - vm_compute. reflexivity.
  - reflexivity.
  - reflexivity.
  - reflexivity.
  - reflexivity.
  - reflexivity.
  - vm_compute. intros H. discriminate H.
  - exists tm. split; [exact Htm|]. apply Hdistinct. reflexivity.
Defined.

(** The two self-loops, run: the reaction that turns an annotated species
    into itself gives no template; the same reaction on a species that has
    neither a name nor an annotation, whose concept is not grounded, is
    kept. *)
Lemma self_loops :
  templates <$> Processor.extract_model Examples.sample_sympy
                  Examples.sample_curie Examples.no_groundings
                  Examples.declared_units (Some "BIOMD0000000955") ∅
                  (Examples.self_loop_model "Infected"
                     (Some (Ok (Extract.Annotation []
                                  [Extract.Curie "ido" "0000511"] []))))
  = Ok [] ∧
  templates <$> Processor.extract_model Examples.sample_sympy
                  Examples.sample_curie Examples.no_groundings
                  Examples.declared_units (Some "BIOMD0000000955") ∅
                  (Examples.self_loop_model "" None)
  = Ok [Template ControlledConversion (Some Examples.nameless)
          (Some Examples.nameless) (Some Examples.nameless) []
          (Some (Mul (Mul (Symbol "k") (Symbol "x")) (Symbol "x")))].
Proof. split; vm_compute; reflexivity. Qed.
